(** * User Profile Manager (main.js): a shallow embedding and its properties

    The program is a single Node.js file: an HTTP request listener over one
    in-memory array [users], mirrored to [users.json] with
    [JSON.stringify (users, null, 2)] after every mutation and read back with
    [JSON.parse] at start-up.

    Layout of this development:
    - [Js]      the values of the language the handler computes with: JSON
                values, Number addition on integers, truthiness, property
                reads;
    - [Json]    [JSON.stringify (_, null, 2)] and [JSON.parse], with the
                digits that Number::toString writes and the Number that a
                numeral denotes;
    - [Server]  the store, the start-up load, [saveUsers], [isAuthenticated]
                and the request listener, written in a small state monad that
                records the effects ([fs.writeFileSync], [res.writeHead],
                [res.end]) in the order the code performs them.

    Scope.  One request is handled at a time (the interleaving of two
    listeners at their [await] is not modelled), [fs.writeFileSync] succeeds,
    and a record of the collection has the four fields [id], [name], [email],
    [role] with an integer [id], the shape the POST handler builds: the
    start-up load is modelled on the files that hold such records.  A Number
    is the rational it denotes, the negative zero or an infinity; NaN, which
    [JSON.parse] never returns, is not a value of the model.  A string is the
    sequence of the bytes of its UTF-8 form, so a string with a surrogate
    that has no partner is not a value of the model either.  The conversion
    of the query parameter [id] to a Number is a parameter of the listener
    ([Engine]). *)

From Stdlib Require Import ZArith NArith String Ascii List Lia.
From Stdlib Require Import Decimal DecimalString DecimalN DecimalZ.
From stdpp Require Import base list strings.

Local Open Scope Z_scope.

(** ** Values *)

Module Js.

(** A value that [JSON.parse] can return.  A Number is the integer it
    denotes ([JNum], a negative zero apart), or the fraction [m / 2 ^ e] with
    [m] odd that it denotes when it is no integer ([JFrac]), or the negative
    zero, or an infinity (what [JSON.parse] returns for a literal beyond the
    range of Number); a string is its sequence of characters; an object its
    properties in enumeration order. *)
Unset Elimination Schemes.
Inductive json : Type :=
  | JNull
  | JBool (b : bool)
  | JNum (n : Z)
  | JFrac (m : Z) (e : positive)
  | JNegZero
  | JInf (negative : bool)
  | JStr (s : string)
  | JArr (items : list json)
  | JObj (props : list (string * json)).
Set Elimination Schemes.

(** Induction with the hypotheses for the values nested in arrays and
    objects. *)
Section json_induction.
Variable P : json → Prop.
Hypothesis Hnull : P JNull.
Hypothesis Hbool : ∀ b, P (JBool b).
Hypothesis Hnum : ∀ n, P (JNum n).
Hypothesis Hfrac : ∀ m e, P (JFrac m e).
Hypothesis Hnegzero : P JNegZero.
Hypothesis Hinf : ∀ negative, P (JInf negative).
Hypothesis Hstr : ∀ s, P (JStr s).
Hypothesis Harr : ∀ items, Forall P items → P (JArr items).
Hypothesis Hobj : ∀ props, Forall (λ kv, P kv.2) props → P (JObj props).

Fixpoint json_ind (v : json) : P v :=
  match v with
  | JNull => Hnull
  | JBool b => Hbool b
  | JNum n => Hnum n
  | JFrac m e => Hfrac m e
  | JNegZero => Hnegzero
  | JInf negative => Hinf negative
  | JStr s => Hstr s
  | JArr items =>
      Harr items
        ((fix go (l : list json) : Forall P l :=
            match l with
            | [] => List.Forall_nil P
            | x :: l' => @List.Forall_cons _ P x l' (json_ind x) (go l')
            end) items)
  | JObj props =>
      Hobj props
        ((fix go (l : list (string * json)) : Forall (λ kv, P kv.2) l :=
            match l with
            | [] => List.Forall_nil _
            | kv :: l' => @List.Forall_cons _ _ kv l' (json_ind kv.2) (go l')
            end) props)
  end.
End json_induction.

(** *** Numbers

    A Number is an IEEE-754 double.  On integers, the result of an addition is
    the exact sum rounded to 53 significant bits, ties to the even
    significand.  (Overflow to Infinity, beyond 2^1024, is out of reach of
    [+ 1].) *)
Definition round53 (z : Z) : Z :=
  let a := Z.abs z in
  let k := Z.log2 a - 52 in
  if k <=? 0 then z
  else
    let q := Z.shiftr a k in
    let r := Z.land a (Z.ones k) in
    let half := Z.shiftl 1 (k - 1) in
    let q' :=
      if r <? half then q
      else if half <? r then q + 1
      else if Z.even q then q else q + 1 in
    Z.sgn z * Z.shiftl q' k.

Definition js_add (a b : Z) : Z := round53 (a + b).

(** [Math.max (x, ...xs)] on at least one argument. *)
Definition Math_max (x : Z) (xs : list Z) : Z := fold_left Z.max xs x.

(** [m] is the greatest element of [l]. *)
Definition is_maximum (m : Z) (l : list Z) : Prop :=
  m ∈ l ∧ ∀ x, x ∈ l → x ≤ m.

(** *** Truthiness and property reads *)

(** [ToBoolean] on a JSON value. *)
Definition truthy (v : json) : bool :=
  match v with
  | JNull => false
  | JBool b => b
  | JNum n => negb (n =? 0)
  | JNegZero => false
  | JStr s => negb (String.eqb s "")
  | JFrac _ _ | JInf _ | JArr _ | JObj _ => true
  end.

(** [ToBoolean] on the result of a property read, [None] being
    [undefined]. *)
Definition truthy_opt (o : option json) : bool :=
  match o with
  | Some v => truthy v
  | None => false
  end.

(** The first binding of a key. *)
Fixpoint assoc (k : string) (props : list (string * json)) : option json :=
  match props with
  | [] => None
  | (k', v) :: rest => if String.eqb k k' then Some v else assoc k rest
  end.

(** The own property [k] of a value that is not [null], for one of the keys
    the handler reads ([name], [email], [role]), which no prototype defines:
    [undefined] ([None]) on an array or a primitive. *)
Definition own_prop (v : json) (k : string) : option json :=
  match v with
  | JObj props => assoc k props
  | _ => None
  end.

Definition is_null (v : json) : bool :=
  match v with
  | JNull => true
  | _ => false
  end.

(** [v.k]: a TypeError ([None] here) on [null]. *)
Definition get_prop (v : json) (k : string) : option (option json) :=
  if is_null v then None else Some (own_prop v k).

End Js.

(** ** JSON text *)

Module Json.
Import Js.

Local Open Scope string_scope.

Definition dquote : ascii := "034".
Definition backslash : ascii := "092".
Definition BS : ascii := "008".
Definition HT : ascii := "009".
Definition LF : ascii := "010".
Definition FF : ascii := "012".
Definition CR : ascii := "013".

(** *** [JSON.stringify (v, null, 2)] *)

Definition hex_digit (n : N) : ascii :=
  if (n <? 10)%N then ascii_of_N (48 + n) else ascii_of_N (87 + n).

(** QuoteJSONString, one character. *)
Definition escape_char (c : ascii) : string :=
  if Ascii.eqb c dquote then String backslash (String dquote "")
  else if Ascii.eqb c backslash then String backslash (String backslash "")
  else if Ascii.eqb c BS then String backslash "b"
  else if Ascii.eqb c FF then String backslash "f"
  else if Ascii.eqb c LF then String backslash "n"
  else if Ascii.eqb c CR then String backslash "r"
  else if Ascii.eqb c HT then String backslash "t"
  else if (N_of_ascii c <? 32)%N then
    String backslash
      (String "u" (String "0" (String "0"
        (String (hex_digit (N_of_ascii c / 16))
          (String (hex_digit (N_of_ascii c mod 16)) "")))))
  else String c "".

Fixpoint escape (s : string) : string :=
  match s with
  | EmptyString => ""
  | String c s' => escape_char c +:+ escape s'
  end.

Definition quote (s : string) : string :=
  String dquote (escape s +:+ String dquote "").

Local Open Scope Z_scope.

(** *** Numbers and decimal text

    A finite Number other than zero is, up to its sign, [M * 2 ^ E] with
    [2 ^ 52 <= M < 2 ^ 53] and [-1074 <= E <= 971], or with [M < 2 ^ 52] and
    [E = -1074].  [JSON.parse] gives a numeral the Number nearest to the
    value it denotes, ties to the even [M]; [JSON.stringify] writes a Number
    with the fewest digits that read back as that Number. *)

Definition is_digit (c : ascii) : bool :=
  (48 <=? N_of_ascii c)%N && (N_of_ascii c <=? 57)%N.

(** The integer that a run of digits denotes, after the digits of [acc]. *)
Fixpoint digits_value (acc : Z) (s : string) : Z :=
  match s with
  | EmptyString => acc
  | String c s' => digits_value (10 * acc + (Z.of_N (N_of_ascii c) - 48)) s'
  end.

(** The digits of a positive integer. *)
Definition digits (z : Z) : string :=
  NilEmpty.string_of_uint (N.to_uint (Z.to_N z)).

Fixpoint zeros (n : nat) : string :=
  match n with
  | O => ""
  | S n' => String "0" (zeros n')
  end.

(** A run of digits without the zeros at its end, and their number. *)
Fixpoint strip_zeros (s : string) : string * nat :=
  match s with
  | EmptyString => ("", O)
  | String c s' =>
      let (d, z) := strip_zeros s' in
      match d with
      | EmptyString =>
          if Ascii.eqb c "0" then ("", S z) else (String c "", z)
      | String _ _ => (String c d, z)
      end
  end.

(** [floor (log2 (n / d))], for positive [n] and [d]: the difference of the
    two logarithms, or one less. *)
Definition log2_ratio (n d : Z) : Z :=
  let l := Z.log2 n - Z.log2 d in
  if d * 2 ^ Z.max l 0 <=? n * 2 ^ Z.max (- l) 0 then l else l - 1.

(** The Number nearest to [n / d], for positive [n] and [d], as [(M, E)] for
    [M * 2 ^ E]: the exponent is that of the binade of [n / d], and not
    below the least one; the quotient by [2 ^ E] is rounded to the nearest
    integer, a tie to the even one. *)
Definition nearest (n d : Z) : Z * Z :=
  let E := Z.max (log2_ratio n d - 52) (- 1074) in
  let num := n * 2 ^ Z.max (- E) 0 in
  let den := d * 2 ^ Z.max E 0 in
  let q := num / den in
  let r := num mod den in
  let M :=
    if 2 * r <? den then q
    else if den <? 2 * r then q + 1
    else if Z.even q then q else q + 1 in
  (M, E).

(** [m / 2 ^ e] in lowest terms. *)
Fixpoint lowest_terms (m : positive) (e : nat) : positive * nat :=
  match m, e with
  | xO m', S e' => lowest_terms m' e'
  | _, _ => (m, e)
  end.

(** The value [M * 2 ^ E] with the sign [neg]: a zero, an infinity from
    2^1024 on, an integer or a fraction. *)
Definition number (neg : bool) (ME : Z * Z) : json :=
  let (M, E) := ME in
  let signed (z : Z) := if neg then - z else z in
  if M =? 0 then (if neg then JNegZero else JNum 0)
  else if 0 <=? E then
    if 2 ^ 1024 <=? M * 2 ^ E then JInf neg else JNum (signed (M * 2 ^ E))
  else
    match lowest_terms (Z.to_pos M) (Z.to_nat (- E)) with
    | (m, O) => JNum (signed (Z.pos m))
    | (m, S e) => JFrac (signed (Z.pos m)) (Pos.of_succ_nat e)
    end.

(** The Number nearest to an integer other than zero: an infinity from
    2^1024 on. *)
Definition number_value (z : Z) : json :=
  if (2 ^ 1024 <=? Z.abs (round53 z))%Z then JInf (z <? 0)%Z
  else JNum (round53 z).

(** The Number nearest to the decimal with the digits [d], the exponent [x]
    and the sign [neg]. *)
Definition decimal_value (neg : bool) (d : string) (x : Z) : json :=
  let s := digits_value 0 d in
  if s =? 0 then (if neg then JNegZero else JNum 0)
  else if 0 <=? x then number_value ((if neg then - s else s) * 10 ^ x)
  else number neg (nearest s (10 ^ (- x))).

Definition same_number (a b : json) : bool :=
  match a, b with
  | JNum n, JNum n' => n =? n'
  | JFrac m e, JFrac m' e' => (m =? m') && (e =? e')%positive
  | JNegZero, JNegZero => true
  | JInf neg, JInf neg' => Bool.eqb neg neg'
  | _, _ => false
  end.

(** The decimal [s * 10 ^ x] with digits that do not end in a zero. *)
Definition decimal (s x : Z) : string * Z :=
  let (d, z) := strip_zeros (digits s) in (d, x + Z.of_nat z).

(** The [n] with [10 ^ (n - 1) <= a / b < 10 ^ n], for positive [a] and
    [b]. *)
Definition decimal_exponent (a b : Z) : Z :=
  let count (z : Z) := Z.of_nat (String.length (digits z)) in
  if b <=? a then count (a / b)
  else
    let D := count (b / a) in
    if b <=? a * 10 ^ (D - 1) then 2 - D else 1 - D.

(** The two decimals of [k] digits around [a / b], the nearer first, and of
    two equally near the one with the even last digit. *)
Definition candidates (a b n k : Z) : list (string * Z) :=
  let x := n - k in
  let num := a * 10 ^ Z.max (- x) 0 in
  let den := b * 10 ^ Z.max x 0 in
  let lo := num / den in
  let r := num mod den in
  let below := decimal lo x in
  let above := decimal (lo + 1) x in
  if 2 * r <? den then [below; above]
  else if den <? 2 * r then [above; below]
  else if Z.even lo then [below; above] else [above; below].

(** The first decimal that [accept] takes, with [k] digits or more, the
    fewer the better; [exact] when there is none up to [k + fuel - 1]
    digits. *)
Fixpoint shortest (fuel : nat) (k : Z) (accept : string * Z → bool)
  (a b n : Z) (exact : string * Z) : string * Z :=
  match fuel with
  | O => exact
  | S fuel' =>
      match List.find accept (candidates a b n k) with
      | Some c => c
      | None => shortest fuel' (k + 1) accept a b n exact
      end
  end.

Fixpoint first_chars (n : nat) (s : string) : string :=
  match n, s with
  | S n', String c s' => String c (first_chars n' s')
  | _, _ => ""
  end.

Fixpoint skip_chars (n : nat) (s : string) : string :=
  match n, s with
  | S n', String _ s' => skip_chars n' s'
  | _, _ => s
  end.

(** Number::toString on the digits [d] (there are [k]) and the exponent [x]
    of a decimal, with [n = x + k]: the digits and [n - k] zeros when
    [k <= n <= 21]; the digits with a point after the first [n] when
    [0 < n <= 21]; [0.] and [- n] zeros and the digits when [-6 < n <= 0];
    else the first digit, a point and the others if there are any, [e], the
    sign of [n - 1] and its digits. *)
Definition format (c : string * Z) : string :=
  let (d, x) := c in
  let k := Z.of_nat (String.length d) in
  let n := x + k in
  if (k <=? n) && (n <=? 21) then d +:+ zeros (Z.to_nat (n - k))
  else if (0 <? n) && (n <=? 21) then
    first_chars (Z.to_nat n) d +:+ String "." (skip_chars (Z.to_nat n) d)
  else if (- 6 <? n) && (n <=? 0) then
    String "0" (String "." (zeros (Z.to_nat (- n)) +:+ d))
  else
    let mantissa :=
      match d with
      | String c (String c' d') => String c (String "." (String c' d'))
      | _ => d
      end in
    mantissa
    +:+ String "e" (String (if n - 1 <? 0 then "-" else "+")
                      (digits (Z.abs (n - 1)))).

(** Number::toString on a finite Number [neg a / b] other than zero, which
    [v] is: the decimal with the fewest digits that reads back as [v], and
    of those the nearest.  Seventeen digits are enough for every Number;
    [exact] is the decimal that is [a / b]. *)
Definition to_string (v : json) (neg : bool) (a b : Z) (exact : string * Z)
  : string :=
  let accept (c : string * Z) := same_number (decimal_value neg c.1 c.2) v in
  (if neg then "-" else "")
  +:+ format (shortest 17 1 accept a b (decimal_exponent a b) exact).

(** Number::toString on an integer and on a fraction. *)
Definition number_to_string (n : Z) : string :=
  if n =? 0 then "0"
  else to_string (JNum n) (n <? 0) (Z.abs n) 1 (decimal (Z.abs n) 0).

Definition fraction_to_string (m : Z) (e : positive) : string :=
  if m =? 0 then "0"
  else
    to_string (JFrac m e) (m <? 0) (Z.abs m) (2 ^ Z.pos e)
      (decimal (Z.abs m * 5 ^ Z.pos e) (- Z.pos e)).

Local Open Scope string_scope.

(** The indentation of nesting depth [d], two spaces a level. *)
Fixpoint indent (d : nat) : string :=
  match d with
  | O => ""
  | S d' => String " " (String " " (indent d'))
  end.

Section nested.
Variable ser : json → string.
Variable d : nat.

(** What follows the first element of an array opened at depth [d]. *)
Fixpoint ser_elements (l : list json) : string :=
  match l with
  | [] => String LF (indent d +:+ "]")
  | x :: l' =>
      String "," (String LF (indent (S d) +:+ ser x +:+ ser_elements l'))
  end.

Definition ser_member (k : string) (v : json) : string :=
  quote k +:+ String ":" (String " " (ser v)).

(** What follows the first member of an object opened at depth [d]. *)
Fixpoint ser_members (l : list (string * json)) : string :=
  match l with
  | [] => String LF (indent d +:+ "}")
  | (k, v) :: l' =>
      String "," (String LF (indent (S d) +:+ ser_member k v +:+ ser_members l'))
  end.
End nested.

(** SerializeJSONProperty with the gap of two spaces. *)
Fixpoint stringify_at (d : nat) (v : json) : string :=
  match v with
  | JNull => "null"
  | JBool true => "true"
  | JBool false => "false"
  | JNum n => number_to_string n
  | JFrac m e => fraction_to_string m e
  | JNegZero => "0"
  | JInf _ => "null"
  | JStr s => quote s
  | JArr [] => "[]"
  | JArr (x :: l) =>
      String "[" (String LF (indent (S d) +:+ stringify_at (S d) x
        +:+ ser_elements (stringify_at (S d)) d l))
  | JObj [] => "{}"
  | JObj ((k, x) :: l) =>
      String "{" (String LF (indent (S d)
        +:+ ser_member (stringify_at (S d)) k x
        +:+ ser_members (stringify_at (S d)) d l))
  end.

Definition JSON_stringify (v : json) : string := stringify_at 0 v.

(** *** Objects under construction

    [JSON.parse] defines the members of an object one after the other.  A key
    that is already there keeps its place and takes the new value; a new key
    that is an array index (the canonical numeral of an integer below
    2^32 - 1) goes among the indices in ascending order, before every other
    key; any other new key goes last. *)

Definition array_index (k : string) : option N :=
  match NilEmpty.uint_of_string k with
  | Some Nil => None
  | Some (D0 Nil) => Some 0%N
  | Some (D0 _) => None
  | Some d => if (N.of_uint d <? 2 ^ 32 - 1)%N then Some (N.of_uint d) else None
  | None => None
  end.

Fixpoint obj_replace (k : string) (v : json) (o : list (string * json))
  : list (string * json) :=
  match o with
  | [] => []
  | (k', v') :: o' =>
      if String.eqb k k' then (k', v) :: o' else (k', v') :: obj_replace k v o'
  end.

Fixpoint obj_insert_index (n : N) (k : string) (v : json)
  (o : list (string * json)) : list (string * json) :=
  match o with
  | [] => [(k, v)]
  | (k', v') :: o' =>
      match array_index k' with
      | Some m =>
          if (m <? n)%N then (k', v') :: obj_insert_index n k v o'
          else (k, v) :: o
      | None => (k, v) :: o
      end
  end.

Definition obj_set (k : string) (v : json) (o : list (string * json))
  : list (string * json) :=
  match assoc k o with
  | Some _ => obj_replace k v o
  | None =>
      match array_index k with
      | Some n => obj_insert_index n k v o
      | None => o ++ [(k, v)]
      end
  end.

Definition build_object (members : list (string * json))
  : list (string * json) :=
  fold_left (λ o kv, obj_set kv.1 kv.2 o) members [].

(** *** [JSON.parse] *)

Definition is_ws (c : ascii) : bool :=
  Ascii.eqb c " " || Ascii.eqb c HT || Ascii.eqb c LF || Ascii.eqb c CR.

Fixpoint skip_ws (s : string) : string :=
  match s with
  | EmptyString => ""
  | String c s' => if is_ws c then skip_ws s' else s
  end.

Local Open Scope Z_scope.

(** The longest run of digits at the head of the text. *)
Fixpoint read_digits (s : string) : string * string :=
  match s with
  | EmptyString => ("", "")
  | String c s' =>
      if is_digit c then let (d, r) := read_digits s' in (String c d, r)
      else ("", s)
  end.

Definition starts_fraction (s : string) : bool :=
  match s with
  | String c _ => Ascii.eqb c "." || Ascii.eqb c "e" || Ascii.eqb c "E"
  | EmptyString => false
  end.

(** The fraction of a numeral, if it has one: a point and digits, at least
    one. *)
Definition read_fraction (s : string) : option (string * string) :=
  match s with
  | String c s' =>
      if Ascii.eqb c "." then
        let (f, r) := read_digits s' in
        match f with
        | EmptyString => None
        | String _ _ => Some (f, r)
        end
      else Some ("", s)
  | EmptyString => Some ("", s)
  end.

(** The exponent of a numeral, if it has one: [e] or [E], a sign or none,
    and digits, at least one. *)
Definition read_exponent (s : string) : option (Z * string) :=
  match s with
  | String c s' =>
      if Ascii.eqb c "e" || Ascii.eqb c "E" then
        let (neg, s1) :=
          match s' with
          | String c' s'' =>
              if Ascii.eqb c' "-" then (true, s'')
              else if Ascii.eqb c' "+" then (false, s'')
              else (false, s')
          | EmptyString => (false, s')
          end in
        let (d, r) := read_digits s1 in
        match d with
        | EmptyString => None
        | String _ _ =>
            Some (if neg then - digits_value 0 d else digits_value 0 d, r)
        end
      else Some (0, s)
  | EmptyString => Some (0, s)
  end.

(** A numeral without its sign: [0] or digits that do not start with [0],
    then a fraction or none, then an exponent or none.  Its value is the
    Number nearest to the decimal it denotes, with the sign [neg]. *)
Definition read_unsigned (neg : bool) (s : string) : option (json * string) :=
  let (i, s2) := read_digits s in
  match i with
  | EmptyString => None
  | String c i' =>
      if Ascii.eqb c "0" && negb (String.eqb i' "") then None
      else
        '(f, s3) ← read_fraction s2;
        '(X, s4) ← read_exponent s3;
        let (d, z) := strip_zeros (i +:+ f) in
        Some (decimal_value neg d
                (X - Z.of_nat (String.length f) + Z.of_nat z), s4)
  end.

(** A numeral: a minus sign or none, and the rest. *)
Definition read_number (s : string) : option (json * string) :=
  match s with
  | String c s' =>
      if Ascii.eqb c "-" then read_unsigned true s' else read_unsigned false s
  | EmptyString => None
  end.

Local Open Scope string_scope.

Definition hex_val (c : ascii) : option N :=
  let n := N_of_ascii c in
  if ((48 <=? n) && (n <=? 57))%N then Some (n - 48)%N
  else if ((97 <=? n) && (n <=? 102))%N then Some (n - 87)%N
  else if ((65 <=? n) && (n <=? 70))%N then Some (n - 55)%N
  else None.

Definition hex4 (a b c d : ascii) : option N :=
  x ← hex_val a; y ← hex_val b; z ← hex_val c; w ← hex_val d;
  Some (((x * 16 + y) * 16 + z) * 16 + w)%N.

Definition unescape (e : ascii) : option ascii :=
  if Ascii.eqb e dquote then Some dquote
  else if Ascii.eqb e backslash then Some backslash
  else if Ascii.eqb e "/" then Some "/"%char
  else if Ascii.eqb e "b" then Some BS
  else if Ascii.eqb e "f" then Some FF
  else if Ascii.eqb e "n" then Some LF
  else if Ascii.eqb e "r" then Some CR
  else if Ascii.eqb e "t" then Some HT
  else None.

(** The UTF-8 form of a code point. *)
Definition utf8 (n : N) : string :=
  if (n <? 128)%N then String (ascii_of_N n) ""
  else if (n <? 2048)%N then
    String (ascii_of_N (192 + n / 64))
      (String (ascii_of_N (128 + n mod 64)) "")
  else if (n <? 65536)%N then
    String (ascii_of_N (224 + n / 4096))
      (String (ascii_of_N (128 + (n / 64) mod 64))
         (String (ascii_of_N (128 + n mod 64)) ""))
  else
    String (ascii_of_N (240 + n / 262144))
      (String (ascii_of_N (128 + (n / 4096) mod 64))
         (String (ascii_of_N (128 + (n / 64) mod 64))
            (String (ascii_of_N (128 + n mod 64)) ""))).

(** The characters of a string literal, after its opening quote.  A string
    is the UTF-8 form of its text: a [\uXXXX] escape is read as the UTF-8
    form of the code point it names, and the two escapes of a surrogate pair
    as that of the code point of the pair.  A surrogate on its own has no
    UTF-8 form: a literal with one is not read. *)
Fixpoint read_string (s : string) : option (string * string) :=
  match s with
  | EmptyString => None
  | String c s' =>
      if Ascii.eqb c dquote then Some ("", s')
      else if Ascii.eqb c backslash then
        match s' with
        | EmptyString => None
        | String e s'' =>
            if Ascii.eqb e "u" then
              match s'' with
              | String h1 (String h2 (String h3 (String h4 s3))) =>
                  n ← hex4 h1 h2 h3 h4;
                  if (n <? 55296)%N || (57344 <=? n)%N then
                    '(t, r) ← read_string s3; Some (utf8 n +:+ t, r)
                  else if (n <? 56320)%N then
                    match s3 with
                    | String b (String u (String l1 (String l2 (String l3
                        (String l4 s4))))) =>
                        if Ascii.eqb b backslash && Ascii.eqb u "u" then
                          m ← hex4 l1 l2 l3 l4;
                          if (56320 <=? m)%N && (m <? 57344)%N then
                            '(t, r) ← read_string s4;
                            Some (utf8 (65536 + (n - 55296) * 1024
                                        + (m - 56320)) +:+ t, r)
                          else None
                        else None
                    | _ => None
                    end
                  else None
              | _ => None
              end
            else
              ch ← unescape e;
              '(t, r) ← read_string s''; Some (String ch t, r)
        end
      else if (N_of_ascii c <? 32)%N then None
      else '(t, r) ← read_string s'; Some (String c t, r)
  end.

Definition starts_with (c : ascii) (s : string) : option string :=
  match s with
  | String c' r => if Ascii.eqb c' c then Some r else None
  | EmptyString => None
  end.

Fixpoint strip_prefix (p s : string) : option string :=
  match p, s with
  | EmptyString, _ => Some s
  | String a p', String b s' => if Ascii.eqb a b then strip_prefix p' s' else None
  | String _ _, EmptyString => None
  end.

Fixpoint parse_value (fuel : nat) (s : string) : option (json * string) :=
  match fuel with
  | O => None
  | S fuel' =>
      match skip_ws s with
      | EmptyString => None
      | String c r =>
          if Ascii.eqb c dquote then
            '(t, r') ← read_string r; Some (JStr t, r')
          else if Ascii.eqb c "[" then
            match starts_with "]" (skip_ws r) with
            | Some r' => Some (JArr [], r')
            | None => '(l, r') ← parse_elements fuel' r; Some (JArr l, r')
            end
          else if Ascii.eqb c "{" then
            match starts_with "}" (skip_ws r) with
            | Some r' => Some (JObj [], r')
            | None =>
                '(l, r') ← parse_members fuel' r; Some (JObj (build_object l), r')
            end
          else if Ascii.eqb c "n" then r' ← strip_prefix "ull" r; Some (JNull, r')
          else if Ascii.eqb c "t" then r' ← strip_prefix "rue" r; Some (JBool true, r')
          else if Ascii.eqb c "f" then r' ← strip_prefix "alse" r; Some (JBool false, r')
          else read_number (String c r)
      end
  end
with parse_elements (fuel : nat) (s : string) : option (list json * string) :=
  match fuel with
  | O => None
  | S fuel' =>
      '(v, r) ← parse_value fuel' s;
      match skip_ws r with
      | EmptyString => None
      | String c r' =>
          if Ascii.eqb c "," then
            '(l, r'') ← parse_elements fuel' r'; Some (v :: l, r'')
          else if Ascii.eqb c "]" then Some ([v], r')
          else None
      end
  end
with parse_members (fuel : nat) (s : string)
  : option (list (string * json) * string) :=
  match fuel with
  | O => None
  | S fuel' =>
      match skip_ws s with
      | EmptyString => None
      | String c r =>
          if Ascii.eqb c dquote then
            '(k, r1) ← read_string r;
            match starts_with ":" (skip_ws r1) with
            | Some r2 =>
                '(v, r3) ← parse_value fuel' r2;
                match skip_ws r3 with
                | EmptyString => None
                | String c' r4 =>
                    if Ascii.eqb c' "," then
                      '(l, r5) ← parse_members fuel' r4; Some ((k, v) :: l, r5)
                    else if Ascii.eqb c' "}" then Some ([(k, v)], r4)
                    else None
                end
            | None => None
            end
          else None
      end
  end.

(** [JSON.parse]: one value, then nothing but white space. *)
Definition JSON_parse (text : string) : option json :=
  '(v, r) ← parse_value (String.length text) text;
  match skip_ws r with
  | EmptyString => Some v
  | String _ _ => None
  end.

(** *** The values a round trip preserves

    [JSON.stringify] writes an infinity as [null] and the negative zero as
    [0]; every other value is read back as it is.  Besides these two, the
    predicate states the representation invariant of a value in memory: an
    integer is one that Number holds, a fraction is an odd integer within the
    precision of Number over a power of two within its range, and the
    properties of an object are in the order the engine enumerates them, each
    key once. *)

Definition key_before (k k' : string) : bool :=
  negb (String.eqb k k') &&
  match array_index k, array_index k' with
  | Some a, Some b => (a <? b)%N
  | Some _, None => true
  | None, Some _ => false
  | None, None => true
  end.

(** An integer that is a Number: rounding gives it back, and it is below
    2^1024 in magnitude. *)
Definition is_number (n : Z) : bool :=
  (round53 n =? n)%Z && (Z.abs n <? 2 ^ 1024)%Z.

(** A fraction that is a Number: an odd integer below 2^53 in magnitude over
    a power of two that is at most 2^1074. *)
Definition is_fraction (m : Z) (e : positive) : bool :=
  Z.odd m && (Z.abs m <? 2 ^ 53)%Z && (Z.pos e <=? 1074)%Z.

Fixpoint canonical (o : list (string * json)) : bool :=
  match o with
  | [] => true
  | (k, _) :: o' => forallb (λ kv, key_before k kv.1) o' && canonical o'
  end.

Fixpoint wf_json (v : json) : bool :=
  match v with
  | JNull | JBool _ | JStr _ => true
  | JNum n => is_number n
  | JFrac m e => is_fraction m e
  | JNegZero | JInf _ => false
  | JArr l => forallb wf_json l
  | JObj o => canonical o && forallb (λ kv, wf_json kv.2) o
  end.

(** A value in memory, with or without infinities and negative zeros: the
    representation invariant alone. *)
Fixpoint is_value (v : json) : bool :=
  match v with
  | JNum n => is_number n
  | JFrac m e => is_fraction m e
  | JArr l => forallb is_value l
  | JObj o => canonical o && forallb (λ kv, is_value kv.2) o
  | _ => true
  end.

(** The value that the text of [v] denotes: [JSON.stringify] writes an
    infinity as [null] and the negative zero as [0]. *)
Fixpoint written (v : json) : json :=
  match v with
  | JNegZero => JNum 0
  | JInf _ => JNull
  | JArr l => JArr (map written l)
  | JObj o => JObj (map (λ kv, (kv.1, written kv.2)) o)
  | _ => v
  end.

(** No number of the value is an infinity. *)
Fixpoint no_infinity (v : json) : bool :=
  match v with
  | JInf _ => false
  | JArr l => forallb no_infinity l
  | JObj o => forallb (λ kv, no_infinity kv.2) o
  | _ => true
  end.

(** Fuel that [parse_value] needs to read a value back. *)
Fixpoint cost (v : json) : nat :=
  match v with
  | JArr l => S (list_sum (map (λ x, S (cost x)) l))
  | JObj o => S (list_sum (map (λ kv, S (cost kv.2)) o))
  | _ => 1
  end.

(** *** Shapes of text used in the statements about the parser *)

(** A run of digits, and text that does not go on with a digit. *)
Fixpoint all_digits (s : string) : bool :=
  match s with
  | EmptyString => true
  | String c s' => is_digit c && all_digits s'
  end.

Definition digit_free (rest : string) : bool :=
  match rest with
  | EmptyString => true
  | String c _ => negb (is_digit c)
  end.

(** The digits of a decimal as [decimal] gives them: at least one, the first
    and the last not [0]. *)
Definition stripped (d : string) : bool :=
  all_digits d
  && match d with
     | EmptyString => false
     | String c _ => negb (Ascii.eqb c "0")
     end
  && match strip_zeros d with
     | (d', O) => String.eqb d' d
     | _ => false
     end.

(** A number literal starts with a minus sign or a digit. *)
Definition number_start (c : ascii) : bool :=
  Ascii.eqb c "-" || is_digit c.

(** The text after a number literal ends it. *)
Definition ends_number (rest : string) : bool :=
  match rest with
  | EmptyString => true
  | String c _ => negb (is_digit c) && negb (starts_fraction rest)
  end.

(** The text of a value starts with a character that is neither white space
    nor a closing bracket. *)
Definition value_start (s : string) : bool :=
  match s with
  | EmptyString => false
  | String c _ =>
      negb (is_ws c) && negb (Ascii.eqb c "]") && negb (Ascii.eqb c "}")
  end.

(** The text begins, after its white space, with a character that the text
    of a JSON value can begin with: a quote, a bracket, a brace, the first
    letter of [true], [false] or [null], a minus sign or a digit. *)
Definition begins_value (text : string) : bool :=
  match skip_ws text with
  | EmptyString => false
  | String c _ =>
      Ascii.eqb c dquote || Ascii.eqb c "[" || Ascii.eqb c "{"
      || Ascii.eqb c "n" || Ascii.eqb c "t" || Ascii.eqb c "f"
      || number_start c
  end.

(** A value is read back from its text, whatever follows it and at whatever
    depth it was written, by a parser with the fuel of its [cost]. *)
Definition reads_back (v : json) : Prop :=
  ∀ d fuel rest,
    (cost v ≤ fuel)%nat →
    ends_number rest = true →
    parse_value fuel (stringify_at d v +:+ rest) = Some (v, rest).

End Json.

(** ** The server *)

Module Server.
Import Js Json.

(** *** The store *)

(** A record of the collection: [{ id, name, email, role }].  [name], [email]
    and [role] hold whatever value the request body gave them. *)
Record user := User { id : Z; name : json; email : json; role : json }.

Definition set_name (v : json) (u : user) : user :=
  {| id := id u; name := v; email := email u; role := role u |}.
Definition set_email (v : json) (u : user) : user :=
  {| id := id u; name := name u; email := v; role := role u |}.
Definition set_role (v : json) (u : user) : user :=
  {| id := id u; name := name u; email := email u; role := v |}.

(** The object a record is, and the record an object is. *)
Definition encode_user (u : user) : json :=
  JObj [("id", JNum (id u)); ("name", name u); ("email", email u);
        ("role", role u)].

Definition decode_user (v : json) : option user :=
  match v with
  | JObj [(k1, JNum n); (k2, a); (k3, b); (k4, c)] =>
      if String.eqb k1 "id" && String.eqb k2 "name" && String.eqb k3 "email"
         && String.eqb k4 "role"
      then Some (User n a b c) else None
  | _ => None
  end.

Definition encode_users (us : list user) : json := JArr (encode_user <$> us).

Definition decode_users (v : json) : option (list user) :=
  match v with
  | JArr items => mapM decode_user items
  | _ => None
  end.

Definition wf_user (u : user) : bool := wf_json (encode_user u).

(** The record that the text of a record denotes. *)
Definition written_user (u : user) : user :=
  User (id u) (written (name u)) (written (email u)) (written (role u)).

(** *** Requests, responses and effects *)

Record request := Request {
  method : string;
  pathname : string;                (* url.parse (req.url, true).pathname *)
  query_id : option string;         (* ... .query.id; several ids are one
                                       value, joined by commas when compared *)
  authorization : option string;    (* req.headers.authorization *)
  body : json                       (* what getRequestBody resolves to *)
}.

(** The value handed to [res.end], before [JSON.stringify]. *)
Inductive payload : Type :=
  | Empty
  | Error (error : string)
  | One (u : user)
  | All (us : list user)
  | Deleted (message : string) (u : option user).

Inductive effect : Type :=
  | WriteFile (path data : string)
  | WriteHead (status : Z)
  | End_ (p : payload).

(** The array [users], the contents of the file, and the effects performed so
    far. *)
Record world := World {
  users : list user;
  disk : string;
  out : list effect
}.

(** *** The monad of a listener

    A computation ends with a value, with the listener's [return], or with a
    thrown exception. *)
Inductive outcome (A : Type) : Type :=
  | Next (a : A)
  | Return
  | Throw (e : string).
Arguments Next {A} a.
Arguments Return {A}.
Arguments Throw {A} e.

Definition M (A : Type) : Type := world → outcome A * world.

#[export] Instance M_ret : MRet M := λ A a w, (Next a, w).
#[export] Instance M_bind : MBind M := λ A B f m w,
  match m w with
  | (Next a, w') => f a w'
  | (Return, w') => (Return, w')
  | (Throw e, w') => (Throw e, w')
  end.

Definition return_ {A : Type} : M A := λ w, (Return, w).
Definition throw {A : Type} (e : string) : M A := λ w, (Throw e, w).

Definition get_users : M (list user) := λ w, (Next (users w), w).
Definition set_users (us : list user) : M unit :=
  λ w, (Next tt, World us (disk w) (out w)).
Definition perform (e : effect) : M unit :=
  λ w, (Next tt, World (users w) (disk w) (out w ++ [e])).
Definition write_file (path data : string) : M unit :=
  λ w, (Next tt, World (users w) data (out w ++ [WriteFile path data])).

Definition res_writeHead (status : Z) : M unit := perform (WriteHead status).
Definition res_end (p : payload) : M unit := perform (End_ p).

(** *** Constants and helpers of main.js *)

Definition filePath : string := "users.json".
Definition AUTH_TOKEN : string := "my-secret-token".

Definition saveUsers : M unit :=
  us ← get_users;
  write_file filePath (JSON_stringify (encode_users us)).

Definition isAuthenticated (req : request) : bool :=
  match authorization req with
  | Some token => String.eqb token ("Bearer " +:+ AUTH_TOKEN)
  | None => false
  end.

Definition getRequestBody (req : request) : M json := mret (body req).

(** [if (query.id)]: the parameter is there and is not the empty string. *)
Definition given (q : option string) : option string :=
  match q with
  | Some s => if String.eqb s "" then None else Some s
  | None => None
  end.

(** [body.k]: a read of a property of the request body. *)
Definition prop (b : json) (k : string) : M (option json) :=
  match get_prop b k with
  | Some o => mret o
  | None => throw "TypeError"
  end.

(** The value of a read when it is truthy. *)
Definition truthy_value (o : option json) : option json :=
  match o with
  | Some v => if truthy v then Some v else None
  | None => None
  end.

(** [users[i].f = v] *)
Definition assign (i : nat) (f : json → user → user) (v : json) : M unit :=
  us ← get_users;
  match us !! i with
  | Some u => set_users (<[i := f v u]> us)
  | None => throw "TypeError"
  end.

(** [users.splice (i, 1)[0]] *)
Definition splice1 (i : nat) : M (option user) :=
  us ← get_users;
  set_users (delete i us);;
  mret (us !! i).

(** [users.length > 0 ? Math.max (...users.map (u => u.id)) + 1 : 1] *)
Definition next_id (us : list user) : Z :=
  match id <$> us with
  | [] => 1
  | x :: xs => js_add (Math_max x xs) 1
  end.

(** StringToNumber of the engine, as far as it matters for a comparison with
    an integer: [Some m] when the string denotes the integer [m], [None] when
    it denotes a fraction, an infinity or NaN. *)
Class Engine := ToNumber : string → option Z.

Section listener.
Context `{engine : Engine}.

(** [u.id == q], a Number against a string. *)
Definition id_is (q : string) (u : user) : Prop := ToNumber q = Some (id u).

#[export] Instance id_is_dec (q : string) (u : user) : Decision (id_is q u).
Proof. unfold id_is. apply _. Defined.

(** [users.find (u => u.id == q)] and [users.findIndex (u => u.id == q)] *)
Definition find (q : string) (us : list user) : option user :=
  snd <$> list_find (id_is q) us.
Definition findIndex (q : string) (us : list user) : option nat :=
  fst <$> list_find (id_is q) us.

Definition fail (status : Z) (msg : string) : M unit :=
  res_writeHead status;; res_end (Error msg).

(** The request listener, after the response headers are set. *)
Definition listener (req : request) : M unit :=
  if String.eqb (method req) "OPTIONS" then
    res_writeHead 200;; res_end Empty;; return_
  else if negb (isAuthenticated req) then
    fail 401 "Unauthorized. Use Bearer token.";; return_
  else if String.eqb (pathname req) "/users" then
    if String.eqb (method req) "GET" then
      match given (query_id req) with
      | Some q =>
          us ← get_users;
          match find q us with
          | Some user => res_writeHead 200;; res_end (One user)
          | None => fail 404 "User not found"
          end
      | None =>
          us ← get_users;
          res_writeHead 200;; res_end (All us)
      end
    else if String.eqb (method req) "POST" then
      b ← getRequestBody req;
      (* if (!body.name || !body.email), the second read only after the
         first is truthy *)
      n ← prop b "name";
      match truthy_value n with
      | None => fail 400 "Name and email are required";; return_
      | Some n =>
          e ← prop b "email";
          match truthy_value e with
          | None => fail 400 "Name and email are required";; return_
          | Some e =>
              us ← get_users;
              r ← prop b "role";
              (* role: body.role || 'viewer' *)
              let newUser :=
                {| id := next_id us;
                   name := n;
                   email := e;
                   role := default (JStr "viewer") (truthy_value r) |} in
              set_users (us ++ [newUser]);;
              saveUsers;;
              res_writeHead 201;;
              res_end (One newUser)
          end
      end
    else if String.eqb (method req) "PUT" then
      match given (query_id req) with
      | None => fail 400 "User ID is required";; return_
      | Some q =>
          us ← get_users;
          match findIndex q us with
          | None => fail 404 "User not found";; return_
          | Some userIndex =>
              b ← getRequestBody req;
              (* if (body.name) users[userIndex].name = body.name; and so on *)
              n ← prop b "name";
              from_option (assign userIndex set_name) (mret tt) (truthy_value n);;
              e ← prop b "email";
              from_option (assign userIndex set_email) (mret tt) (truthy_value e);;
              r ← prop b "role";
              from_option (assign userIndex set_role) (mret tt) (truthy_value r);;
              saveUsers;;
              res_writeHead 200;;
              us' ← get_users;
              res_end (from_option One Empty (us' !! userIndex))
          end
      end
    else if String.eqb (method req) "DELETE" then
      match given (query_id req) with
      | None => fail 400 "User ID is required";; return_
      | Some q =>
          us ← get_users;
          match findIndex q us with
          | None => fail 404 "User not found";; return_
          | Some userIndex =>
              deletedUser ← splice1 userIndex;
              saveUsers;;
              res_writeHead 200;;
              res_end (Deleted "User deleted" deletedUser)
          end
      end
    else fail 405 "Method not allowed"
  else fail 404 "Route not found".

(** One request against the store: the world afterwards holds the effects of
    this request alone. *)
Definition handle (req : request) (w : world) : outcome unit * world :=
  listener req (World (users w) (disk w) []).

Definition after (req : request) (w : world) : world := (handle req w).2.

(** The requests of a list, one after the other. *)
Definition run (reqs : list request) (w : world) : world :=
  fold_left (λ w req, after req w) reqs w.

End listener.

(** The status and the payload of the response among the effects. *)
Fixpoint response (es : list effect) : option (Z * payload) :=
  match es with
  | [] => None
  | WriteHead status :: End_ p :: _ => Some (status, p)
  | _ :: es' => response es'
  end.

(** What was written to the file, in order. *)
Definition writes (es : list effect) : list string :=
  omap (λ e, match e with WriteFile _ data => Some data | _ => None end) es.

(** The world after a request that was answered without touching the
    store. *)
Definition answered (w : world) (status : Z) (p : payload) : world :=
  World (users w) (disk w) [WriteHead status; End_ p].

(** The world after a request that left the collection [us], rewrote the file
    with all of it, and then answered. *)
Definition saved (us : list user) (status : Z) (p : payload) : world :=
  let data := JSON_stringify (encode_users us) in
  World us data [WriteFile filePath data; WriteHead status; End_ p].

(** The record [u] after the three guarded assignments of PUT with the
    body [b]. *)
Definition updated (b : json) (u : user) : user :=
  {| id := id u;
     name := default (name u) (truthy_value (own_prop b "name"));
     email := default (email u) (truthy_value (own_prop b "email"));
     role := default (role u) (truthy_value (own_prop b "role")) |}.

(** The record POST builds from the body [b] for the collection [us], once
    [name] and [email] are truthy. *)
Definition created (b : json) (us : list user) : option user :=
  n ← truthy_value (own_prop b "name");
  e ← truthy_value (own_prop b "email");
  Some {| id := next_id us; name := n; email := e;
          role := default (JStr "viewer") (truthy_value (own_prop b "role")) |}.

(** What a request may do to the ids of the collection, position by
    position: nothing, one more at the end, or one taken out. *)
Definition id_frame (us us' : list user) : Prop :=
  id <$> us' = id <$> us
  ∨ (∃ n, id <$> us' = (id <$> us) ++ [n])
  ∨ (∃ i, id <$> us' = delete i (id <$> us)).

(** No id of the collection is below -2^53, and none can pass 2^53 in [k]
    more requests. *)
Definition within (k : Z) (us : list user) : Prop :=
  k ≤ 2 ^ 53 ∧ Forall (λ u, - 2 ^ 53 ≤ id u ∧ id u + k ≤ 2 ^ 53) us.

(** The ids the requests of a list assign, in order. *)
Fixpoint assigned `{Engine} (reqs : list request) (w : world) : list Z :=
  match reqs with
  | [] => []
  | req :: reqs' =>
      match response (out (after req w)) with
      | Some (status, One u) =>
          if status =? 201 then id u :: assigned reqs' (after req w)
          else assigned reqs' (after req w)
      | _ => assigned reqs' (after req w)
      end
  end.

(** *** Start-up

    The file is read, or created with [[]] when it is not there, and parsed.
    [None]: [JSON.parse] throws and the process ends, or the file holds
    something else than an array of records [{ id, name, email, role }] with
    an integer [id]: line 42 keeps whatever [JSON.parse] returns, and a
    collection of another shape is outside this model. *)
Definition startup (file : option string) : option world :=
  let defaultData := JSON_stringify (JArr []) in
  let '(localFile, es) :=
    match file with
    | Some text => (text, [])
    | None => (defaultData, [WriteFile filePath defaultData])
    end in
  v ← JSON_parse localFile;
  us ← decode_users v;
  Some (World us localFile es).

(** *** The request body

    [getRequestBody] appends the chunks of the request, each as
    [chunk.toString ()] gives it, to the empty string; when the request ends
    it resolves with [JSON.parse] of the text, or with [{}] when that
    throws. *)
Definition accumulate (chunks : list string) : string :=
  fold_left String.append chunks "".

Definition resolve (chunks : list string) : json :=
  default (JObj []) (JSON_parse (accumulate chunks)).

(** The request [req] with the body [b], with the body that arrives in
    [chunks], and with the id parameter [q]. *)
Definition with_body (b : json) (req : request) : request :=
  Request (method req) (pathname req) (query_id req) (authorization req) b.

Definition with_query (q : option string) (req : request) : request :=
  Request (method req) (pathname req) q (authorization req) (body req).

Definition arriving (chunks : list string) (req : request) : request :=
  with_body (resolve chunks) req.

(** *** The file and the collection *)

(** The file holds the serialization of the collection. *)
Definition synced (w : world) : Prop :=
  disk w = JSON_stringify (encode_users (users w)).

(** A start from the file as it is gives the collection as it is. *)
Definition reloads (w : world) : Prop :=
  ∃ w', startup (Some (disk w)) = Some w' ∧ users w' = users w.

(** The numbers of a list grow from each one to the next. *)
Definition increasing (l : list Z) : Prop :=
  ∀ i j x y, l !! i = Some x → l !! j = Some y → (i < j)%nat → x < y.

(** The statuses the listener answers with. *)
Definition statuses : list Z := [200; 201; 400; 401; 404; 405].

End Server.

(** ** Sample requests and stores *)

Module Sample.
Import Js Json Server.

(** StringToNumber on a string of decimal digits.  [None] is right for a
    string that is not a numeral; the other forms of numeral (a sign, a
    fraction, an exponent, a radix prefix, white space around) are not part of
    this instance. *)
#[export] Instance digits : Engine := λ s,
  match NilEmpty.uint_of_string s with
  | Some Nil => Some 0
  | Some d => Some (round53 (Z.of_uint d))
  | None => None
  end.

Definition bearer : option string := Some "Bearer my-secret-token".

Definition post (b : json) : request := Request "POST" "/users" None bearer b.
Definition put (q : string) (b : json) : request :=
  Request "PUT" "/users" (Some q) bearer b.
Definition delete_ (q : string) : request :=
  Request "DELETE" "/users" (Some q) bearer (JObj []).
Definition get_all : request := Request "GET" "/users" None bearer (JObj []).
Definition options : request := Request "OPTIONS" "/users" None None (JObj []).

(** A store whose file is in step with its collection. *)
Definition store (us : list user) : world :=
  World us (JSON_stringify (encode_users us)) [].

Definition ana : user := User 1 (JStr "Ana") (JStr "a@x.com") (JStr "viewer").
Definition bo : user := User 2 (JStr "Bo") (JStr "b@x.com") (JStr "admin").

Definition ana_body : json :=
  JObj [("name", JStr "Ana"); ("email", JStr "a@x.com")].

(** A record whose id is 2^53. *)
Definition last : user :=
  User 9007199254740992 (JStr "Zed") (JStr "z@x.com") (JStr "viewer").

(** A body whose [name] is a number beyond the range of Number, such as the
    literal [1e999]. *)
Definition overflow_body : json :=
  JObj [("name", JInf false); ("email", JStr "o@x.com")].

(** A body whose [name] holds the negative zero, as the literal [[-0]]
    gives it. *)
Definition negative_zero_body : json :=
  JObj [("name", JArr [JNegZero]); ("email", JStr "z@x.com")].

(** A record whose [email] holds numbers of every kind that is written back:
    1.5, 0.1, -0.625, 10^21, 2^60 and 5e-324. *)
Definition measures : user :=
  User 3 (JStr "Cy")
    (JArr [JFrac 3 1; JFrac 3602879701896397 55; JFrac (-5) 3;
           JNum (10 ^ 21); JNum (2 ^ 60); JFrac 1 1074])
    (JStr "viewer").

(** The literal of 10^n. *)
Definition power_of_ten (n : nat) : string :=
  String "1" (String.concat "" (replicate n "0")).

End Sample.

(** * Properties *)

(** ** Reading back what [JSON.stringify] writes *)

Module JsonFacts.
Import Js Json.

#[local] Arguments String.append !_ _ : simpl nomatch.

Lemma append_assoc (a b c : string) : (a +:+ b) +:+ c = a +:+ (b +:+ c).
Proof. induction a as [|x a IH]; simpl; [done | by rewrite IH]. Qed.

Lemma length_append (a b : string) :
  String.length (a +:+ b) = (String.length a + String.length b)%nat.
Proof. induction a as [|x a IH]; simpl; [done | by rewrite IH]. Qed.

Lemma skip_ws_indent (d : nat) (s : string) :
  skip_ws (indent d +:+ s) = skip_ws s.
Proof. induction d as [|d IH]; simpl; [done | exact IH]. Qed.

Lemma skip_ws_idem (s : string) : skip_ws (skip_ws s) = skip_ws s.
Proof.
  induction s as [|c s IH]; simpl; [done |].
  destruct (is_ws c) eqn:Hc; [exact IH | simpl; by rewrite Hc].
Qed.

Lemma parse_value_skip_ws (fuel : nat) (s : string) :
  parse_value fuel (skip_ws s) = parse_value fuel s.
Proof. destruct fuel; simpl; [done | by rewrite skip_ws_idem]. Qed.

Lemma parse_elements_skip_ws (fuel : nat) (s : string) :
  parse_elements fuel (skip_ws s) = parse_elements fuel s.
Proof. destruct fuel; simpl; [done | by rewrite parse_value_skip_ws]. Qed.

Lemma parse_members_skip_ws (fuel : nat) (s : string) :
  parse_members fuel (skip_ws s) = parse_members fuel s.
Proof. destruct fuel; simpl; [done | by rewrite skip_ws_idem]. Qed.

(** *** Numbers *)

Lemma append_empty_r (s : string) : s +:+ "" = s.
Proof. induction s as [|c s IH]; simpl; [done | by rewrite IH]. Qed.

Lemma round53_exact (n : Z) : Z.abs n ≤ 2 ^ 53 → round53 n = n.
Proof.
  intros Hn. unfold round53.
  destruct (Z.leb_spec (Z.log2 (Z.abs n) - 52) 0) as [|Hk]; [done |].
  assert (Hlog : Z.log2 (Z.abs n) = 53).
  { assert (Z.log2 (Z.abs n) ≤ Z.log2 (2 ^ 53)) by (by apply Z.log2_le_mono).
    rewrite Z.log2_pow2 in H by lia. lia. }
  assert (Habs : Z.abs n = 2 ^ 53).
  { assert (0 < Z.abs n).
    { destruct (Z.lt_ge_cases 0 (Z.abs n)) as [|Hle]; [done |].
      rewrite Z.log2_nonpos in Hlog by lia. lia. }
    pose proof (Z.log2_spec (Z.abs n) H) as [Hlo _].
    rewrite Hlog in Hlo. lia. }
  rewrite Hlog, Habs.
  destruct n as [|p|p]; simpl in Habs; [done | |];
    injection Habs as ->; reflexivity.
Qed.

Lemma to_uint_head (p : positive) (d : uint) : Pos.to_uint p ≠ D0 d.
Proof.
  intros Hp.
  pose proof (DecimalPos.Unsigned.to_of (Pos.to_uint p)) as Hnorm.
  rewrite DecimalPos.Unsigned.of_to in Hnorm.
  change (N.to_uint (N.pos p)) with (Pos.to_uint p) in Hnorm.
  rewrite Hp, DecimalFacts.unorm_D0 in Hnorm.
  unfold unorm in Hnorm.
  destruct (nzhead d) eqn:Hd; try discriminate Hnorm.
  - injection Hnorm as ->. by apply (DecimalPos.Unsigned.to_uint_nonzero p).
  - by apply DecimalFacts.nzhead_nonzero in Hd.
Qed.

(** *** Runs of digits *)

Lemma all_digits_app (a b : string) :
  all_digits (a +:+ b) = all_digits a && all_digits b.
Proof.
  induction a as [|c a IH]; simpl; [done |]. by rewrite IH, andb_assoc.
Qed.

Lemma all_digits_zeros (n : nat) : all_digits (zeros n) = true.
Proof. induction n as [|n IH]; [done | exact IH]. Qed.

Lemma all_digits_string_of_uint (d : uint) :
  all_digits (NilEmpty.string_of_uint d) = true.
Proof. induction d; simpl; done. Qed.

Lemma all_digits_digits (z : Z) : all_digits (digits z) = true.
Proof. apply all_digits_string_of_uint. Qed.

Lemma read_digits_app (d rest : string) :
  all_digits d = true →
  digit_free rest = true →
  read_digits (d +:+ rest) = (d, rest).
Proof.
  intros Hd Hrest. induction d as [|c d IH]; simpl.
  - destruct rest as [|c rest]; [done |]. simpl in Hrest |- *.
    apply negb_true_iff in Hrest. by rewrite Hrest.
  - simpl in Hd. apply andb_true_iff in Hd as [Hc Hd].
    by rewrite Hc, (IH Hd).
Qed.

Lemma digits_value_app (acc : Z) (a b : string) :
  digits_value acc (a +:+ b) = digits_value (digits_value acc a) b.
Proof. revert acc. induction a as [|c a IH]; intros acc; simpl; done. Qed.

Lemma digits_value_zeros (acc : Z) (n : nat) :
  digits_value acc (zeros n) = acc * 10 ^ Z.of_nat n.
Proof.
  revert acc. induction n as [|n IH]; intros acc.
  - simpl. lia.
  - cbn [zeros digits_value]. rewrite IH, Nat2Z.inj_succ, Z.pow_succ_r by lia.
    change (Z.of_N (N_of_ascii "0") - 48) with 0. lia.
Qed.

Lemma digits_value_acc (d : uint) (acc : positive) :
  digits_value (Z.pos acc) (NilEmpty.string_of_uint d)
  = Z.pos (Pos.of_uint_acc d acc).
Proof.
  revert acc. induction d; intros acc; [done | ..];
    cbn [NilEmpty.string_of_uint digits_value Pos.of_uint_acc];
    rewrite <- IHd; f_equal; cbn; lia.
Qed.

Lemma digits_value_of_uint (d : uint) :
  digits_value 0 (NilEmpty.string_of_uint d) = Z.of_N (N.of_uint d).
Proof.
  induction d; [done | exact IHd | ..];
    cbn [NilEmpty.string_of_uint digits_value N.of_uint Pos.of_uint];
    apply (digits_value_acc d).
Qed.

Lemma digits_value_digits (z : Z) : 0 ≤ z → digits_value 0 (digits z) = z.
Proof.
  intros Hz. unfold digits.
  rewrite digits_value_of_uint, DecimalN.Unsigned.of_to. lia.
Qed.

Lemma digits_head (z : Z) :
  0 < z → ∃ c t, digits z = String c t ∧ Ascii.eqb c "0" = false.
Proof.
  intros Hz. unfold digits. destruct z as [|p|p]; try lia.
  change (N.to_uint (Z.to_N (Z.pos p))) with (Pos.to_uint p).
  pose proof (to_uint_head p) as Hhead.
  pose proof (DecimalPos.Unsigned.to_uint_nonnil p) as Hnil.
  destruct (Pos.to_uint p) as [|d|d|d|d|d|d|d|d|d|d]; try done;
    try (by eexists _, _).
  by destruct (Hhead d).
Qed.

(** *** Zeros at the end *)

Lemma strip_zeros_cons (c : ascii) (s : string) :
  strip_zeros (String c s)
  = let (d, z) := strip_zeros s in
    match d with
    | EmptyString => if Ascii.eqb c "0" then ("", S z) else (String c "", z)
    | String _ _ => (String c d, z)
    end.
Proof. done. Qed.

Lemma strip_zeros_eq (s d : string) (z : nat) :
  strip_zeros s = (d, z) → s = d +:+ zeros z.
Proof.
  revert d z. induction s as [|c s IH]; intros d z; simpl.
  { by intros [= <- <-]. }
  destruct (strip_zeros s) as [d' z'] eqn:Hs. specialize (IH _ _ eq_refl).
  destruct d' as [|c' d'].
  - destruct (Ascii.eqb_spec c "0") as [-> |_]; intros [= <- <-];
      by rewrite IH.
  - intros [= <- <-]. by rewrite IH.
Qed.

Lemma strip_zeros_idem (s d : string) (z : nat) :
  strip_zeros s = (d, z) → strip_zeros d = (d, O).
Proof.
  revert d z. induction s as [|c s IH]; intros d z; simpl.
  { by intros [= <- <-]. }
  destruct (strip_zeros s) as [d' z'] eqn:Hs. specialize (IH _ _ eq_refl).
  destruct d' as [|c' d'].
  - destruct (Ascii.eqb_spec c "0") as [-> |Hc]; intros [= <- <-]; [done |].
    simpl. apply Ascii.eqb_neq in Hc. by rewrite Hc.
  - intros [= <- <-]. by rewrite strip_zeros_cons, IH.
Qed.

Lemma strip_zeros_prefix (p d : string) :
  d ≠ "" → strip_zeros d = (d, O) → strip_zeros (p +:+ d) = (p +:+ d, O).
Proof.
  intros Hd Hs. induction p as [|c p IH]; [done |].
  cbn [String.append]. rewrite strip_zeros_cons, IH.
  destruct (p +:+ d) eqn:Hp; [| done].
  destruct p; [done | discriminate].
Qed.

Lemma strip_zeros_zeros (n : nat) : strip_zeros (zeros n) = ("", n).
Proof.
  induction n as [|n IH]; [done |]. cbn [zeros].
  by rewrite strip_zeros_cons, IH.
Qed.

Lemma strip_zeros_app_zeros (d : string) (n : nat) :
  d ≠ "" → strip_zeros d = (d, O) → strip_zeros (d +:+ zeros n) = (d, n).
Proof.
  induction d as [|c d IH]; [done |]. intros _.
  cbn [String.append]. rewrite !strip_zeros_cons.
  destruct d as [|c' d].
  - cbn [String.append]. rewrite strip_zeros_zeros. cbn [strip_zeros].
    destruct (Ascii.eqb c "0"); [discriminate | done].
  - destruct (strip_zeros (String c' d)) as [d' z'] eqn:Hs.
    destruct d' as [|c'' d'].
    { destruct (Ascii.eqb c "0"); intros [=]. }
    intros [= -> -> ->]. by rewrite IH.
Qed.

Lemma stripped_spec (d : string) :
  stripped d = true
  ↔ all_digits d = true
    ∧ (∃ c t, d = String c t ∧ Ascii.eqb c "0" = false)
    ∧ strip_zeros d = (d, O).
Proof.
  unfold stripped. rewrite !andb_true_iff. split.
  - intros [[Hall Hhead] Hstrip]. split_and!; [done | |].
    + destruct d as [|c t]; [done |]. apply negb_true_iff in Hhead. eauto.
    + destruct (strip_zeros d) as [d' [|z]]; [| done].
      by apply String.eqb_eq in Hstrip as ->.
  - intros (Hall & (c & t & -> & Hc) & Hstrip). split_and!; [done | |].
    + by rewrite Hc.
    + rewrite Hstrip. apply String.eqb_refl.
Qed.

(** The digits of [decimal], when there are any. *)
Lemma decimal_stripped (s x : Z) (d : string) (x' : Z) :
  decimal s x = (d, x') → d ≠ "" → stripped d = true.
Proof.
  unfold decimal. destruct (strip_zeros (digits s)) as [d' z] eqn:Hs.
  intros [= <- <-] Hd. apply stripped_spec.
  pose proof (strip_zeros_eq _ _ _ Hs) as Heq.
  pose proof (all_digits_digits s) as Hall.
  rewrite Heq, all_digits_app in Hall. apply andb_true_iff in Hall as [Hall _].
  split_and!; [done | | by eapply strip_zeros_idem].
  destruct (Z.lt_ge_cases 0 s) as [Hpos|Hneg].
  - destruct (digits_head s Hpos) as (c & t & Hdigits & Hc).
    rewrite Hdigits in Heq. destruct d' as [|c' t']; [done |].
    injection Heq as <- _. eauto.
  - exfalso. assert (Hz : Z.to_N s = 0%N) by lia.
    unfold digits in Hs. rewrite Hz in Hs. cbn in Hs. by injection Hs as <-.
Qed.

Lemma decimal_digits_value (s x : Z) (d : string) (x' : Z) :
  0 ≤ s → decimal s x = (d, x') →
  s = digits_value 0 d * 10 ^ (x' - x) ∧ x ≤ x'.
Proof.
  unfold decimal. destruct (strip_zeros (digits s)) as [d' z] eqn:Hs.
  intros Hpos [= <- <-]. split; [| lia].
  rewrite <- (digits_value_digits s Hpos) at 1.
  rewrite (strip_zeros_eq _ _ _ Hs), digits_value_app, digits_value_zeros.
  f_equal. f_equal. lia.
Qed.

(** *** The parts of a numeral *)

Lemma first_skip_chars (n : nat) (d : string) :
  first_chars n d +:+ skip_chars n d = d.
Proof.
  revert d. induction n as [|n IH]; intros [|c d]; simpl; try done.
  by rewrite IH.
Qed.

Lemma length_skip_chars (n : nat) (d : string) :
  String.length (skip_chars n d) = (String.length d - n)%nat.
Proof. revert d. induction n as [|n IH]; intros [|c d]; simpl; done. Qed.

Lemma all_digits_first_chars (n : nat) (d : string) :
  all_digits d = true → all_digits (first_chars n d) = true.
Proof.
  revert d. induction n as [|n IH]; intros [|c d]; simpl; try done.
  intros [Hc Hd]%andb_true_iff. by rewrite Hc, IH.
Qed.

Lemma all_digits_skip_chars (n : nat) (d : string) :
  all_digits d = true → all_digits (skip_chars n d) = true.
Proof.
  revert d. induction n as [|n IH]; intros [|c d]; simpl; try done.
  intros [Hc Hd]%andb_true_iff. by apply IH.
Qed.

Lemma ends_number_spec (rest : string) :
  ends_number rest = true
  ↔ digit_free rest = true ∧ starts_fraction rest = false.
Proof.
  destruct rest as [|c rest]; [done |]. cbn [ends_number digit_free].
  by rewrite andb_true_iff, (negb_true_iff (starts_fraction _)).
Qed.

Lemma read_fraction_none (tail : string) :
  match tail with String c _ => Ascii.eqb c "." | EmptyString => false end
  = false →
  read_fraction tail = Some ("", tail).
Proof. destruct tail as [|c tail]; [done |]. simpl. by intros ->. Qed.

Lemma read_fraction_some (f tail : string) :
  all_digits f = true → f ≠ "" → digit_free tail = true →
  read_fraction (String "." (f +:+ tail)) = Some (f, tail).
Proof.
  intros Hf Hne Htail. cbn [read_fraction Ascii.eqb Bool.eqb].
  rewrite (read_digits_app f tail Hf Htail). by destruct f.
Qed.

Lemma read_exponent_none (rest : string) :
  starts_fraction rest = false → read_exponent rest = Some (0, rest).
Proof.
  destruct rest as [|c rest]; [done |]. simpl.
  intros [[_ He]%orb_false_iff HE]%orb_false_iff. by rewrite He, HE.
Qed.

Lemma digits_nonempty (z : Z) : digits z ≠ "".
Proof.
  unfold digits. destruct (Z.to_N z) as [|p]; [done |].
  pose proof (DecimalPos.Unsigned.to_uint_nonnil p) as Hnil.
  change (N.to_uint (N.pos p)) with (Pos.to_uint p).
  by destruct (Pos.to_uint p).
Qed.

Lemma read_exponent_digits (e : Z) (rest : string) :
  digit_free rest = true →
  read_exponent
    (String "e" (String (if e <? 0 then "-" else "+")
                   (digits (Z.abs e) +:+ rest)))
  = Some (e, rest).
Proof.
  intros Hrest. cbn [read_exponent Ascii.eqb Bool.eqb orb].
  assert (Hread : read_digits (digits (Z.abs e) +:+ rest)
                  = (digits (Z.abs e), rest))
    by (apply read_digits_app; [apply all_digits_digits | done]).
  pose proof (digits_nonempty (Z.abs e)) as Hne.
  pose proof (digits_value_digits (Z.abs e) (Z.abs_nonneg e)) as Hval.
  destruct (Z.ltb_spec e 0); cbn [Ascii.eqb Bool.eqb]; rewrite Hread;
    destruct (digits (Z.abs e)); try done; rewrite Hval;
    do 2 f_equal; lia.
Qed.

Lemma decimal_value_ext (neg : bool) (d d' : string) (x : Z) :
  digits_value 0 d = digits_value 0 d' →
  decimal_value neg d x = decimal_value neg d' x.
Proof. unfold decimal_value. by intros ->. Qed.

(** A numeral read part by part: the digits [i] before the point, the
    digits [f] after it, if any, and what follows. *)
Lemma read_unsigned_parts (neg : bool) (i f tail rest : string) (X : Z) :
  all_digits i = true →
  (∃ c t, i = String c t ∧ (Ascii.eqb c "0" = true → t = "")) →
  all_digits f = true →
  digit_free tail = true →
  (f = "" →
   match tail with String c _ => Ascii.eqb c "." | EmptyString => false end
   = false) →
  read_exponent tail = Some (X, rest) →
  read_unsigned neg
    (i +:+ (match f with EmptyString => "" | String _ _ => String "." f end)
       +:+ tail)
  = let (d, z) := strip_zeros (i +:+ f) in
    Some (decimal_value neg d
            (X - Z.of_nat (String.length f) + Z.of_nat z), rest).
Proof.
  intros Hi (c & t & -> & Hzero) Hf Htail Hdot Hexp. unfold read_unsigned.
  assert (Hfrac :
    read_digits (String c t
                 +:+ (match f with
                      | EmptyString => ""
                      | String _ _ => String "." f
                      end) +:+ tail)
    = (String c t,
       (match f with EmptyString => "" | String _ _ => String "." f end)
       +:+ tail)).
  { apply read_digits_app; [done |]. destruct f; [done | done]. }
  rewrite Hfrac.
  assert (Hlead : Ascii.eqb c "0" && negb (String.eqb t "") = false).
  { destruct (Ascii.eqb c "0"); [| done]. by rewrite (Hzero eq_refl). }
  rewrite Hlead.
  assert (Hread :
    read_fraction
      ((match f with EmptyString => "" | String _ _ => String "." f end)
       +:+ tail) = Some (f, tail)).
  { destruct f as [|c' f'].
    - apply read_fraction_none, Hdot. done.
    - by apply (read_fraction_some (String c' f') tail). }
  rewrite Hread. cbn [mbind option_bind]. rewrite Hexp. done.
Qed.

Lemma stripped_digit_head (d : string) :
  stripped d = true →
  ∃ c t, d = String c t ∧ Ascii.eqb c "0" = false ∧ is_digit c = true
         ∧ all_digits t = true.
Proof.
  intros (Hall & (c & t & -> & Hc) & _)%stripped_spec.
  simpl in Hall. apply andb_true_iff in Hall as [? ?]. eauto 10.
Qed.

(** What [format] writes for a decimal is read as that decimal. *)
Lemma read_unsigned_format (neg : bool) (d : string) (x : Z) (rest : string) :
  stripped d = true →
  ends_number rest = true →
  read_unsigned neg (format (d, x) +:+ rest)
  = Some (decimal_value neg d x, rest).
Proof.
  intros Hd [Hfree Hfrac]%ends_number_spec.
  pose proof Hd as (Hall & _ & Hstrip)%stripped_spec.
  destruct (stripped_digit_head d Hd) as (c & t & Heq & Hc & Hdigit & Ht).
  assert (Hne : d ≠ "") by (by rewrite Heq).
  assert (Hdot : match rest with
                 | String c _ => Ascii.eqb c "."
                 | EmptyString => false
                 end = false).
  { destruct rest as [|c' rest']; [done |]. simpl in Hfrac.
    by apply orb_false_iff in Hfrac as [[? _]%orb_false_iff _]. }
  pose proof (read_exponent_none rest Hfrac) as Hexp.
  unfold format.
  set (k := Z.of_nat (String.length d)). set (n := x + k).
  assert (Hk : 0 < k) by (subst k; rewrite Heq; simpl; lia).
  destruct ((k <=? n) && (n <=? 21)) eqn:H1.
  { (* the digits and zeros *)
    apply andb_true_iff in H1 as [Hkn%Z.leb_le _].
    pose proof (read_unsigned_parts neg (d +:+ zeros (Z.to_nat (n - k))) ""
                  rest rest 0) as Hparts.
    cbn match in Hparts. change ("" +:+ rest) with rest in Hparts.
    rewrite append_empty_r in Hparts.
    rewrite Hparts; [| | | done | done | done | done].
    - rewrite strip_zeros_app_zeros by done. do 3 f_equal.
      cbn [String.length]. subst n. lia.
    - by rewrite all_digits_app, Hall, all_digits_zeros.
    - rewrite Heq. cbn [String.append]. eexists _, _. split; [done |].
      by rewrite Hc. }
  destruct ((0 <? n) && (n <=? 21)) eqn:H2.
  { (* a point inside the digits *)
    apply andb_true_iff in H2 as [Hn%Z.ltb_lt Hn21%Z.leb_le].
    apply andb_false_iff in H1 as [Hkn%Z.leb_gt | H1%Z.leb_gt]; [| lia].
    set (i := first_chars (Z.to_nat n) d).
    set (f := skip_chars (Z.to_nat n) d).
    assert (Hlen : String.length f = (String.length d - Z.to_nat n)%nat)
      by apply length_skip_chars.
    assert (Hf : ∃ c' f', f = String c' f').
    { destruct f; [simpl in Hlen; lia | eauto]. }
    destruct Hf as (c' & f' & Hf).
    pose proof (read_unsigned_parts neg i f rest rest 0) as Hparts.
    rewrite Hf in Hparts. rewrite <- Hf in Hparts.
    rewrite append_assoc.
    rewrite Hparts; [| | | | done | by rewrite Hf | done].
    - subst i f. rewrite first_skip_chars, Hstrip. do 3 f_equal.
      rewrite length_skip_chars. subst n k. lia.
    - by apply all_digits_first_chars.
    - subst i. rewrite Heq.
      destruct (Z.to_nat n) as [|n'] eqn:Hn'; [lia |]. cbn [first_chars].
      eexists _, _. split; [done |]. by rewrite Hc.
    - by apply all_digits_skip_chars. }
  destruct ((- 6 <? n) && (n <=? 0)) eqn:H3.
  { (* zeros after the point *)
    apply andb_true_iff in H3 as [_ Hn%Z.leb_le].
    pose proof (read_unsigned_parts neg "0" (zeros (Z.to_nat (- n)) +:+ d)
                  rest rest 0) as Hparts.
    assert (Hf : ∃ c' f', zeros (Z.to_nat (- n)) +:+ d = String c' f').
    { destruct (zeros (Z.to_nat (- n))); [rewrite Heq |]; simpl; eauto. }
    destruct Hf as (c' & f' & Hf).
    rewrite Hf in Hparts. rewrite <- Hf in Hparts.
    assert (Htext :
      String "0" (String "." (zeros (Z.to_nat (- n)) +:+ d)) +:+ rest
      = "0" +:+ String "." (zeros (Z.to_nat (- n)) +:+ d) +:+ rest) by done.
    rewrite Htext.
    rewrite Hparts; [| done | by eexists _, _ | | done | by rewrite Hf | done].
    - change ("0" +:+ zeros (Z.to_nat (- n)) +:+ d)
        with (String "0" (zeros (Z.to_nat (- n))) +:+ d).
      rewrite (strip_zeros_prefix (String "0" (zeros (Z.to_nat (- n)))) d)
        by done.
      rewrite (decimal_value_ext neg _ d)
        by (cbn [String.append digits_value];
            by rewrite digits_value_app, digits_value_zeros).
      do 3 f_equal. rewrite length_append.
      assert (String.length (zeros (Z.to_nat (- n))) = Z.to_nat (- n)) as ->.
      { generalize (Z.to_nat (- n)). intros j.
        induction j as [|j IH]; simpl; [done | by rewrite IH]. }
      subst n k. lia.
    - by rewrite all_digits_app, all_digits_zeros. }
  (* an exponent *)
  set (tail := String "e" (String (if n - 1 <? 0 then "-" else "+")
                             (digits (Z.abs (n - 1)) +:+ rest))).
  assert (Hexp' : read_exponent tail = Some (n - 1, rest))
    by by apply read_exponent_digits.
  pose proof (read_unsigned_parts neg (String c "") t tail rest (n - 1))
    as Hparts.
  assert (Htext :
    (match d with
     | String c (String c' d') => String c (String "." (String c' d'))
     | _ => d
     end
     +:+ String "e" (String (if n - 1 <? 0 then "-" else "+")
                       (digits (Z.abs (n - 1))))) +:+ rest
    = String c ""
      +:+ match t with EmptyString => "" | String _ _ => String "." t end
      +:+ tail).
  { rewrite Heq. subst tail. destruct t as [|c' t']; cbn [String.append].
    - done.
    - by rewrite append_assoc. }
  rewrite Htext.
  rewrite Hparts;
    [| by cbn; rewrite Hdigit | by eexists _, _ | done | done | done | done].
  change (String c "" +:+ t) with (String c t).
  rewrite <- Heq, Hstrip. do 3 f_equal.
  subst n k. rewrite Heq. cbn [String.length]. lia.
Qed.

(** *** Rounding what is a Number *)

Lemma pow2_scale (n d L K : Z) :
  Z.max (- L) 0 ≤ K →
  d * 2 ^ Z.max L 0 ≤ n * 2 ^ Z.max (- L) 0 ↔ d * 2 ^ (K + L) ≤ n * 2 ^ K.
Proof.
  intros HK.
  replace (K + L) with (Z.max L 0 + (K - Z.max (- L) 0)) by lia.
  replace K with (Z.max (- L) 0 + (K - Z.max (- L) 0)) at 2 by lia.
  rewrite !Z.pow_add_r, !Z.mul_assoc by lia.
  assert (0 < 2 ^ (K - Z.max (- L) 0)) by (apply Z.pow_pos_nonneg; lia).
  split; [by apply Z.mul_le_mono_nonneg_r; lia |].
  by apply Z.mul_le_mono_pos_r.
Qed.

(** [log2_ratio n d] is the [L] with [2 ^ L <= n / d < 2 ^ (L + 1)]. *)
Lemma log2_ratio_unique (n d L : Z) :
  0 < n → 0 < d →
  d * 2 ^ Z.max L 0 ≤ n * 2 ^ Z.max (- L) 0 →
  n * 2 ^ Z.max (- (L + 1)) 0 < d * 2 ^ Z.max (L + 1) 0 →
  log2_ratio n d = L.
Proof.
  intros Hn Hd Hle Hlt. unfold log2_ratio.
  pose proof (Z.log2_spec n Hn) as [Hn1 Hn2].
  pose proof (Z.log2_spec d Hd) as [Hd1 Hd2].
  pose proof (Z.log2_nonneg n) as Hln. pose proof (Z.log2_nonneg d) as Hld.
  remember (Z.log2 n) as ln eqn:Eln. remember (Z.log2 d) as ld eqn:Eld.
  remember (ln - ld) as l eqn:El.
  remember (ln + ld + Z.abs L + 2) as K eqn:EK.
  assert (HK : 0 < 2 ^ K) by (apply Z.pow_pos_nonneg; lia).
  apply (pow2_scale n d L K) in Hle; [| lia].
  apply Z.lt_nge in Hlt. rewrite (pow2_scale n d (L + 1) K) in Hlt by lia.
  apply Z.nle_gt in Hlt.
  (* 2^(l-1) < n/d < 2^(l+1) *)
  assert (Hlow : d * 2 ^ (K + (l - 1)) < n * 2 ^ K).
  { apply Z.lt_le_trans with (2 ^ (K + ln)).
    - replace (K + ln) with (Z.succ ld + (K + (l - 1))) by lia.
      rewrite (Z.pow_add_r 2 (Z.succ ld) (K + (l - 1))) by lia.
      apply Z.mul_lt_mono_pos_r; [apply Z.pow_pos_nonneg; lia | done].
    - rewrite (Z.add_comm K ln), (Z.pow_add_r 2 ln K) by lia.
      apply Z.mul_le_mono_nonneg_r; lia. }
  assert (Hhigh : n * 2 ^ K < d * 2 ^ (K + (l + 1))).
  { apply Z.lt_le_trans with (2 ^ (Z.succ ln + K)).
    - rewrite (Z.pow_add_r 2 (Z.succ ln) K) by lia.
      apply Z.mul_lt_mono_pos_r; [done | done].
    - replace (Z.succ ln + K) with (ld + (K + (l + 1))) by lia.
      rewrite (Z.pow_add_r 2 ld (K + (l + 1))) by lia.
      apply Z.mul_le_mono_nonneg_r; [| done].
      apply Z.pow_nonneg; lia. }
  assert (Hmono : ∀ a b, 0 ≤ K + a → d * 2 ^ (K + a) < d * 2 ^ (K + b) →
                         a < b).
  { intros a b Ha Hab. apply Z.mul_lt_mono_pos_l in Hab; [| done].
    destruct (Z.lt_ge_cases a b) as [|Hba]; [done |].
    destruct (Z.lt_ge_cases (K + b) 0) as [Hneg|Hpos].
    - rewrite (Z.pow_neg_r 2 (K + b)) in Hab by done.
      pose proof (Z.pow_nonneg 2 (K + a)). lia.
    - pose proof (Z.pow_le_mono_r 2 (K + b) (K + a)). lia. }
  assert (HL1 : L < l + 1) by (apply Hmono; lia).
  assert (HL2 : l - 1 < L + 1) by (apply Hmono; lia).
  destruct (Z.leb_spec (d * 2 ^ Z.max l 0) (n * 2 ^ Z.max (- l) 0)) as [Hl|Hl].
  - apply (pow2_scale n d l K) in Hl; [| lia].
    destruct (Z.eq_dec L l) as [|Hne]; [done |].
    assert (L + 1 = l) as Heq by lia. rewrite Heq in Hlt. lia.
  - apply Z.lt_nge in Hl. rewrite (pow2_scale n d l K) in Hl by lia.
    destruct (Z.eq_dec L l) as [Heq|Hne]; [| lia].
    rewrite Heq in Hle. lia.
Qed.

Lemma log2_ratio_exact (m e c : Z) :
  0 < m → 0 ≤ e → 0 < c →
  log2_ratio (m * c) (2 ^ e * c) = Z.log2 m - e.
Proof.
  intros Hm He Hc.
  pose proof (Z.log2_spec m Hm) as [Hm1 Hm2].
  pose proof (Z.log2_nonneg m) as Hlm. remember (Z.log2 m) as lm eqn:Elm.
  assert (He2 : 0 < 2 ^ e) by (apply Z.pow_pos_nonneg; lia).
  apply log2_ratio_unique; [lia | lia | |].
  - rewrite (Z.mul_comm (2 ^ e) c), (Z.mul_comm m c), <- !Z.mul_assoc.
    apply Z.mul_le_mono_nonneg_l; [lia |].
    destruct (Z.le_ge_cases 0 (lm - e)) as [Hpos|Hneg].
    + rewrite Z.max_l, Z.max_r by lia.
      rewrite <- Z.pow_add_r by lia. replace (e + (lm - e)) with lm by lia.
      lia.
    + rewrite Z.max_r, Z.max_l by lia. rewrite Z.mul_1_r.
      replace (2 ^ e) with (2 ^ lm * 2 ^ (- (lm - e)))
        by (rewrite <- Z.pow_add_r by lia; f_equal; lia).
      apply Z.mul_le_mono_nonneg_r; [apply Z.pow_nonneg; lia | done].
  - rewrite (Z.mul_comm (2 ^ e) c), (Z.mul_comm m c), <- !Z.mul_assoc.
    apply Z.mul_lt_mono_pos_l; [done |].
    destruct (Z.le_ge_cases 0 (lm - e + 1)) as [Hpos|Hneg].
    + rewrite Z.max_r, Z.max_l by lia.
      rewrite <- Z.pow_add_r by lia.
      replace (e + (lm - e + 1)) with (Z.succ lm) by lia. lia.
    + rewrite Z.max_l, Z.max_r by lia. rewrite Z.mul_1_r.
      replace (2 ^ e) with (2 ^ Z.succ lm * 2 ^ (- (lm - e + 1)))
        by (rewrite <- Z.pow_add_r by lia; f_equal; lia).
      apply Z.mul_lt_mono_pos_r; [apply Z.pow_pos_nonneg; lia | done].
Qed.

(** The Number nearest to a Number is that Number. *)
Lemma nearest_exact (m e c : Z) :
  0 < m < 2 ^ 53 → 0 < e ≤ 1074 → 0 < c →
  ∃ t, 0 ≤ t ∧ nearest (m * c) (2 ^ e * c) = (m * 2 ^ t, - (e + t)).
Proof.
  intros Hm He Hc. unfold nearest.
  rewrite log2_ratio_exact by lia.
  assert (Hlm : Z.log2 m < 53) by (apply Z.log2_lt_pow2; lia).
  remember (Z.max (Z.log2 m - e - 52) (- 1074)) as E eqn:EE.
  assert (HE : E ≤ - e) by lia.
  exists (- e - E). split; [lia |].
  rewrite (Z.max_l (- E) 0), (Z.max_r E 0) by lia.
  rewrite Z.pow_0_r, Z.mul_1_r.
  assert (He2 : 0 < 2 ^ e) by (apply Z.pow_pos_nonneg; lia).
  assert (Hnum : m * c * 2 ^ (- E) = m * 2 ^ (- e - E) * (2 ^ e * c)).
  { replace (- E) with (- e - E + e) at 1 by lia.
    rewrite Z.pow_add_r by lia. ring. }
  rewrite Hnum, Z.div_mul, Z.mod_mul by lia.
  assert (Hden : (2 * 0 <? 2 ^ e * c) = true) by (apply Z.ltb_lt; lia).
  rewrite Hden. f_equal. lia.
Qed.

Lemma pos_shift (m : positive) (t : nat) :
  Z.pos (Nat.iter t xO m) = Z.pos m * 2 ^ Z.of_nat t.
Proof.
  induction t as [|t IH]; [simpl; lia |].
  rewrite Nat2Z.inj_succ, Z.pow_succ_r by lia.
  change (Nat.iter (S t) xO m) with (xO (Nat.iter t xO m)).
  rewrite Pos2Z.inj_xO, IH. lia.
Qed.

Lemma lowest_terms_shift (m : positive) (e t : nat) :
  Z.odd (Z.pos m) = true →
  lowest_terms (Nat.iter t xO m) (t + e) = (m, e).
Proof.
  intros Hm. induction t as [|t IH]; [by destruct m, e |].
  exact IH.
Qed.

Lemma number_exact (neg : bool) (m : positive) (e : positive) (t : Z) :
  Z.odd (Z.pos m) = true → 0 ≤ t →
  number neg (Z.pos m * 2 ^ t, - (Z.pos e + t))
  = JFrac (if neg then Z.neg m else Z.pos m) e.
Proof.
  intros Hm Ht. unfold number.
  assert (Hpow : 0 < 2 ^ t) by (apply Z.pow_pos_nonneg; lia).
  destruct (Z.eqb_spec (Z.pos m * 2 ^ t) 0) as [|_]; [lia |].
  destruct (Z.leb_spec 0 (- (Z.pos e + t))) as [|_]; [lia |].
  rewrite <- (Z2Nat.id t Ht), <- pos_shift. cbn [Z.to_pos].
  replace (Z.to_nat (- - (Z.pos e + Z.of_nat (Z.to_nat t))))
    with (Z.to_nat t + Pos.to_nat e)%nat by lia.
  rewrite lowest_terms_shift by done.
  destruct (Pos.to_nat e) as [|e'] eqn:He; [lia |].
  f_equal. lia.
Qed.

Lemma same_number_eq (a b : json) : same_number a b = true → a = b.
Proof.
  destruct a, b; try done; simpl.
  - by intros ->%Z.eqb_eq.
  - by intros [->%Z.eqb_eq ->%Pos.eqb_eq]%andb_true_iff.
  - by intros ->%Bool.eqb_prop.
Qed.

Lemma number_value_exact (n : Z) :
  is_number n = true → number_value n = JNum n.
Proof.
  unfold is_number, number_value.
  intros [Hn%Z.eqb_eq Hlt%Z.ltb_lt]%andb_true_iff. rewrite Hn.
  destruct (Z.leb_spec (2 ^ 1024) (Z.abs n)) as [Hbig|]; [lia | done].
Qed.

(** The decimal that is an integer Number reads as that Number. *)
Lemma decimal_value_integer (n : Z) :
  is_number n = true → n ≠ 0 →
  decimal_value (n <? 0) (decimal (Z.abs n) 0).1 (decimal (Z.abs n) 0).2
  = JNum n.
Proof.
  intros Hn Hnz. destruct (decimal (Z.abs n) 0) as [d x] eqn:Hdec.
  apply decimal_digits_value in Hdec as [Hval Hx]; [| lia].
  rewrite Z.sub_0_r in Hval. cbn [fst snd]. unfold decimal_value.
  destruct (Z.eqb_spec (digits_value 0 d) 0) as [Hzero|_].
  { rewrite Hzero in Hval. lia. }
  destruct (Z.leb_spec 0 x) as [_|]; [| lia].
  rewrite <- (number_value_exact n Hn). f_equal.
  destruct (Z.ltb_spec n 0); lia.
Qed.

(** The decimal that is a fraction reads as that fraction. *)
Lemma decimal_value_fraction (m : Z) (e : positive) :
  is_fraction m e = true →
  decimal_value (m <? 0) (decimal (Z.abs m * 5 ^ Z.pos e) (- Z.pos e)).1
    (decimal (Z.abs m * 5 ^ Z.pos e) (- Z.pos e)).2
  = JFrac m e.
Proof.
  unfold is_fraction.
  intros [[Hodd Hm%Z.ltb_lt]%andb_true_iff He%Z.leb_le]%andb_true_iff.
  assert (Hpos : 0 < Z.abs m).
  { destruct m; [done | lia | lia]. }
  assert (H5 : 0 < 5 ^ Z.pos e) by (apply Z.pow_pos_nonneg; lia).
  destruct (decimal (Z.abs m * 5 ^ Z.pos e) (- Z.pos e)) as [d x] eqn:Hdec.
  apply decimal_digits_value in Hdec as [Hval Hx]; [| lia].
  cbn [fst snd].
  assert (Hparity : Z.odd (Z.abs m * 5 ^ Z.pos e) = true).
  { rewrite Z.odd_mul, Z.odd_pow by lia.
    assert (Z.odd (Z.abs m) = true) as -> by (by destruct m). done. }
  assert (x = - Z.pos e) as ->.
  { destruct (Z.eq_dec x (- Z.pos e)) as [|Hne]; [done |]. exfalso.
    rewrite Hval, Z.odd_mul, (Z.odd_pow 10) in Hparity by lia.
    by rewrite andb_false_r in Hparity. }
  rewrite Z.sub_diag, Z.pow_0_r, Z.mul_1_r in Hval.
  unfold decimal_value. rewrite <- Hval.
  destruct (Z.eqb_spec (Z.abs m * 5 ^ Z.pos e) 0) as [|_]; [lia |].
  destruct (Z.leb_spec 0 (- Z.pos e)) as [|_]; [lia |].
  rewrite Z.opp_involutive.
  replace (10 ^ Z.pos e) with (2 ^ Z.pos e * 5 ^ Z.pos e)
    by (by rewrite <- Z.pow_mul_l).
  destruct (nearest_exact (Z.abs m) (Z.pos e) (5 ^ Z.pos e))
    as (t & Ht & ->); [lia | lia | done |].
  destruct m as [|p|p]; [done | |]; cbn [Z.abs Z.ltb Z.compare];
    by apply number_exact.
Qed.

(** *** What [JSON.stringify] writes for a Number is read as that Number *)

Lemma candidates_decimal (a b n k : Z) (c : string * Z) :
  In c (candidates a b n k) → ∃ s x, c = decimal s x.
Proof.
  unfold candidates.
  repeat match goal with
         | |- context [if ?b then _ else _] => destruct b
         end; intros [<- | [<- | []]]; eauto.
Qed.

Lemma shortest_spec (fuel : nat) (k : Z) (accept : string * Z → bool)
  (a b n : Z) (exact : string * Z) :
  shortest fuel k accept a b n exact = exact
  ∨ accept (shortest fuel k accept a b n exact) = true
    ∧ ∃ s x, shortest fuel k accept a b n exact = decimal s x.
Proof.
  revert k. induction fuel as [|fuel IH]; intros k; [by left |].
  cbn [shortest].
  destruct (List.find accept (candidates a b n k)) as [c|] eqn:Hfind;
    [| apply IH].
  apply find_some in Hfind as [Hin Hc]. right. split; [done |].
  by eapply candidates_decimal.
Qed.

Lemma read_unsigned_start (neg : bool) (text : string) (res : json * string) :
  read_unsigned neg text = Some res →
  ∃ c t, text = String c t ∧ is_digit c = true.
Proof.
  unfold read_unsigned. destruct text as [|c t]; [done |].
  cbn [read_digits]. destruct (is_digit c) eqn:Hc; [eauto | done].
Qed.

Lemma read_number_sign (neg : bool) (text : string) (res : json * string) :
  read_unsigned neg text = Some res →
  read_number ((if neg then "-" else "") +:+ text) = Some res.
Proof.
  intros Hread. destruct neg; [exact Hread |].
  destruct (read_unsigned_start _ _ _ Hread) as (c & t & -> & Hc).
  change ("" +:+ String c t) with (String c t). unfold read_number.
  destruct (Ascii.eqb_spec c "-") as [-> |_]; [done | exact Hread].
Qed.

(** The text of a Number other than zero, after which the text does not go
    on with a numeral, is read as that Number. *)
Lemma read_number_to_string_of (v : json) (neg : bool) (a b : Z)
  (exact : string * Z) (rest : string) :
  (∀ x, same_number (decimal_value neg "" x) v = false) →
  (∃ s x, exact = decimal s x) →
  decimal_value neg exact.1 exact.2 = v →
  ends_number rest = true →
  read_number (to_string v neg a b exact +:+ rest) = Some (v, rest).
Proof.
  intros Hzero Hexact Hvalue Hrest. unfold to_string.
  set (accept := λ c : string * Z, same_number (decimal_value neg c.1 c.2) v).
  set (c := shortest 17 1 accept a b (decimal_exponent a b) exact).
  assert (Hc : decimal_value neg c.1 c.2 = v ∧ ∃ s x, c = decimal s x).
  { pose proof (shortest_spec 17 1 accept a b (decimal_exponent a b) exact)
      as Hspec.
    fold c in Hspec. destruct Hspec as [Heq | [Hacc Hdec]].
    - by rewrite Heq.
    - split; [by apply same_number_eq | done]. }
  destruct Hc as [Hv (s & x & Hdec)]. destruct c as [d x'].
  cbn [fst snd] in Hv.
  assert (Hd : stripped d = true).
  { apply (decimal_stripped s x d x' (eq_sym Hdec)). intros ->.
    specialize (Hzero x'). rewrite Hv in Hzero.
    assert (same_number v v = true) as Hrefl.
    { rewrite <- Hv. unfold decimal_value. cbn [digits_value].
      by destruct neg. }
    congruence. }
  rewrite append_assoc. apply read_number_sign.
  rewrite <- Hv. by apply read_unsigned_format.
Qed.

Lemma read_number_to_string (n : Z) (rest : string) :
  is_number n = true →
  ends_number rest = true →
  read_number (number_to_string n +:+ rest) = Some (JNum n, rest).
Proof.
  intros Hn Hrest. unfold number_to_string.
  destruct (Z.eqb_spec n 0) as [-> | Hnz].
  { apply ends_number_spec in Hrest as [Hfree Hfrac].
    pose proof (read_unsigned_parts false "0" "" rest rest 0) as Hparts.
    cbn [String.append] in Hparts |- *. unfold read_number.
    cbn [Ascii.eqb Bool.eqb].
    rewrite Hparts; [done | done | by eexists _, _ | done | done | |].
    - intros _. destruct rest as [|c rest']; [done |]. simpl in Hfrac.
      by apply orb_false_iff in Hfrac as [[? _]%orb_false_iff _].
    - by apply read_exponent_none. }
  apply read_number_to_string_of; [| by eauto | | done].
  - intros x. unfold decimal_value. cbn [digits_value Z.eqb].
    destruct (n <? 0); simpl; [done |]. by destruct n.
  - by apply decimal_value_integer.
Qed.

Lemma read_fraction_to_string (m : Z) (e : positive) (rest : string) :
  is_fraction m e = true →
  ends_number rest = true →
  read_number (fraction_to_string m e +:+ rest) = Some (JFrac m e, rest).
Proof.
  intros Hm Hrest. unfold fraction_to_string.
  destruct (Z.eqb_spec m 0) as [-> | Hnz]; [done |].
  apply read_number_to_string_of; [| by eauto | | done].
  - intros x. unfold decimal_value. cbn [digits_value Z.eqb].
    by destruct (m <? 0).
  - by apply decimal_value_fraction.
Qed.

(** The text of a Number starts like a value. *)
Lemma to_string_start (v : json) (neg : bool) (a b : Z)
  (exact : string * Z) (rest : string) :
  (∀ x, same_number (decimal_value neg "" x) v = false) →
  (∃ s x, exact = decimal s x) →
  exact.1 ≠ "" →
  value_start (to_string v neg a b exact +:+ rest) = true.
Proof.
  intros Hzero Hexact Hne. unfold to_string.
  destruct neg; [done |]. change ("" +:+ ?s) with s.
  set (accept := λ c : string * Z, same_number (decimal_value false c.1 c.2) v).
  set (c := shortest 17 1 accept a b (decimal_exponent a b) exact).
  assert (Hc : c.1 ≠ "" ∧ ∃ s x, c = decimal s x).
  { pose proof (shortest_spec 17 1 accept a b (decimal_exponent a b) exact)
      as Hspec.
    fold c in Hspec. destruct Hspec as [Heq | [Hacc Hdec]].
    - by rewrite Heq.
    - split; [| done]. intros Hc. unfold accept in Hacc.
      rewrite Hc, Hzero in Hacc. done. }
  destruct Hc as [Hd (s & x & Hdec)]. destruct c as [d x'].
  cbn [fst] in Hd.
  pose proof (decimal_stripped s x d x' (eq_sym Hdec) Hd) as Hstripped.
  destruct (stripped_digit_head d Hstripped) as (ch & t & -> & _ & Hch & _).
  assert (Hstart : ∀ text, value_start (String ch text) = true).
  { intros text. cbn [value_start]. revert Hch. clear.
    unfold is_digit, is_ws.
    destruct ch as [[] [] [] [] [] [] [] []]; intros H; try discriminate H;
      reflexivity. }
  unfold format.
  repeat match goal with
         | |- context [if ?b then _ else _] => destruct b eqn:?
         end.
  1: apply Hstart.
  1: { match goal with H : (0 <? _) && _ = true |- _ =>
         apply andb_true_iff in H as [Hn%Z.ltb_lt _] end.
       destruct (Z.to_nat _) eqn:Hnat in |- *; [lia |]. apply Hstart. }
  1: done.
  all: destruct t; apply Hstart.
Qed.

Lemma number_to_string_start (n : Z) (rest : string) :
  value_start (number_to_string n +:+ rest) = true.
Proof.
  unfold number_to_string. destruct (Z.eqb_spec n 0) as [-> | Hnz]; [done |].
  apply to_string_start; [| by eauto |].
  - intros x. unfold decimal_value. cbn [digits_value Z.eqb].
    destruct (n <? 0); simpl; [done |]. by destruct n.
  - destruct (decimal (Z.abs n) 0) as [d x] eqn:Hdec.
    apply decimal_digits_value in Hdec as [Hval _]; [| lia].
    cbn [fst]. intros ->. cbn [digits_value] in Hval. lia.
Qed.

Lemma fraction_to_string_start (m : Z) (e : positive) (rest : string) :
  value_start (fraction_to_string m e +:+ rest) = true.
Proof.
  unfold fraction_to_string. destruct (Z.eqb_spec m 0) as [-> | Hnz]; [done |].
  apply to_string_start; [| by eauto |].
  - intros x. unfold decimal_value. cbn [digits_value Z.eqb].
    by destruct (m <? 0).
  - assert (H5 : 0 < 5 ^ Z.pos e) by (apply Z.pow_pos_nonneg; lia).
    destruct (decimal (Z.abs m * 5 ^ Z.pos e) (- Z.pos e)) as [d x] eqn:Hdec.
    apply decimal_digits_value in Hdec as [Hval _]; [| lia].
    cbn [fst]. intros ->. cbn [digits_value] in Hval. lia.
Qed.

Lemma read_number_start (c : ascii) (text : string) (res : json * string) :
  read_number (String c text) = Some res → number_start c = true.
Proof.
  unfold read_number, number_start.
  destruct (Ascii.eqb c "-"); [done |]. cbn [orb].
  intros (c' & t & [= <- <-] & Hc)%read_unsigned_start. done.
Qed.

(** *** Strings *)

Lemma read_string_escape_char (c : ascii) (text : string) :
  read_string (escape_char c +:+ text)
  = '(t, r) ← read_string text; Some (String c t, r).
Proof. destruct c as [[] [] [] [] [] [] [] []]; reflexivity. Qed.

Lemma read_string_escape (s rest : string) :
  read_string (escape s +:+ String dquote rest) = Some (s, rest).
Proof.
  induction s as [|c s IH]; [reflexivity |].
  change (escape (String c s)) with (escape_char c +:+ escape s).
  by rewrite append_assoc, read_string_escape_char, IH.
Qed.

Lemma read_string_quote (s rest : string) :
  ∃ text, quote s +:+ rest = String dquote text
          ∧ read_string text = Some (s, rest).
Proof.
  exists (escape s +:+ String dquote rest). split.
  - unfold quote. simpl. by rewrite append_assoc.
  - apply read_string_escape.
Qed.

(** *** Objects *)

Lemma canonical_before (l1 l2 : list (string * json)) (k : string) (v : json) :
  canonical (l1 ++ (k, v) :: l2) = true →
  Forall (λ kv, key_before kv.1 k = true) l1.
Proof.
  induction l1 as [|[k1 v1] l1 IH]; simpl; [by constructor |].
  intros [Hall Hrest]%andb_true_iff. constructor; [| by apply IH].
  rewrite forallb_forall in Hall.
  apply (Hall (k, v)), in_app_iff. right. by left.
Qed.

Lemma assoc_before (l : list (string * json)) (k : string) :
  Forall (λ kv, key_before kv.1 k = true) l → assoc k l = None.
Proof.
  induction 1 as [|[k1 v1] l Hk _ IH]; simpl; [done |].
  unfold key_before in Hk. simpl in Hk.
  apply andb_true_iff in Hk as [Hne _]. apply negb_true_iff in Hne.
  by rewrite String.eqb_sym, Hne.
Qed.

Lemma obj_insert_index_last (l : list (string * json)) (n : N) (k : string)
  (v : json) :
  array_index k = Some n →
  Forall (λ kv, key_before kv.1 k = true) l →
  obj_insert_index n k v l = l ++ [(k, v)].
Proof.
  intros Hk. induction 1 as [|[k1 v1] l Hk1 _ IH]; simpl; [done |].
  unfold key_before in Hk1. simpl in Hk1. rewrite Hk in Hk1.
  apply andb_true_iff in Hk1 as [_ Hlt].
  destruct (array_index k1) as [m|]; [| done].
  by rewrite Hlt, IH.
Qed.

Lemma obj_set_last (l : list (string * json)) (k : string) (v : json) :
  Forall (λ kv, key_before kv.1 k = true) l →
  obj_set k v l = l ++ [(k, v)].
Proof.
  intros Hl. unfold obj_set. rewrite (assoc_before l k Hl).
  destruct (array_index k) as [n|] eqn:Hk; [| done].
  by apply obj_insert_index_last.
Qed.

Lemma build_object_canonical (o : list (string * json)) :
  canonical o = true → build_object o = o.
Proof.
  unfold build_object.
  enough (H : ∀ l2 l1, canonical (l1 ++ l2) = true →
            fold_left (λ o kv, obj_set kv.1 kv.2 o) l2 l1 = l1 ++ l2)
    by (intros Ho; by apply (H o [])).
  induction l2 as [|[k v] l2 IH]; intros l1 Hc; simpl.
  - by rewrite app_nil_r.
  - rewrite obj_set_last by (by eapply canonical_before).
    rewrite IH by (by rewrite <- app_assoc).
    by rewrite <- app_assoc.
Qed.

(** *** Values *)

Lemma stringify_start (d : nat) (v : json) (rest : string) :
  value_start (stringify_at d v +:+ rest) = true.
Proof.
  destruct v as [|[]|n|m e| | |s|[|x l]|[|[k x] l]]; try reflexivity.
  - apply number_to_string_start.
  - apply fraction_to_string_start.
Qed.

Lemma value_start_skip_ws (s : string) :
  value_start s = true → skip_ws s = s.
Proof.
  destruct s as [|c s]; [done |]. simpl.
  intros [[Hws _]%andb_true_iff _]%andb_true_iff.
  apply negb_true_iff in Hws. by rewrite Hws.
Qed.

Lemma value_start_not_closing (s : string) :
  value_start s = true → starts_with "]" s = None ∧ starts_with "}" s = None.
Proof.
  destruct s as [|c s]; [done |]. simpl.
  intros [[_ H1%negb_true_iff]%andb_true_iff H2%negb_true_iff]%andb_true_iff.
  by rewrite H1, H2.
Qed.

(** *** Fuel *)

Lemma value_start_length (s : string) :
  value_start s = true → (1 ≤ String.length s)%nat.
Proof. destruct s; [done |]. simpl. lia. Qed.

Lemma ser_elements_length (ser : json → string) (d : nat) (l : list json) :
  Forall (λ x, (cost x ≤ String.length (ser x))%nat) l →
  (list_sum (map (λ x, S (cost x)) l)
   ≤ String.length (ser_elements ser d l))%nat.
Proof.
  induction 1 as [|x l Hx _ IH]; [simpl; lia |].
  cbn [ser_elements map]. change (list_sum (?a :: ?b)) with (a + list_sum b)%nat.
  cbn [String.length]. rewrite !length_append. lia.
Qed.

Lemma ser_members_length (ser : json → string) (d : nat)
  (l : list (string * json)) :
  Forall (λ kv, (cost kv.2 ≤ String.length (ser kv.2))%nat) l →
  (list_sum (map (λ kv, S (cost kv.2)) l)
   ≤ String.length (ser_members ser d l))%nat.
Proof.
  induction 1 as [|[k x] l Hx _ IH]; [simpl; lia |].
  cbn [ser_members map]. change (list_sum (?a :: ?b)) with (a + list_sum b)%nat.
  unfold ser_member. cbn [String.length]. rewrite !length_append.
  cbn [String.length]. simpl in Hx. cbn [snd]. lia.
Qed.

Lemma cost_length (v : json) (d : nat) :
  (cost v ≤ String.length (stringify_at d v))%nat.
Proof.
  revert d. induction v as [|b|n|m e| |neg|s|items IH|props IH] using json_ind;
    intros d.
  - simpl. lia.
  - destruct b; simpl; lia.
  - apply value_start_length.
    rewrite <- (append_empty_r (stringify_at d (JNum n))).
    apply stringify_start.
  - apply value_start_length.
    rewrite <- (append_empty_r (stringify_at d (JFrac m e))).
    apply stringify_start.
  - simpl. lia.
  - simpl. lia.
  - cbn [stringify_at cost]. unfold quote. simpl. lia.
  - destruct items as [|x l]; [simpl; lia |].
    apply Forall_cons in IH as [Hx Hl].
    cbn [stringify_at cost map String.length].
    change (list_sum (?a :: ?b)) with (a + list_sum b)%nat.
    rewrite !length_append.
    pose proof (ser_elements_length (stringify_at (S d)) d l) as Hlen.
    specialize (Hx (S d)).
    assert (Forall (λ x, (cost x ≤ String.length (stringify_at (S d) x))%nat) l)
      as Hl' by (eapply Forall_impl; [exact Hl | by intros y Hy]).
    specialize (Hlen Hl'). lia.
  - destruct props as [|[k x] l]; [simpl; lia |].
    apply Forall_cons in IH as [Hx Hl]. simpl in Hx.
    cbn [stringify_at cost map String.length].
    change (list_sum (?a :: ?b)) with (a + list_sum b)%nat.
    unfold ser_member. rewrite !length_append. cbn [String.length snd].
    pose proof (ser_members_length (stringify_at (S d)) d l) as Hlen.
    specialize (Hx (S d)).
    assert (Forall (λ kv : string * json,
              (cost kv.2 ≤ String.length (stringify_at (S d) kv.2))%nat) l)
      as Hl' by (eapply Forall_impl; [exact Hl | by intros y Hy]).
    specialize (Hlen Hl'). lia.
Qed.

Lemma number_start_only (c : ascii) :
  number_start c = true →
  is_ws c = false ∧ Ascii.eqb c dquote = false ∧ Ascii.eqb c "[" = false
  ∧ Ascii.eqb c "{" = false ∧ Ascii.eqb c "n" = false
  ∧ Ascii.eqb c "t" = false ∧ Ascii.eqb c "f" = false.
Proof.
  destruct c as [[] [] [] [] [] [] [] []]; intros H;
    try discriminate H; repeat split; reflexivity.
Qed.

#[local] Arguments read_number : simpl never.

Lemma parse_value_number (fuel : nat) (text : string) (v : json) (r : string) :
  read_number text = Some (v, r) →
  parse_value (S fuel) text = Some (v, r).
Proof.
  intros H. destruct text as [|c text]; [done |].
  destruct (number_start_only c (read_number_start _ _ _ H))
    as (Hws & H1 & H2 & H3 & H4 & H5 & H6).
  simpl. rewrite Hws, H1, H2, H3, H4, H5, H6, H. done.
Qed.

Lemma ser_elements_nil (ser : json → string) (d : nat) (rest : string) :
  ser_elements ser d [] +:+ rest = String LF (indent d +:+ String "]" rest).
Proof. simpl. by rewrite append_assoc. Qed.

Lemma ser_elements_cons (ser : json → string) (d : nat) (x : json)
  (l : list json) (rest : string) :
  ser_elements ser d (x :: l) +:+ rest
  = String "," (String LF (indent (S d) +:+ ser x +:+ ser_elements ser d l +:+ rest)).
Proof. cbn [ser_elements]. simpl. by rewrite !append_assoc. Qed.

Lemma ser_members_nil (ser : json → string) (d : nat) (rest : string) :
  ser_members ser d [] +:+ rest = String LF (indent d +:+ String "}" rest).
Proof. simpl. by rewrite append_assoc. Qed.

Lemma ser_member_app (ser : json → string) (k : string) (x : json)
  (rest : string) :
  ser_member ser k x +:+ rest
  = quote k +:+ String ":" (String " " (ser x +:+ rest)).
Proof. unfold ser_member. by rewrite append_assoc. Qed.

Lemma ser_members_cons (ser : json → string) (d : nat) (k : string) (x : json)
  (l : list (string * json)) (rest : string) :
  ser_members ser d ((k, x) :: l) +:+ rest
  = String "," (String LF (indent (S d) +:+ ser_member ser k x
                           +:+ ser_members ser d l +:+ rest)).
Proof. cbn [ser_members]. repeat (simpl; rewrite ?append_assoc). done. Qed.

#[local] Arguments indent : simpl never.
#[local] Arguments stringify_at : simpl never.
#[local] Arguments ser_elements : simpl never.
#[local] Arguments ser_members : simpl never.
#[local] Arguments parse_value : simpl never.
#[local] Arguments parse_elements : simpl never.
#[local] Arguments parse_members : simpl never.

Lemma parse_elements_S (fuel : nat) (s : string) :
  parse_elements (S fuel) s
  = '(v, r) ← parse_value fuel s;
    match skip_ws r with
    | EmptyString => None
    | String c r' =>
        if Ascii.eqb c "," then
          '(l, r'') ← parse_elements fuel r'; Some (v :: l, r'')
        else if Ascii.eqb c "]" then Some ([v], r')
        else None
    end.
Proof. reflexivity. Qed.

Lemma skip_ws_next (d : nat) (text : string) :
  value_start text = true →
  skip_ws (String LF (indent d +:+ text)) = text.
Proof.
  intros H. simpl. rewrite skip_ws_indent. by apply value_start_skip_ws.
Qed.

Lemma parse_elements_close (fuel d : nat) (s : string) (x : json)
  (rest : string) :
  parse_value fuel s = Some (x, String LF (indent d +:+ String "]" rest)) →
  parse_elements (S fuel) s = Some ([x], rest).
Proof.
  intros H. rewrite parse_elements_S, H. simpl. by rewrite skip_ws_indent.
Qed.

Lemma parse_elements_comma (fuel : nat) (s : string) (x : json)
  (text : string) :
  parse_value fuel s = Some (x, String "," text) →
  parse_elements (S fuel) s
  = '(l, r) ← parse_elements fuel text; Some (x :: l, r).
Proof. intros H. by rewrite parse_elements_S, H. Qed.

Lemma parse_elements_stringify (d : nat) (l : list json) :
  Forall reads_back l →
  ∀ x fuel rest,
    reads_back x →
    (S (cost x) + list_sum (map (λ y, S (cost y)) l) ≤ fuel)%nat →
    parse_elements fuel
      (stringify_at (S d) x +:+ ser_elements (stringify_at (S d)) d l +:+ rest)
    = Some (x :: l, rest).
Proof.
  induction 1 as [|y l Hy _ IH]; intros x fuel rest Hx Hfuel;
    (destruct fuel as [|fuel]; [simpl in Hfuel; lia |]).
  - rewrite ser_elements_nil. apply (parse_elements_close _ d).
    apply Hx; [| done]. simpl in Hfuel. lia.
  - rewrite ser_elements_cons.
    erewrite parse_elements_comma
      by (apply Hx; [simpl in Hfuel; lia | done]).
    rewrite <- parse_elements_skip_ws.
    rewrite skip_ws_next by apply stringify_start.
    rewrite IH; [done | done |]. simpl in Hfuel |- *. lia.
Qed.

Lemma parse_members_S (fuel : nat) (s : string) :
  parse_members (S fuel) s
  = match skip_ws s with
    | EmptyString => None
    | String c r =>
        if Ascii.eqb c dquote then
          '(k, r1) ← read_string r;
          match starts_with ":" (skip_ws r1) with
          | Some r2 =>
              '(v, r3) ← parse_value fuel r2;
              match skip_ws r3 with
              | EmptyString => None
              | String c' r4 =>
                  if Ascii.eqb c' "," then
                    '(l, r5) ← parse_members fuel r4; Some ((k, v) :: l, r5)
                  else if Ascii.eqb c' "}" then Some ([(k, v)], r4)
                  else None
              end
          | None => None
          end
        else None
    end.
Proof. reflexivity. Qed.

Lemma parse_members_key (fuel : nat) (k text : string) :
  parse_members (S fuel) (quote k +:+ String ":" text)
  = '(v, r3) ← parse_value fuel text;
    match skip_ws r3 with
    | EmptyString => None
    | String c' r4 =>
        if Ascii.eqb c' "," then
          '(l, r5) ← parse_members fuel r4; Some ((k, v) :: l, r5)
        else if Ascii.eqb c' "}" then Some ([(k, v)], r4)
        else None
    end.
Proof.
  destruct (read_string_quote k (String ":" text)) as (body & -> & Hread).
  rewrite parse_members_S. simpl. by rewrite Hread.
Qed.

Lemma parse_members_close (fuel d : nat) (k text : string) (x : json)
  (rest : string) :
  parse_value fuel text = Some (x, String LF (indent d +:+ String "}" rest)) →
  parse_members (S fuel) (quote k +:+ String ":" text) = Some ([(k, x)], rest).
Proof.
  intros H. rewrite parse_members_key, H. simpl. by rewrite skip_ws_indent.
Qed.

Lemma parse_members_comma (fuel : nat) (k text : string) (x : json)
  (next : string) :
  parse_value fuel text = Some (x, String "," next) →
  parse_members (S fuel) (quote k +:+ String ":" text)
  = '(l, r) ← parse_members fuel next; Some ((k, x) :: l, r).
Proof. intros H. by rewrite parse_members_key, H. Qed.

Lemma ser_member_start (ser : json → string) (k : string) (x : json)
  (rest : string) :
  value_start (ser_member ser k x +:+ rest) = true.
Proof. reflexivity. Qed.

Lemma parse_value_space (fuel : nat) (text : string) :
  value_start text = true →
  parse_value fuel (String " " text) = parse_value fuel text.
Proof.
  intros H. rewrite <- (parse_value_skip_ws _ (String " " text)).
  simpl. by rewrite value_start_skip_ws.
Qed.

Lemma parse_members_stringify (d : nat) (l : list (string * json)) :
  Forall (λ kv, reads_back kv.2) l →
  ∀ k x fuel rest,
    reads_back x →
    (S (cost x) + list_sum (map (λ kv, S (cost kv.2)) l) ≤ fuel)%nat →
    parse_members fuel
      (ser_member (stringify_at (S d)) k x
       +:+ ser_members (stringify_at (S d)) d l +:+ rest)
    = Some ((k, x) :: l, rest).
Proof.
  induction 1 as [|[k' x'] l Hx' _ IH]; intros k x fuel rest Hx Hfuel;
    (destruct fuel as [|fuel]; [simpl in Hfuel; lia |]);
    rewrite ser_member_app.
  - rewrite ser_members_nil. apply (parse_members_close _ d).
    rewrite parse_value_space by apply stringify_start.
    apply Hx; [| done]. simpl in Hfuel. lia.
  - rewrite ser_members_cons.
    erewrite parse_members_comma; last first.
    { rewrite parse_value_space by apply stringify_start.
      apply Hx; [simpl in Hfuel; lia | done]. }
    rewrite <- parse_members_skip_ws.
    rewrite skip_ws_next by apply ser_member_start.
    rewrite IH; [done | done |]. simpl in Hfuel |- *. lia.
Qed.

Lemma stringify_arr_cons (d : nat) (x : json) (l : list json) (rest : string) :
  stringify_at d (JArr (x :: l)) +:+ rest
  = String "[" (String LF (indent (S d) +:+ stringify_at (S d) x
      +:+ ser_elements (stringify_at (S d)) d l +:+ rest)).
Proof. cbn [stringify_at]. simpl. by rewrite !append_assoc. Qed.

Lemma stringify_obj_cons (d : nat) (k : string) (x : json)
  (l : list (string * json)) (rest : string) :
  stringify_at d (JObj ((k, x) :: l)) +:+ rest
  = String "{" (String LF (indent (S d)
      +:+ ser_member (stringify_at (S d)) k x
      +:+ ser_members (stringify_at (S d)) d l +:+ rest)).
Proof. cbn [stringify_at]. simpl. repeat (simpl; rewrite ?append_assoc). done. Qed.

Lemma parse_value_arr (fuel : nat) (text : string) :
  starts_with "]" (skip_ws text) = None →
  parse_value (S fuel) (String "[" text)
  = '(l, r) ← parse_elements fuel (skip_ws text); Some (JArr l, r).
Proof.
  intros H. rewrite parse_elements_skip_ws.
  change (parse_value (S fuel) (String "[" text))
    with (match starts_with "]" (skip_ws text) with
          | Some r' => Some (JArr [], r')
          | None => '(l, r') ← parse_elements fuel text; Some (JArr l, r')
          end).
  by rewrite H.
Qed.

Lemma parse_value_obj (fuel : nat) (text : string) :
  starts_with "}" (skip_ws text) = None →
  parse_value (S fuel) (String "{" text)
  = '(l, r) ← parse_members fuel (skip_ws text);
    Some (JObj (build_object l), r).
Proof.
  intros H. rewrite parse_members_skip_ws.
  change (parse_value (S fuel) (String "{" text))
    with (match starts_with "}" (skip_ws text) with
          | Some r' => Some (JObj [], r')
          | None =>
              '(l, r') ← parse_members fuel text;
              Some (JObj (build_object l), r')
          end).
  by rewrite H.
Qed.

Lemma parse_stringify (v : json) : wf_json v = true → reads_back v.
Proof.
  induction v as [|b|n|m e| |neg|s|items IH|props IH] using json_ind;
    intros Hwf d fuel rest Hfuel Hrest;
    (destruct fuel as [|fuel]; [simpl in Hfuel; lia |]).
  - reflexivity.
  - by destruct b.
  - by apply parse_value_number, read_number_to_string.
  - by apply parse_value_number, read_fraction_to_string.
  - done.
  - done.
  - destruct (read_string_quote s rest) as (body & Htext & Hread).
    change (stringify_at d (JStr s)) with (quote s). rewrite Htext.
    change (parse_value (S fuel) (String dquote body))
      with ('(t, r') ← read_string body; Some (JStr t, r')).
    by rewrite Hread.
  - assert (Hall : Forall reads_back items).
    { simpl in Hwf. rewrite forallb_forall in Hwf.
      rewrite Forall_forall in IH |- *. intros x Hx.
      apply IH; [done |]. by apply Hwf, list_elem_of_In. }
    destruct items as [|x l]; [reflexivity |].
    apply Forall_cons in Hall as [Hx Hl].
    rewrite stringify_arr_cons, parse_value_arr;
      rewrite skip_ws_next by apply stringify_start.
    + rewrite (parse_elements_stringify d l Hl x); [done | done |].
      simpl in Hfuel. lia.
    + apply value_start_not_closing, stringify_start.
  - simpl in Hwf. apply andb_true_iff in Hwf as [Hcanon Hwf].
    assert (Hall : Forall (λ kv, reads_back kv.2) props).
    { rewrite forallb_forall in Hwf.
      rewrite Forall_forall in IH |- *. intros kv Hkv.
      apply IH; [done |]. by apply Hwf, list_elem_of_In. }
    rewrite <- (build_object_canonical props Hcanon) at 2.
    destruct props as [|[k x] l]; [reflexivity |].
    apply Forall_cons in Hall as [Hx Hl].
    rewrite stringify_obj_cons, parse_value_obj;
      rewrite skip_ws_next by apply ser_member_start.
    + rewrite (parse_members_stringify d l Hl k x); [done | done |].
      simpl in Hfuel. lia.
    + apply value_start_not_closing, ser_member_start.
Qed.

(** [JSON.parse (JSON.stringify (v, null, 2))] is [v]. *)
Lemma JSON_parse_stringify (v : json) :
  wf_json v = true → JSON_parse (JSON_stringify v) = Some v.
Proof.
  intros Hwf. unfold JSON_parse, JSON_stringify.
  rewrite <- (append_empty_r (stringify_at 0 v)) at 2.
  rewrite (parse_stringify v Hwf 0%nat _ ""); [done | | done].
  apply cost_length.
Qed.

End JsonFacts.

(** ** The request listener *)

Module ServerFacts.
Import Js Json Server.

Section listener.
Context `{engine : Engine}.

Lemma findIndex_Some (q : string) (us : list user) (i : nat) :
  findIndex q us = Some i →
  ∃ u, us !! i = Some u ∧ id_is q u ∧ list_find (id_is q) us = Some (i, u).
Proof.
  unfold findIndex. intros Hi.
  destruct (list_find _ us) as [[j u]|] eqn:Hfind; [| done].
  injection Hi as ->. exists u.
  by apply list_find_Some in Hfind as (? & ? & _).
Qed.

Ltac exec :=
  repeat progress
    (unfold mbind, mret, M_bind, M_ret, getRequestBody, get_users, set_users,
       perform, write_file, res_writeHead, res_end, saveUsers, return_, throw,
       fail, prop, assign, splice1;
     cbn beta iota delta [fst snd users disk out app from_option default
                          option_bind]).

Lemma get_prop_own (b : json) (k : string) :
  is_null b = false → get_prop b k = Some (own_prop b k).
Proof. unfold get_prop. by intros ->. Qed.

Lemma get_prop_null (b : json) (k : string) :
  is_null b = true → get_prop b k = None.
Proof. unfold get_prop. by intros ->. Qed.

(** *** The branches of the listener *)

Lemma handle_options (req : request) (w : world) :
  method req = "OPTIONS" →
  handle req w = (Return, answered w 200 Empty).
Proof. intros Hm. unfold handle, listener. by rewrite Hm. Qed.

Lemma handle_unauthorized (req : request) (w : world) :
  method req ≠ "OPTIONS" →
  isAuthenticated req = false →
  handle req w
  = (Return, answered w 401 (Error "Unauthorized. Use Bearer token.")).
Proof.
  intros Hm Ha. unfold handle, listener.
  apply String.eqb_neq in Hm. by rewrite Hm, Ha.
Qed.

Section authorized.
Variables (req : request) (w : world).
Hypothesis Hopt : method req ≠ "OPTIONS".
Hypothesis Hauth : isAuthenticated req = true.

Lemma handle_route :
  pathname req ≠ "/users" →
  handle req w = (Next tt, answered w 404 (Error "Route not found")).
Proof.
  intros Hp. unfold handle, listener.
  apply String.eqb_neq in Hopt, Hp. by rewrite Hopt, Hauth, Hp.
Qed.

Hypothesis Hpath : pathname req = "/users".

Lemma handle_users :
  handle req w
  = (if String.eqb (method req) "GET" then
       match given (query_id req) with
       | Some q =>
           match find q (users w) with
           | Some user => (Next tt, answered w 200 (One user))
           | None => (Next tt, answered w 404 (Error "User not found"))
           end
       | None => (Next tt, answered w 200 (All (users w)))
       end
     else if String.eqb (method req) "POST" then
       if is_null (body req) then
         (Throw "TypeError", World (users w) (disk w) [])
       else
         match created (body req) (users w) with
         | Some u => (Next tt, saved (users w ++ [u]) 201 (One u))
         | None =>
             (Return, answered w 400 (Error "Name and email are required"))
         end
     else if String.eqb (method req) "PUT" then
       match given (query_id req) with
       | None => (Return, answered w 400 (Error "User ID is required"))
       | Some q =>
           match list_find (id_is q) (users w) with
           | None => (Return, answered w 404 (Error "User not found"))
           | Some (i, u) =>
               if is_null (body req) then
                 (Throw "TypeError", World (users w) (disk w) [])
               else
                 (Next tt,
                  saved (<[i := updated (body req) u]> (users w)) 200
                    (One (updated (body req) u)))
           end
       end
     else if String.eqb (method req) "DELETE" then
       match given (query_id req) with
       | None => (Return, answered w 400 (Error "User ID is required"))
       | Some q =>
           match list_find (id_is q) (users w) with
           | None => (Return, answered w 404 (Error "User not found"))
           | Some (i, u) =>
               (Next tt,
                saved (delete i (users w)) 200 (Deleted "User deleted" (Some u)))
           end
       end
     else (Next tt, answered w 405 (Error "Method not allowed"))).
Proof.
  unfold handle, listener.
  apply String.eqb_neq in Hopt. rewrite Hopt, Hauth, Hpath. simpl.
  destruct (String.eqb (method req) "GET").
  { destruct (given (query_id req)) as [q|]; exec; [| done].
    by destruct (find q (users w)). }
  destruct (String.eqb (method req) "POST").
  { exec. destruct (is_null (body req)) eqn:Hb.
    { by rewrite get_prop_null. }
    rewrite !(get_prop_own _ _ Hb). unfold created.
    destruct (truthy_value (own_prop (body req) "name")) as [n|];
      exec; [| done].
    by destruct (truthy_value (own_prop (body req) "email")) as [e|]. }
  destruct (String.eqb (method req) "PUT").
  { destruct (given (query_id req)) as [q|]; exec; [| done].
    unfold findIndex.
    destruct (list_find (id_is q) (users w)) as [[i u]|] eqn:Hfind; [| done].
    apply list_find_Some in Hfind as (Hi & _ & _).
    pose proof (lookup_lt_Some _ _ _ Hi) as Hlen.
    cbn [fmap option_fmap option_map fst]. exec.
    destruct (is_null (body req)) eqn:Hb.
    { by rewrite get_prop_null. }
    rewrite !(get_prop_own _ _ Hb). unfold updated.
    destruct (truthy_value (own_prop (body req) "name")) as [n|];
      destruct (truthy_value (own_prop (body req) "email")) as [e|];
      destruct (truthy_value (own_prop (body req) "role")) as [r|];
      exec;
      repeat (rewrite ?Hi, ?list_lookup_insert_eq by (by rewrite ?length_insert);
              rewrite ?list_insert_insert_eq; exec);
      unfold saved; destruct u; try done.
    cbn [id name email role]. by rewrite (list_insert_id _ _ _ Hi). }
  destruct (String.eqb (method req) "DELETE").
  { destruct (given (query_id req)) as [q|]; exec; [| done].
    unfold findIndex.
    destruct (list_find (id_is q) (users w)) as [[i u]|] eqn:Hfind; [| done].
    apply list_find_Some in Hfind as (Hi & _ & _).
    cbn [fmap option_fmap option_map fst]. exec. by rewrite Hi. }
  done.
Qed.

End authorized.

Lemma after_cases (req : request) (w : world) :
  (∃ s p, after req w = answered w s p ∧ s ≠ 201
          ∧ (s = 200 → method req = "GET" ∨ method req = "OPTIONS"))
  ∨ after req w = World (users w) (disk w) []
  ∨ (∃ u, method req = "POST" ∧ created (body req) (users w) = Some u
          ∧ after req w = saved (users w ++ [u]) 201 (One u))
  ∨ (∃ q i u, method req = "PUT" ∧ given (query_id req) = Some q
          ∧ list_find (id_is q) (users w) = Some (i, u)
          ∧ after req w
            = saved (<[i := updated (body req) u]> (users w)) 200
                (One (updated (body req) u)))
  ∨ (∃ q i u, method req = "DELETE" ∧ given (query_id req) = Some q
          ∧ list_find (id_is q) (users w) = Some (i, u)
          ∧ after req w
            = saved (delete i (users w)) 200 (Deleted "User deleted" (Some u))).
Proof.
  unfold after.
  destruct (String.eqb_spec (method req) "OPTIONS") as [Hopt|Hopt].
  { left. rewrite handle_options by done. eauto 10. }
  destruct (isAuthenticated req) eqn:Hauth; last first.
  { left. rewrite handle_unauthorized by done. eexists _, _. by split_and!. }
  destruct (String.eqb_spec (pathname req) "/users") as [Hpath|Hpath];
    last first.
  { left. rewrite handle_route by done. eexists _, _. by split_and!. }
  rewrite handle_users by done.
  destruct (String.eqb_spec (method req) "GET") as [Hget|_].
  { left. destruct (given (query_id req)) as [q|];
      [destruct (find q (users w)) |]; eexists _, _; split_and!; eauto; done. }
  destruct (String.eqb_spec (method req) "POST") as [Hpost|_].
  { destruct (is_null (body req)); [by right; left |].
    destruct (created (body req) (users w)) as [u|] eqn:Hu.
    - right; right; left. eauto.
    - left. eexists _, _. by split_and!. }
  destruct (String.eqb_spec (method req) "PUT") as [Hput|_].
  { destruct (given (query_id req)) as [q|];
      [| left; eexists _, _; by split_and!].
    destruct (list_find (id_is q) (users w)) as [[i u]|] eqn:Hfind;
      [| left; eexists _, _; by split_and!].
    destruct (is_null (body req)); [by right; left |].
    do 3 right; left. eauto 10. }
  destruct (String.eqb_spec (method req) "DELETE") as [Hdel|_].
  { destruct (given (query_id req)) as [q|];
      [| left; eexists _, _; by split_and!].
    destruct (list_find (id_is q) (users w)) as [[i u]|] eqn:Hfind;
      [| left; eexists _, _; by split_and!].
    do 4 right. eauto 10. }
  left. eexists _, _. by split_and!.
Qed.

(** *** Authentication *)

Lemma isAuthenticated_spec (req : request) :
  isAuthenticated req = true
  ↔ authorization req = Some ("Bearer " +:+ AUTH_TOKEN).
Proof.
  unfold isAuthenticated. destruct (authorization req) as [token|]; [| done].
  rewrite String.eqb_eq. split; [by intros -> | by intros [= ->]].
Qed.

(** C4.  A request whose method is not OPTIONS is answered 401 exactly when
    its Authorization header is not the string ["Bearer "] followed by the
    token, whatever its path and method; an OPTIONS request is answered 200
    with an empty body, whatever its Authorization header. *)
Theorem auth_guard (req : request) (w : world) :
  (method req ≠ "OPTIONS" →
   (∃ p, response (out (after req w)) = Some (401, p))
   ↔ authorization req ≠ Some ("Bearer " +:+ AUTH_TOKEN))
  ∧ (method req = "OPTIONS" → handle req w = (Return, answered w 200 Empty)).
Proof.
  split; [| apply handle_options].
  intros Hopt. rewrite <- isAuthenticated_spec.
  destruct (isAuthenticated req) eqn:Hauth.
  - split; [| done]. intros [p Hp]. exfalso.
    revert Hp. unfold after.
    destruct (String.eqb_spec (pathname req) "/users") as [Hpath|Hpath];
      [| by rewrite handle_route].
    rewrite handle_users by done.
    repeat match goal with
           | |- context [if ?b then _ else _] => destruct b
           | |- context [match ?o with Some _ => _ | None => _ end] =>
               destruct o as [[]|]
           end; done.
  - split; [done | intros _]. unfold after.
    rewrite handle_unauthorized by done. eauto.
Qed.

(** *** Errors and persistence *)

(** C10.  When the response has status 400, 401, 404 or 405, the collection
    and the file are what they were before the request, and nothing was
    written. *)
Theorem errors_leave_the_store (req : request) (w : world) (s : Z)
  (p : payload) :
  response (out (after req w)) = Some (s, p) →
  s = 400 ∨ s = 401 ∨ s = 404 ∨ s = 405 →
  users (after req w) = users w
  ∧ disk (after req w) = disk w
  ∧ writes (out (after req w)) = [].
Proof.
  intros Hresp Hs.
  destruct (after_cases req w)
    as [(s' & p' & -> & _)|[->|[(u & _ & _ & Hw)|[(q & i & u & _ & _ & _ & Hw)
        |(q & i & u & _ & _ & _ & Hw)]]]]; try done;
    rewrite Hw in Hresp; injection Hresp as <- <-; lia.
Qed.

(** C8.  When a POST, PUT or DELETE is answered 200 or 201, the effects of
    the request are: the file written with the serialization of the whole
    collection as it is now, then the status, then the body; and the file
    holds that serialization. *)
Theorem file_rewritten_before_response (req : request) (w : world) (s : Z)
  (p : payload) :
  method req = "POST" ∨ method req = "PUT" ∨ method req = "DELETE" →
  response (out (after req w)) = Some (s, p) →
  s = 200 ∨ s = 201 →
  out (after req w)
  = [WriteFile filePath (JSON_stringify (encode_users (users (after req w))));
     WriteHead s; End_ p]
  ∧ disk (after req w) = JSON_stringify (encode_users (users (after req w))).
Proof.
  intros Hm Hresp Hs.
  destruct (after_cases req w)
    as [(s' & p' & Hw & H201 & H200)|[Hw|[(u & _ & _ & Hw)
        |[(q & i & u & _ & _ & _ & Hw)|(q & i & u & _ & _ & _ & Hw)]]]];
    rewrite Hw in Hresp |- *; try done;
    try (injection Hresp as <- <-; done).
  injection Hresp as <- <-. destruct Hs as [->| ->]; [| done].
  destruct (H200 eq_refl) as [Hg|Hg]; rewrite Hg in Hm;
    by destruct Hm as [|[|]].
Qed.

(** *** Creation *)

Lemma Math_max_in (x : Z) (xs : list Z) : Math_max x xs ∈ x :: xs.
Proof.
  unfold Math_max. revert x. induction xs as [|y xs IH]; intros x; simpl.
  - by left.
  - specialize (IH (Z.max x y)).
    apply elem_of_cons in IH as [->|IH]; [| by do 2 right].
    destruct (Z.max_spec x y) as [[_ ->]|[_ ->]]; [right |]; by left.
Qed.

Lemma fold_max_ge (xs : list Z) (a : Z) : a ≤ fold_left Z.max xs a.
Proof.
  revert a. induction xs as [|y xs IH]; intros a; simpl; [lia |].
  etrans; [| apply IH]. lia.
Qed.

Lemma Math_max_ge (x : Z) (xs : list Z) (z : Z) :
  z ∈ x :: xs → z ≤ Math_max x xs.
Proof.
  unfold Math_max. revert x. induction xs as [|y xs IH]; intros x Hz; simpl.
  - apply list_elem_of_singleton in Hz. lia.
  - pose proof (fold_max_ge xs (Z.max x y)) as Hge.
    apply elem_of_cons in Hz as [Hz|Hz]; [lia |].
    apply elem_of_cons in Hz as [Hz|Hz]; [lia |].
    apply IH. by right.
Qed.

Lemma js_add_exact (m : Z) : - 2 ^ 53 ≤ m < 2 ^ 53 → js_add m 1 = m + 1.
Proof. intros Hm. unfold js_add. apply JsonFacts.round53_exact. lia. Qed.

Lemma next_id_empty (us : list user) : us = [] → next_id us = 1.
Proof. by intros ->. Qed.

Lemma next_id_max (us : list user) (m : Z) :
  is_maximum m (id <$> us) → next_id us = js_add m 1.
Proof.
  intros [Hin Hmax]. unfold next_id.
  destruct (id <$> us) as [|x xs]; [by apply elem_of_nil in Hin |].
  f_equal. pose proof (Math_max_in x xs) as H1.
  pose proof (Math_max_ge x xs m Hin) as H2.
  specialize (Hmax _ H1). lia.
Qed.

Lemma truthy_value_Some (o : option json) (v : json) :
  truthy_value o = Some v ↔ o = Some v ∧ truthy v = true.
Proof.
  destruct o as [x|]; simpl; [| split; [done | by intros [? _]]].
  destruct (truthy x) eqn:Hx; split.
  - by intros [= ->].
  - by intros [[= ->] _].
  - done.
  - intros [[= ->] Ht]. congruence.
Qed.

Lemma truthy_value_None (o : option json) :
  truthy_value o = None ↔ truthy_opt o = false.
Proof. destruct o as [x|]; simpl; [| done]. by destruct (truthy x). Qed.

Lemma created_Some (b : json) (us : list user) (u : user) :
  created b us = Some u ↔
  own_prop b "name" = Some (name u) ∧ truthy (name u) = true
  ∧ own_prop b "email" = Some (email u) ∧ truthy (email u) = true
  ∧ id u = next_id us
  ∧ role u = default (JStr "viewer") (truthy_value (own_prop b "role")).
Proof.
  unfold created. split.
  - destruct (truthy_value (own_prop b "name")) as [n|] eqn:Hn; [| done].
    destruct (truthy_value (own_prop b "email")) as [e|] eqn:He; [| done].
    apply truthy_value_Some in Hn as [? ?], He as [? ?].
    simpl. by intros [= <-].
  - intros (Hn & Htn & He & Hte & Hid & Hr).
    rewrite (proj2 (truthy_value_Some _ _) (conj Hn Htn)). simpl.
    rewrite (proj2 (truthy_value_Some _ _) (conj He Hte)). simpl.
    destruct u. simpl in *. by subst.
Qed.

Lemma created_None (b : json) (us : list user) :
  created b us = None ↔
  truthy_opt (own_prop b "name") = false
  ∨ truthy_opt (own_prop b "email") = false.
Proof.
  unfold created. rewrite <- !truthy_value_None.
  destruct (truthy_value (own_prop b "name")) as [n|]; simpl;
    [| split; [by left | done]].
  destruct (truthy_value (own_prop b "email")) as [e|]; simpl;
    [| split; [by right | done]].
  split; [done | by intros [|]].
Qed.

Lemma response_201 (req : request) (w : world) (u : user) :
  response (out (after req w)) = Some (201, One u) →
  method req = "POST" ∧ created (body req) (users w) = Some u
  ∧ after req w = saved (users w ++ [u]) 201 (One u).
Proof.
  intros Hresp.
  destruct (after_cases req w)
    as [(s' & p' & Hw & H201 & _)|[Hw|[(u' & Hm & Hu & Hw)
        |[(q & i & u' & _ & _ & _ & Hw)|(q & i & u' & _ & _ & _ & Hw)]]]];
    rewrite Hw in Hresp; try done.
  - injection Hresp as Hs _. congruence.
  - injection Hresp as Hu'. by subst u'.
Qed.

(** C1, where [+ 1] is exact.  The record a create operation returns is
    appended at the end of the collection; its id is 1 when the collection
    was empty, and one more than the greatest id [m] of the collection when
    [-2^53 <= m < 2^53]. *)
Theorem create_assigns_next_id (req : request) (w : world) (u : user) :
  response (out (after req w)) = Some (201, One u) →
  users (after req w) = users w ++ [u]
  ∧ (users w = [] → id u = 1)
  ∧ (∀ m, is_maximum m (id <$> users w) → - 2 ^ 53 ≤ m < 2 ^ 53 →
          id u = m + 1).
Proof.
  intros (_ & Hu & ->)%response_201.
  apply created_Some in Hu as (_ & _ & _ & _ & -> & _).
  split_and!; [done | apply next_id_empty |].
  intros m Hm Hbound. by rewrite (next_id_max _ m Hm), js_add_exact.
Qed.

Lemma default_truthy (d : json) (o : option json) :
  (truthy_opt o = true → o = Some (default d (truthy_value o)))
  ∧ (truthy_opt o = false → default d (truthy_value o) = d).
Proof.
  destruct o as [v|]; simpl; [| done].
  by destruct (truthy v).
Qed.

Lemma own_prop_not_null (b : json) (k : string) (v : json) :
  own_prop b k = Some v → is_null b = false.
Proof. by destruct b. Qed.

Lemma handle_post (req : request) (w : world) :
  method req = "POST" →
  pathname req = "/users" →
  isAuthenticated req = true →
  is_null (body req) = false →
  handle req w
  = match created (body req) (users w) with
    | Some u => (Next tt, saved (users w ++ [u]) 201 (One u))
    | None => (Return, answered w 400 (Error "Name and email are required"))
    end.
Proof.
  intros Hm Hp Ha Hb.
  rewrite handle_users by (by rewrite ?Hm). by rewrite Hm, Hb.
Qed.

Lemma post_rejected (req : request) (w : world) :
  method req = "POST" →
  pathname req = "/users" →
  isAuthenticated req = true →
  is_null (body req) = false →
  truthy_opt (own_prop (body req) "name") = false
  ∨ truthy_opt (own_prop (body req) "email") = false →
  handle req w = (Return, answered w 400 (Error "Name and email are required")).
Proof.
  intros Hm Hp Ha Hb Hbad. rewrite (handle_post req w Hm Hp Ha Hb).
  by rewrite (proj2 (created_None _ (users w)) Hbad).
Qed.

Lemma post_created (req : request) (w : world) :
  method req = "POST" →
  pathname req = "/users" →
  isAuthenticated req = true →
  is_null (body req) = false →
  truthy_opt (own_prop (body req) "name") = true →
  truthy_opt (own_prop (body req) "email") = true →
  ∃ u, handle req w = (Next tt, saved (users w ++ [u]) 201 (One u))
       ∧ own_prop (body req) "name" = Some (name u)
       ∧ own_prop (body req) "email" = Some (email u)
       ∧ (truthy_opt (own_prop (body req) "role") = true →
          own_prop (body req) "role" = Some (role u))
       ∧ (truthy_opt (own_prop (body req) "role") = false →
          role u = JStr "viewer").
Proof.
  intros Hm Hp Ha Hb Hn He. rewrite (handle_post req w Hm Hp Ha Hb).
  destruct (created (body req) (users w)) as [u|] eqn:Hu; last first.
  { apply created_None in Hu as [Hu|Hu]; congruence. }
  exists u. apply created_Some in Hu as (Hn' & _ & He' & _ & _ & Hr).
  split_and!; try done; rewrite Hr; apply default_truthy.
Qed.

(** C3, with truthiness in the place of presence.  An authenticated POST to
    /users whose parsed body is not [null] is answered 400 with the message
    "Name and email are required", and the store is left as it was, when the
    body's [name] or [email] is missing or falsy; otherwise it is answered
    201 with the created record, which has the body's [name] and [email], and
    whose [role] is the body's [role] when that is truthy and ["viewer"] when
    it is missing or falsy. *)
Theorem post_validates_then_creates (req : request) (w : world) :
  method req = "POST" →
  pathname req = "/users" →
  isAuthenticated req = true →
  is_null (body req) = false →
  (truthy_opt (own_prop (body req) "name") = false
   ∨ truthy_opt (own_prop (body req) "email") = false →
   handle req w
   = (Return, answered w 400 (Error "Name and email are required")))
  ∧ (truthy_opt (own_prop (body req) "name") = true →
     truthy_opt (own_prop (body req) "email") = true →
     ∃ u, handle req w = (Next tt, saved (users w ++ [u]) 201 (One u))
          ∧ own_prop (body req) "name" = Some (name u)
          ∧ own_prop (body req) "email" = Some (email u)
          ∧ (truthy_opt (own_prop (body req) "role") = true →
             own_prop (body req) "role" = Some (role u))
          ∧ (truthy_opt (own_prop (body req) "role") = false →
             role u = JStr "viewer")).
Proof.
  intros Hm Hp Ha Hb. split; [by apply post_rejected | by apply post_created].
Qed.

(** *** Update *)

Lemma handle_put (req : request) (w : world) (q : string) (i : nat) :
  method req = "PUT" →
  pathname req = "/users" →
  isAuthenticated req = true →
  given (query_id req) = Some q →
  findIndex q (users w) = Some i →
  ∃ u, users w !! i = Some u ∧ id_is q u
       ∧ handle req w
         = if is_null (body req) then
             (Throw "TypeError", World (users w) (disk w) [])
           else
             (Next tt,
              saved (<[i := updated (body req) u]> (users w)) 200
                (One (updated (body req) u))).
Proof.
  intros Hm Hp Ha Hq (u & Hi & Hu & Hfind)%findIndex_Some.
  exists u. split_and!; [done.. |].
  rewrite handle_users by (by rewrite ?Hm). by rewrite Hm, Hq, Hfind.
Qed.

(** C2, with truthiness in the place of presence.  An authenticated PUT to
    /users for an id of the collection, with a parsed body that is not
    [null], is answered 200 with the updated record; the record at that place
    takes the body's [name], [email] and [role] where they are truthy, keeps
    its own where they are missing or falsy, and keeps its id, and no other
    record changes; with the body [{}] the record is what it was. *)
Theorem put_applies_truthy_fields (req : request) (w : world) (q : string)
  (i : nat) :
  method req = "PUT" →
  pathname req = "/users" →
  isAuthenticated req = true →
  given (query_id req) = Some q →
  findIndex q (users w) = Some i →
  is_null (body req) = false →
  ∃ u u', users w !! i = Some u ∧ id_is q u
    ∧ handle req w = (Next tt, saved (<[i := u']> (users w)) 200 (One u'))
    ∧ id u' = id u
    ∧ (truthy_opt (own_prop (body req) "name") = true →
       own_prop (body req) "name" = Some (name u'))
    ∧ (truthy_opt (own_prop (body req) "name") = false → name u' = name u)
    ∧ (truthy_opt (own_prop (body req) "email") = true →
       own_prop (body req) "email" = Some (email u'))
    ∧ (truthy_opt (own_prop (body req) "email") = false → email u' = email u)
    ∧ (truthy_opt (own_prop (body req) "role") = true →
       own_prop (body req) "role" = Some (role u'))
    ∧ (truthy_opt (own_prop (body req) "role") = false → role u' = role u)
    ∧ (body req = JObj [] → u' = u ∧ <[i := u']> (users w) = users w).
Proof.
  intros Hm Hp Ha Hq Hi Hb.
  destruct (handle_put req w q i Hm Hp Ha Hq Hi) as (u & Hu & Hqu & Hw).
  rewrite Hb in Hw. exists u, (updated (body req) u).
  split_and!; try done; try apply default_truthy.
  intros ->. assert (updated (JObj []) u = u) as -> by (by destruct u).
  split; [done | by apply list_insert_id].
Qed.

(** C9.  Truthiness, not the presence of a key, decides whether a field
    counts.  A PUT for an id of the collection leaves [name], [email] or
    [role] of the stored record as it was when the body maps that key to a
    falsy value; a POST whose [name] or [email] is falsy is answered 400; a
    POST whose [role] is falsy creates a record with the role ["viewer"].
    The empty string, [0], [false] and [null] are falsy. *)
Theorem falsy_fields_are_skipped :
  (∀ (req : request) (w : world) (q : string) (i : nat) (u u' : user),
     method req = "PUT" → pathname req = "/users" →
     isAuthenticated req = true → given (query_id req) = Some q →
     findIndex q (users w) = Some i →
     users w !! i = Some u → users (after req w) !! i = Some u' →
     (∀ v, own_prop (body req) "name" = Some v → truthy v = false →
           name u' = name u)
     ∧ (∀ v, own_prop (body req) "email" = Some v → truthy v = false →
             email u' = email u)
     ∧ (∀ v, own_prop (body req) "role" = Some v → truthy v = false →
             role u' = role u))
  ∧ (∀ (req : request) (w : world) (v : json),
       method req = "POST" → pathname req = "/users" →
       isAuthenticated req = true →
       own_prop (body req) "name" = Some v
       ∨ own_prop (body req) "email" = Some v →
       truthy v = false →
       handle req w
       = (Return, answered w 400 (Error "Name and email are required")))
  ∧ (∀ (req : request) (w : world) (v : json),
       method req = "POST" → pathname req = "/users" →
       isAuthenticated req = true →
       truthy_opt (own_prop (body req) "name") = true →
       truthy_opt (own_prop (body req) "email") = true →
       own_prop (body req) "role" = Some v → truthy v = false →
       ∃ u, handle req w = (Next tt, saved (users w ++ [u]) 201 (One u))
            ∧ role u = JStr "viewer")
  ∧ truthy (JStr "") = false ∧ truthy (JNum 0) = false
  ∧ truthy (JBool false) = false ∧ truthy JNull = false.
Proof.
  split_and!; try done.
  - intros req w q i u u' Hm Hp Ha Hq Hi Hu Hu'.
    destruct (handle_put req w q i Hm Hp Ha Hq Hi) as (u0 & Hu0 & _ & Hw).
    assert (u0 = u) as -> by congruence.
    unfold after in Hu'. rewrite Hw in Hu'.
    destruct (is_null (body req)) eqn:Hb.
    { assert (u' = u) as -> by (simpl in Hu'; congruence).
      split_and!; intros v Hv; by rewrite (own_prop_not_null _ _ _ Hv) in Hb. }
    simpl in Hu'. rewrite list_lookup_insert_eq in Hu'
      by (by eapply lookup_lt_Some).
    injection Hu' as <-.
    split_and!; intros v Hv Hfalsy; simpl; rewrite Hv; simpl; by rewrite Hfalsy.
  - intros req w v Hm Hp Ha Hv Hfalsy.
    assert (Hb : is_null (body req) = false)
      by (destruct Hv as [Hv|Hv]; by eapply own_prop_not_null).
    apply post_rejected; [done.. |].
    destruct Hv as [Hv|Hv]; rewrite Hv; simpl; auto.
  - intros req w v Hm Hp Ha Hn He Hv Hfalsy.
    pose proof (own_prop_not_null _ _ _ Hv) as Hb.
    destruct (post_created req w Hm Hp Ha Hb Hn He)
      as (u & Hw & _ & _ & _ & Hr).
    exists u. split; [done |]. apply Hr. rewrite Hv. simpl. done.
Qed.

(** *** Deletion *)

Lemma handle_delete (req : request) (w : world) (q : string) (i : nat) :
  method req = "DELETE" →
  pathname req = "/users" →
  isAuthenticated req = true →
  given (query_id req) = Some q →
  findIndex q (users w) = Some i →
  ∃ u, users w !! i = Some u ∧ id_is q u
       ∧ handle req w
         = (Next tt,
            saved (delete i (users w)) 200 (Deleted "User deleted" (Some u))).
Proof.
  intros Hm Hp Ha Hq (u & Hi & Hu & Hfind)%findIndex_Some.
  exists u. split_and!; [done.. |].
  rewrite handle_users by (by rewrite ?Hm). by rewrite Hm, Hq, Hfind.
Qed.

Lemma handle_get_all (req : request) (w : world) :
  method req = "GET" →
  pathname req = "/users" →
  isAuthenticated req = true →
  given (query_id req) = None →
  handle req w = (Next tt, answered w 200 (All (users w))).
Proof.
  intros Hm Hp Ha Hq.
  rewrite handle_users by (by rewrite ?Hm). by rewrite Hm, Hq.
Qed.

Lemma NoDup_delete_absent (l : list Z) (i : nat) (x : Z) :
  NoDup l → l !! i = Some x → x ∉ delete i l.
Proof.
  intros Hl Hi. rewrite <- (take_drop_middle l i x Hi) in Hl.
  rewrite delete_take_drop.
  apply NoDup_app in Hl as (_ & Hleft & Hright%NoDup_cons).
  destruct Hright as [Hx _].
  intros [Hin|Hin]%elem_of_app; [| done].
  apply (Hleft _ Hin). by left.
Qed.

(** *** Sequences of requests *)

Lemma step_ids (req : request) (w : world) :
  id_frame (users w) (users (after req w)).
Proof.
  destruct (after_cases req w)
    as [(s' & p' & -> & _)|[->|[(u & _ & _ & ->)|[(q & i & u & _ & _ & Hf & ->)
        |(q & i & u & _ & _ & _ & ->)]]]]; simpl.
  - by left.
  - by left.
  - right; left. exists (id u). by rewrite fmap_app.
  - left. apply list_find_Some in Hf as (Hi & _ & _).
    rewrite list_fmap_insert. apply list_insert_id.
    by rewrite list_lookup_fmap, Hi.
  - right; right. exists i. by rewrite list_fmap_delete.
Qed.

Lemma step_absent (req : request) (w : world) (n : Z) :
  n ∉ (id <$> users w) →
  n ∉ assigned [req] w →
  n ∉ (id <$> users (after req w)).
Proof.
  intros Hn Hnew. simpl in Hnew.
  destruct (after_cases req w)
    as [(s' & p' & -> & _)|[->|[(u & _ & _ & Hw)|[(q & i & u & _ & _ & Hf & ->)
        |(q & i & u & _ & _ & _ & ->)]]]]; simpl; try done.
  - rewrite Hw in Hnew |- *. simpl in Hnew |- *.
    rewrite fmap_app. intros [Hin|Hin%list_elem_of_singleton]%elem_of_app;
      [done |].
    apply Hnew. rewrite Hin. by left.
  - apply list_find_Some in Hf as (Hi & _ & _).
    rewrite list_fmap_insert, list_insert_id; [done |].
    by rewrite list_lookup_fmap, Hi.
  - rewrite list_fmap_delete. intros Hin. by apply list_elem_of_delete_inv in Hin.
Qed.

Lemma assigned_cons (req : request) (reqs : list request) (w : world) :
  assigned (req :: reqs) w = assigned [req] w ++ assigned reqs (after req w).
Proof.
  simpl. destruct (response (out (after req w))) as [[s []]|]; try done.
  by destruct (s =? 201).
Qed.

Lemma run_absent (reqs : list request) (w : world) (n : Z) :
  n ∉ (id <$> users w) →
  n ∉ assigned reqs w →
  n ∉ (id <$> users (run reqs w)).
Proof.
  revert w. induction reqs as [|req reqs IH]; intros w Hn Hnew; [done |].
  rewrite assigned_cons in Hnew.
  apply not_elem_of_app in Hnew as [Hreq Hreqs].
  apply (IH (after req w)); [by apply step_absent | done].
Qed.

(** C5, for pairwise distinct ids.  In a collection whose ids are pairwise
    distinct, an authenticated DELETE for an id of the collection takes out
    one record, the one with that id, and leaves the others in their order;
    the response is 200 with the message "User deleted" and the removed
    record; no record with that id is left; and as long as no later request
    is answered 201 with that id, every listing of the collection is without
    it. *)
Theorem delete_removes_the_record (req : request) (w : world) (q : string)
  (i : nat) :
  method req = "DELETE" →
  pathname req = "/users" →
  isAuthenticated req = true →
  given (query_id req) = Some q →
  findIndex q (users w) = Some i →
  NoDup (id <$> users w) →
  ∃ u, users w !! i = Some u ∧ id_is q u
    ∧ handle req w
      = (Next tt,
         saved (delete i (users w)) 200 (Deleted "User deleted" (Some u)))
    ∧ S (length (users (after req w))) = length (users w)
    ∧ (id u ∉ (id <$> users (after req w)))
    ∧ ∀ (reqs : list request) (g : request),
        id u ∉ assigned reqs (after req w) →
        method g = "GET" → pathname g = "/users" →
        isAuthenticated g = true → given (query_id g) = None →
        ∃ us, response (out (after g (run reqs (after req w))))
              = Some (200, All us)
              ∧ id u ∉ (id <$> us).
Proof.
  intros Hm Hp Ha Hq Hi Hnodup.
  destruct (handle_delete req w q i Hm Hp Ha Hq Hi) as (u & Hu & Hqu & Hw).
  assert (Hgone : id u ∉ (id <$> users (after req w))).
  { unfold after. rewrite Hw. simpl. rewrite list_fmap_delete.
    apply NoDup_delete_absent; [done |]. by rewrite list_lookup_fmap, Hu. }
  exists u. split_and!; try done.
  - unfold after. rewrite Hw. simpl. rewrite length_delete by eauto.
    apply lookup_lt_Some in Hu. lia.
  - intros reqs g Hnew Hg Hgp Hga Hgq.
    exists (users (run reqs (after req w))). split.
    + unfold after at 1. by rewrite handle_get_all.
    + by apply run_absent.
Qed.

(** *** Uniqueness of ids *)

Lemma next_id_fresh (us : list user) (k : Z) :
  0 < k → within k us →
  (∀ x, x ∈ id <$> us → x < next_id us)
  ∧ - 2 ^ 53 ≤ next_id us ∧ next_id us + (k - 1) ≤ 2 ^ 53.
Proof.
  intros Hk [Hk' Hus]. unfold next_id.
  destruct (id <$> us) as [|x xs] eqn:Hids.
  { split; [by intros x Hx%elem_of_nil | lia]. }
  pose proof (Math_max_in x xs) as Hin.
  rewrite <- Hids in Hin. apply list_elem_of_fmap in Hin as (u & Hu & Hin).
  rewrite Forall_forall in Hus. destruct (Hus u Hin) as [Hlo Hhi].
  rewrite js_add_exact by lia.
  split; [| lia]. intros z Hz. apply Math_max_ge in Hz. lia.
Qed.

Lemma step_unique (req : request) (w : world) (k : Z) :
  0 < k →
  NoDup (id <$> users w) → within k (users w) →
  NoDup (id <$> users (after req w)) ∧ within (k - 1) (users (after req w)).
Proof.
  intros Hk Hnodup Hin.
  assert (Hweak : within (k - 1) (users w)).
  { destruct Hin as [? Hin]. split; [lia |].
    eapply Forall_impl; [exact Hin |]. simpl. lia. }
  destruct (after_cases req w)
    as [(s' & p' & -> & _)|[->|[(u & _ & Hu & ->)|[(q & i & u & _ & _ & Hf & ->)
        |(q & i & u & _ & _ & _ & ->)]]]]; simpl; try done.
  - apply created_Some in Hu as (_ & _ & _ & _ & Hid & _).
    destruct (next_id_fresh (users w) k Hk Hin) as (Hfresh & Hlo & Hhi).
    split.
    + rewrite fmap_app. apply NoDup_app. split_and!; [done | |].
      * intros x Hx [->|[]%elem_of_nil]%elem_of_cons.
        specialize (Hfresh _ Hx). lia.
      * apply NoDup_singleton.
    + destruct Hweak as [? Hweak]. split; [done |].
      apply Forall_app. split; [done |]. apply Forall_singleton. lia.
  - apply list_find_Some in Hf as (Hi & _ & _).
    split.
    + rewrite list_fmap_insert, list_insert_id; [done |].
      by rewrite list_lookup_fmap, Hi.
    + destruct Hweak as [? Hweak]. split; [done |].
      apply Forall_insert; [done |]. simpl.
      rewrite Forall_forall in Hweak. apply Hweak.
      by eapply list_elem_of_lookup_2.
  - split.
    + rewrite list_fmap_delete. eapply sublist_NoDup; [done |].
      apply sublist_delete.
    + destruct Hweak as [? Hweak]. split; [done |]. by apply Forall_delete.
Qed.

Lemma run_unique (reqs : list request) (w : world) :
  NoDup (id <$> users w) →
  within (Z.of_nat (length reqs)) (users w) →
  NoDup (id <$> users (run reqs w)).
Proof.
  revert w. induction reqs as [|req reqs IH]; intros w Hnodup Hin; [done |].
  destruct (step_unique req w (Z.of_nat (length (req :: reqs))))
    as [Hnodup' Hin']; [simpl; lia | done | done |].
  apply (IH (after req w)); [done |].
  replace (Z.of_nat (length reqs))
    with (Z.of_nat (length (req :: reqs)) - 1) by (simpl; lia).
  done.
Qed.

Lemma within_take (reqs : list request) (k : nat) (us : list user) :
  within (Z.of_nat (length reqs)) us →
  within (Z.of_nat (length (take k reqs))) us.
Proof.
  intros [Hk Hus].
  assert (length (take k reqs) ≤ length reqs)%nat
    by (rewrite length_take; lia).
  split; [lia |]. eapply Forall_impl; [exact Hus |]. simpl. lia.
Qed.

(** C6, below 2^53.  Start from a collection whose ids are pairwise distinct
    and at least -2^53, and let the number of requests be such that no id can
    pass 2^53 (the number is at most 2^53, and so is every id plus the
    number).  Then at every point of the sequence the ids are pairwise
    distinct.  Whatever the store, a request leaves the ids of the records,
    position by position, as they were, except that it may add one id at the
    end (create) or take one out (delete). *)
Theorem ids_stay_unique (reqs : list request) (w : world) :
  NoDup (id <$> users w) →
  Z.of_nat (length reqs) ≤ 2 ^ 53 →
  Forall (λ u, - 2 ^ 53 ≤ id u ∧ id u + Z.of_nat (length reqs) ≤ 2 ^ 53)
    (users w) →
  (∀ k, NoDup (id <$> users (run (take k reqs) w)))
  ∧ (∀ req w', id_frame (users w') (users (after req w'))).
Proof.
  intros Hnodup Hlen Hbound. split; [| intros req w'; apply step_ids].
  intros k. apply run_unique; [done |]. by apply within_take.
Qed.

(** *** Persistence *)

Lemma decode_encode_user (u : user) : decode_user (encode_user u) = Some u.
Proof. by destruct u. Qed.

Lemma decode_encode_users (us : list user) :
  decode_users (encode_users us) = Some us.
Proof. apply mapM_fmap_Some, decode_encode_user. Qed.

Lemma wf_encode_users (us : list user) :
  Forall (λ u, wf_user u = true) us → wf_json (encode_users us) = true.
Proof.
  intros Hus. cbn [encode_users wf_json]. apply forallb_forall.
  intros v Hv%list_elem_of_In%list_elem_of_fmap. destruct Hv as (u & -> & Hu).
  rewrite Forall_forall in Hus. by apply Hus.
Qed.

(** C7, for the values that JSON writes back.  Persisting a collection and
    loading the file again gives the same records, in the same order, field
    for field, when no number in the records is an infinity or the negative
    zero.  (What [wf_user] asks besides holds of every value of the language:
    its numbers are Numbers, integers and fractions alike, and its objects
    have their properties in enumeration order.  The two lemmas at the end of
    this module show that neither exclusion can go.) *)
Theorem reload_after_save (w : world) :
  Forall (λ u, wf_user u = true) (users w) →
  ∃ w', startup (Some (disk (saveUsers w).2)) = Some w'
        ∧ users w' = users w.
Proof.
  intros Hwf.
  exists (World (users w) (JSON_stringify (encode_users (users w))) []).
  split; [| reflexivity].
  change (disk (saveUsers w).2)
    with (JSON_stringify (encode_users (users w))).
  unfold startup.
  rewrite (JsonFacts.JSON_parse_stringify _ (wf_encode_users _ Hwf)).
  cbn -[decode_users encode_users JSON_stringify].
  by rewrite decode_encode_users.
Qed.

End listener.

(** *** The theorems at sample requests *)

Import Sample.

(** The scenarios of the specification. *)
Example scenario_create :
  after (post ana_body) (store []) = saved [ana] 201 (One ana).
Proof. reflexivity. Qed.

Example scenario_read :
  after (Request "GET" "/users" (Some "1") bearer JNull) (store [ana])
  = answered (store [ana]) 200 (One ana).
Proof. reflexivity. Qed.

Example scenario_update :
  after (put "1" (JObj [("role", JStr "admin")])) (store [ana])
  = saved [set_role (JStr "admin") ana] 200 (One (set_role (JStr "admin") ana)).
Proof. reflexivity. Qed.

Example scenario_delete :
  after (delete_ "1") (store [ana])
  = saved [] 200 (Deleted "User deleted" (Some ana)).
Proof. reflexivity. Qed.

Example scenario_missing_email :
  after (post (JObj [("name", JStr "X")])) (store [ana])
  = answered (store [ana]) 400 (Error "Name and email are required").
Proof. reflexivity. Qed.

Example scenario_unauthorized :
  after (Request "GET" "/users" None None JNull) (store [ana])
  = answered (store [ana]) 401 (Error "Unauthorized. Use Bearer token.").
Proof. reflexivity. Qed.

(** A request body that is the JSON text [null] makes the listener throw
    before it answers. *)
Example null_body_throws :
  handle (post JNull) (store [ana]) = (Throw "TypeError", store [ana])
  ∧ handle (put "1" JNull) (store [ana]) = (Throw "TypeError", store [ana]).
Proof. split; reflexivity. Qed.

Lemma auth_guard_witness :
  (∃ p, response (out (after (Request "PATCH" "/nowhere" None
                                (Some "Bearer nope") JNull) (store [ana])))
        = Some (401, p))
  ∧ handle options (store [ana]) = (Return, answered (store [ana]) 200 Empty).
Proof.
  split.
  - apply (auth_guard (Request "PATCH" "/nowhere" None (Some "Bearer nope")
                         JNull) (store [ana])); discriminate.
  - apply (auth_guard options (store [ana])). reflexivity.
Defined.

Lemma errors_leave_the_store_witness :
  response (out (after (post (JObj [("name", JStr "X")])) (store [ana])))
  = Some (400, Error "Name and email are required")
  ∧ users (after (post (JObj [("name", JStr "X")])) (store [ana])) = [ana]
  ∧ disk (after (post (JObj [("name", JStr "X")])) (store [ana]))
    = disk (store [ana])
  ∧ writes (out (after (post (JObj [("name", JStr "X")])) (store [ana]))) = [].
Proof.
  split; [reflexivity |].
  apply (errors_leave_the_store (post (JObj [("name", JStr "X")]))
           (store [ana]) 400 (Error "Name and email are required"));
    [reflexivity | left; reflexivity].
Defined.

Lemma file_rewritten_before_response_witness :
  response (out (after (post ana_body) (store [ana])))
  = Some (201, One (User 2 (JStr "Ana") (JStr "a@x.com") (JStr "viewer")))
  ∧ out (after (post ana_body) (store [ana]))
    = [WriteFile filePath
         (JSON_stringify
            (encode_users (users (after (post ana_body) (store [ana])))));
       WriteHead 201;
       End_ (One (User 2 (JStr "Ana") (JStr "a@x.com") (JStr "viewer")))]
  ∧ disk (after (post ana_body) (store [ana]))
    = JSON_stringify
        (encode_users (users (after (post ana_body) (store [ana])))).
Proof.
  split; [reflexivity |].
  apply (file_rewritten_before_response (post ana_body) (store [ana]) 201
           (One (User 2 (JStr "Ana") (JStr "a@x.com") (JStr "viewer"))));
    [left; reflexivity | reflexivity | right; reflexivity].
Defined.

Lemma create_assigns_next_id_witness :
  response (out (after (post ana_body) (store [ana; bo])))
  = Some (201, One (User 3 (JStr "Ana") (JStr "a@x.com") (JStr "viewer")))
  ∧ users (after (post ana_body) (store [ana; bo]))
    = [ana; bo; User 3 (JStr "Ana") (JStr "a@x.com") (JStr "viewer")]
  ∧ is_maximum 2 (id <$> [ana; bo])
  ∧ id (User 3 (JStr "Ana") (JStr "a@x.com") (JStr "viewer")) = 2 + 1.
Proof.
  assert (Hmax : is_maximum 2 (id <$> [ana; bo])).
  { split; [by right; left |].
    intros x [->|[->|[]%elem_of_nil]%elem_of_cons]%elem_of_cons; simpl; lia. }
  destruct (create_assigns_next_id (post ana_body) (store [ana; bo])
              (User 3 (JStr "Ana") (JStr "a@x.com") (JStr "viewer")) eq_refl)
    as (Husers & _ & Hid).
  split_and!; [reflexivity | exact Husers | exact Hmax |].
  apply (Hid 2 Hmax). lia.
Defined.

(** C1 as stated fails where Number addition stops counting: next to a record
    whose id is 2^53, the created record gets the id 2^53 again. *)
Lemma create_at_2_53 :
  ¬ (∀ (engine : Engine) (req : request) (w : world) (u : user) (m : Z),
       response (out (after req w)) = Some (201, One u) →
       is_maximum m (id <$> users w) →
       id u = m + 1).
Proof.
  intros Hclaim.
  specialize (Hclaim digits (post ana_body) (store [last])
                (User 9007199254740992 (JStr "Ana") (JStr "a@x.com")
                   (JStr "viewer"))
                9007199254740992 eq_refl).
  simpl in Hclaim. assert (9007199254740992 = 9007199254740992 + 1); [| lia].
  apply Hclaim. split; [by left |].
  intros x [->|[]%elem_of_nil]%elem_of_cons. lia.
Qed.

Lemma post_validates_then_creates_witness :
  handle (post (JObj [("name", JStr "X")])) (store [ana])
  = (Return, answered (store [ana]) 400 (Error "Name and email are required"))
  ∧ ∃ u, handle (post ana_body) (store []) = (Next tt, saved [u] 201 (One u))
         ∧ role u = JStr "viewer".
Proof.
  split.
  - apply (post_validates_then_creates (post (JObj [("name", JStr "X")]))
             (store [ana])); try reflexivity. right; reflexivity.
  - destruct (post_validates_then_creates (post ana_body) (store [])
                eq_refl eq_refl eq_refl eq_refl) as [_ Hcreate].
    destruct (Hcreate eq_refl eq_refl) as (u & Hu & _ & _ & _ & Hrole).
    exists u. split; [exact Hu | apply Hrole; reflexivity].
Defined.

(** C3 as stated fails on a body that has both keys, one of them with the
    empty string: the answer is 400, not 201. *)
Lemma post_with_empty_name :
  ¬ (∀ (engine : Engine) (req : request) (w : world),
       method req = "POST" → pathname req = "/users" →
       isAuthenticated req = true →
       is_Some (own_prop (body req) "name") →
       is_Some (own_prop (body req) "email") →
       ∃ u, response (out (after req w)) = Some (201, One u)).
Proof.
  intros Hclaim.
  destruct (Hclaim digits
              (post (JObj [("name", JStr ""); ("email", JStr "a@x.com")]))
              (store []) eq_refl eq_refl eq_refl)
    as (u & Hu); [by eexists.. |].
  discriminate Hu.
Qed.

Lemma put_applies_truthy_fields_witness :
  ∃ u u', users (store [ana; bo]) !! 1%nat = Some u
    ∧ handle (put "2" (JObj [("name", JStr "Bob"); ("email", JStr "")]))
        (store [ana; bo])
      = (Next tt, saved [ana; u'] 200 (One u'))
    ∧ id u' = 2 ∧ name u' = JStr "Bob" ∧ email u' = JStr "b@x.com"
    ∧ role u' = JStr "admin".
Proof.
  assert (Hi : findIndex "2" (users (store [ana; bo])) = Some 1%nat)
    by reflexivity.
  destruct (put_applies_truthy_fields
              (put "2" (JObj [("name", JStr "Bob"); ("email", JStr "")]))
              (store [ana; bo]) "2" 1 eq_refl eq_refl eq_refl eq_refl Hi
              eq_refl)
    as (u & u' & Hu & _ & Hw & Hid & Hn & _ & _ & He & _ & Hr & _).
  injection Hu as <-.
  exists bo, u'. split_and!; [reflexivity | exact Hw | exact Hid | | |].
  - specialize (Hn eq_refl). by injection Hn as <-.
  - exact (He eq_refl).
  - exact (Hr eq_refl).
Defined.

(** C2 as stated fails on a body that has a key with the empty string: the
    field is in the input, and the record keeps its own. *)
Lemma put_with_empty_name :
  ¬ (∀ (engine : Engine) (req : request) (w : world) (q : string) (i : nat)
       (u : user) (v : json),
       method req = "PUT" → pathname req = "/users" →
       isAuthenticated req = true → given (query_id req) = Some q →
       findIndex q (users w) = Some i → users w !! i = Some u →
       own_prop (body req) "name" = Some v →
       ∃ u', response (out (after req w)) = Some (200, One u') ∧ name u' = v).
Proof.
  intros Hclaim.
  assert (Hi : findIndex "1" (users (store [ana])) = Some 0%nat)
    by reflexivity.
  destruct (Hclaim digits (put "1" (JObj [("name", JStr "")])) (store [ana])
              "1" 0%nat ana (JStr "") eq_refl eq_refl eq_refl eq_refl Hi
              eq_refl eq_refl)
    as (u' & Hresp & Hname).
  injection Hresp as <-. discriminate Hname.
Qed.

Lemma falsy_fields_are_skipped_witness :
  (∃ u, handle (post (JObj [("name", JStr "Ana"); ("email", JStr "a@x.com");
                            ("role", JStr "")])) (store [])
        = (Next tt, saved [u] 201 (One u))
        ∧ role u = JStr "viewer")
  ∧ handle (post (JObj [("name", JStr ""); ("email", JStr "a@x.com")]))
      (store [])
    = (Return, answered (store []) 400 (Error "Name and email are required")).
Proof.
  destruct falsy_fields_are_skipped as (_ & Hpost & Hrole & _).
  split.
  - apply (Hrole (post (JObj [("name", JStr "Ana"); ("email", JStr "a@x.com");
                              ("role", JStr "")])) (store []) (JStr ""));
      reflexivity.
  - apply (Hpost (post (JObj [("name", JStr ""); ("email", JStr "a@x.com")]))
             (store []) (JStr "")); try reflexivity. left; reflexivity.
Defined.

Lemma delete_removes_the_record_witness :
  handle (delete_ "1") (store [ana; bo])
  = (Next tt, saved [bo] 200 (Deleted "User deleted" (Some ana)))
  ∧ ∃ us, response (out (after get_all
                          (run [post ana_body; put "2" (JObj [])]
                             (after (delete_ "1") (store [ana; bo])))))
          = Some (200, All us)
          ∧ 1 ∉ (id <$> us).
Proof.
  assert (Hi : findIndex "1" (users (store [ana; bo])) = Some 0%nat)
    by reflexivity.
  assert (Hnodup : NoDup (id <$> users (store [ana; bo]))).
  { apply NoDup_cons. split; [| apply NoDup_singleton].
    intros [=]%list_elem_of_singleton. }
  destruct (delete_removes_the_record (delete_ "1") (store [ana; bo]) "1" 0
              eq_refl eq_refl eq_refl eq_refl Hi Hnodup)
    as (u & Hu & _ & Hw & _ & _ & Hlater).
  injection Hu as <-. split; [exact Hw |].
  apply (Hlater [post ana_body; put "2" (JObj [])] get_all);
    try reflexivity.
  intros [[=]|[]%elem_of_nil]%elem_of_cons.
Defined.

(** C5 as stated fails when two records have the id: the first one goes, the
    other stays.  Such a collection is what a POST leaves next to a record
    whose id is 2^53. *)
Lemma delete_leaves_a_duplicate :
  ¬ (∀ (engine : Engine) (req : request) (w : world) (q : string) (i : nat)
       (u : user),
       method req = "DELETE" → pathname req = "/users" →
       isAuthenticated req = true → given (query_id req) = Some q →
       findIndex q (users w) = Some i → users w !! i = Some u →
       id u ∉ (id <$> users (after req w))).
Proof.
  intros Hclaim.
  assert (Hi : findIndex "9007199254740992"
                 (users (after (post ana_body) (store [last]))) = Some 0%nat)
    by reflexivity.
  apply (Hclaim digits (delete_ "9007199254740992")
           (after (post ana_body) (store [last])) "9007199254740992" 0%nat last
           eq_refl eq_refl eq_refl eq_refl Hi eq_refl).
  by left.
Qed.

Lemma ids_stay_unique_witness :
  NoDup (id <$> users (run [post ana_body; delete_ "1"; post ana_body]
                         (store [ana; bo])))
  ∧ id_frame (users (store [ana; bo]))
      (users (after (put "2" (JObj [("name", JStr "Bob")])) (store [ana; bo]))).
Proof.
  assert (Hnodup : NoDup (id <$> users (store [ana; bo]))).
  { apply NoDup_cons. split; [| apply NoDup_singleton].
    intros [=]%list_elem_of_singleton. }
  assert (Hbound :
    Forall (λ u, - 2 ^ 53 ≤ id u
                 ∧ id u + Z.of_nat (length [post ana_body; delete_ "1";
                                            post ana_body]) ≤ 2 ^ 53)
      (users (store [ana; bo]))).
  { repeat apply Forall_cons_2; [simpl; lia.. | apply Forall_nil_2]. }
  destruct (ids_stay_unique [post ana_body; delete_ "1"; post ana_body]
              (store [ana; bo]) Hnodup ltac:(simpl; lia) Hbound)
    as [Hrun Hframe].
  split; [exact (Hrun 3%nat) | apply Hframe].
Defined.

(** C6 as stated fails next to a record whose id is 2^53: the created record
    gets that id again. *)
Lemma create_duplicates_2_53 :
  ¬ (∀ (engine : Engine) (reqs : list request) (w : world),
       NoDup (id <$> users w) → NoDup (id <$> users (run reqs w))).
Proof.
  intros Hclaim.
  specialize (Hclaim digits [post ana_body] (store [last])
                (NoDup_singleton _)).
  apply NoDup_cons in Hclaim as [Hin _]. apply Hin. by left.
Qed.

Lemma reload_after_save_witness :
  Forall (λ u, wf_user u = true) (users (store [ana; bo]))
  ∧ ∃ w', startup (Some (disk (saveUsers (store [ana; bo])).2)) = Some w'
          ∧ users w' = [ana; bo].
Proof.
  assert (Hwf : Forall (λ u, wf_user u = true) (users (store [ana; bo])))
    by (repeat apply Forall_cons_2; [reflexivity.. | apply Forall_nil_2]).
  split; [exact Hwf |]. apply (reload_after_save (store [ana; bo]) Hwf).
Defined.

(** [JSON.parse] returns an infinity for a literal beyond the range of
    Number, and [JSON.stringify] writes an infinity as [null]. *)
Example parse_overflow :
  JSON_parse (power_of_ten 21) = Some (JNum (10 ^ 21))
  ∧ JSON_parse (power_of_ten 308) = Some (JNum (round53 (10 ^ 308)))
  ∧ JSON_parse (power_of_ten 309) = Some (JInf false)
  ∧ JSON_stringify (JArr [JInf false]) = JSON_stringify (JArr [JNull]).
Proof. split_and!; by vm_compute. Qed.

(** Numbers are written with the digits of Number::toString, the fewest
    that denote the Number, and read to the nearest Number. *)
Example number_texts :
  JSON_stringify (JFrac 3 1) = "1.5"
  ∧ JSON_stringify (JFrac 3602879701896397 55) = "0.1"
  ∧ JSON_stringify (JFrac (-5) 3) = "-0.625"
  ∧ JSON_stringify (JNum (10 ^ 21)) = "1e+21"
  ∧ JSON_stringify (JNum (2 ^ 60)) = "1152921504606847000"
  ∧ JSON_stringify (JFrac 1 1074) = "5e-324"
  ∧ JSON_stringify (JFrac 1 20) = "9.5367431640625e-7"
  ∧ JSON_parse "1152921504606847000" = Some (JNum (2 ^ 60))
  ∧ JSON_parse "0.1" = Some (JFrac 3602879701896397 55)
  ∧ JSON_parse "15e-1" = Some (JFrac 3 1)
  ∧ JSON_parse "2.50E+2" = Some (JNum 250)
  ∧ JSON_parse "9007199254740993" = Some (JNum 9007199254740992)
  ∧ JSON_parse "-0.0" = Some JNegZero
  ∧ JSON_parse "1e-400" = Some (JNum 0).
Proof. split_and!; by vm_compute. Qed.

(** A record with fractions, an exponent and an integer beyond 2^53 is
    loaded again as it was saved. *)
Example reload_keeps_fractions :
  wf_user measures = true
  ∧ startup (Some (disk (saveUsers (store [ana; measures])).2))
    = Some (store [ana; measures]).
Proof. split; by vm_compute. Qed.

(** C7 as stated fails on a record that holds an infinity, which a POST
    stores when the body has a number beyond the range of Number: the file
    holds [null] in its place. *)
Lemma reload_loses_infinity :
  ¬ (∀ w : world,
       ∃ w', startup (Some (disk (saveUsers w).2)) = Some w'
             ∧ users w' = users w).
Proof.
  intros Hclaim.
  destruct (Hclaim (after (post overflow_body) (store [])))
    as (w' & Hstart & Husers).
  vm_compute in Hstart. injection Hstart as <-. discriminate Husers.
Qed.

(** Leaving the infinities out is not enough: the negative zero, which a POST
    stores when the body has it inside an array or an object, is written as
    [0]. *)
Lemma reload_loses_negative_zero :
  ¬ (∀ w : world,
       Forall (λ u, no_infinity (encode_user u) = true) (users w) →
       ∃ w', startup (Some (disk (saveUsers w).2)) = Some w'
             ∧ users w' = users w).
Proof.
  intros Hclaim.
  destruct (Hclaim (after (post negative_zero_body) (store [])))
    as (w' & Hstart & Husers).
  - by apply Forall_singleton.
  - vm_compute in Hstart. injection Hstart as <-. discriminate Husers.
Qed.

End ServerFacts.

(** ** The listener, request by request *)

Module ListenerFacts.
Import Js Json Server.

Section listener.
Context `{engine : Engine}.

(** The branch a request takes. *)
Ltac branches req w :=
  destruct (String.eqb_spec (method req) "OPTIONS") as [Hopt|Hopt];
  [ rewrite ?(ServerFacts.handle_options req w Hopt)
  | destruct (isAuthenticated req) eqn:Hauth;
    [ destruct (String.eqb_spec (pathname req) "/users") as [Hpath|Hpath];
      [ rewrite ?(ServerFacts.handle_users req w Hopt Hauth Hpath)
      | rewrite ?(ServerFacts.handle_route req w Hopt Hauth Hpath) ]
    | rewrite ?(ServerFacts.handle_unauthorized req w Hopt Hauth) ] ].

Ltac methods req :=
  destruct (String.eqb_spec (method req) "GET") as [Hget|Hget];
  [| destruct (String.eqb_spec (method req) "POST") as [Hpost|Hpost];
     [| destruct (String.eqb_spec (method req) "PUT") as [Hput|Hput];
        [| destruct (String.eqb_spec (method req) "DELETE") as [Hdel|Hdel] ] ] ].

(** The listener reads the collection and the file, not the effects of the
    requests before. *)
Lemma handle_store (req : request) (w w' : world) :
  users w' = users w → disk w' = disk w → handle req w' = handle req w.
Proof. unfold handle. by intros -> ->. Qed.

Lemma find_None (q : string) (us : list user) :
  find q us = None ↔ Forall (λ u, ¬ id_is q u) us.
Proof.
  unfold find.
  destruct (list_find (id_is q) us) as [[i u]|] eqn:Hfind; simpl.
  - split; [done |]. intros Hnone.
    apply (proj2 (list_find_None (id_is q) us)) in Hnone. congruence.
  - split; [| done]. intros _.
    by apply (proj1 (list_find_None (id_is q) us)).
Qed.

Lemma find_None_list_find (q : string) (us : list user) :
  find q us = None → list_find (id_is q) us = None.
Proof. unfold find. by destruct (list_find _ us). Qed.

(** *** Reading *)

(** X1.  An authenticated GET /users with an id is answered 200 with a record
    exactly when that record is the first of the collection whose id equals
    the parameter, and 404 "User not found" exactly when no record has that
    id. *)
Theorem get_by_id (req : request) (w : world) (q : string) :
  method req = "GET" →
  pathname req = "/users" →
  isAuthenticated req = true →
  given (query_id req) = Some q →
  (∀ u, handle req w = (Next tt, answered w 200 (One u))
        ↔ ∃ i, users w !! i = Some u ∧ id_is q u
               ∧ ∀ j v, users w !! j = Some v → (j < i)%nat → ¬ id_is q v)
  ∧ (handle req w = (Next tt, answered w 404 (Error "User not found"))
     ↔ Forall (λ u, ¬ id_is q u) (users w)).
Proof.
  intros Hm Hp Ha Hq.
  assert (Hopt : method req ≠ "OPTIONS") by by rewrite Hm.
  rewrite (ServerFacts.handle_users req w Hopt Ha Hp), Hm, Hq.
  cbn [String.eqb Ascii.eqb Bool.eqb].
  rewrite <- find_None. unfold find. split.
  - intros u. split.
    + destruct (list_find _ (users w)) as [[i u']|] eqn:Hfind; [| done].
      intros [= ->]. exists i. by apply list_find_Some in Hfind.
    + intros (i & Hfind).
      apply (proj2 (list_find_Some (id_is q) _ _ _)) in Hfind.
      by rewrite Hfind.
  - by destruct (list_find _ (users w)) as [[i u']|].
Qed.

(** X2.  The listener reads the id parameter only to test whether it is
    there and not empty and, if so, to compare it: a request with an empty id
    is handled as the request without one, and a request whose method is not
    GET, PUT or DELETE is handled the same whatever the parameter. *)
Theorem query_id_use (req : request) (w : world) (q : option string) :
  (given q = given (query_id req) →
   handle (with_query q req) w = handle req w)
  ∧ handle (with_query (Some "") req) w = handle (with_query None req) w
  ∧ (method req ≠ "GET" → method req ≠ "PUT" → method req ≠ "DELETE" →
     handle (with_query q req) w = handle req w).
Proof.
  split_and!.
  - intros Hq. unfold handle, listener, isAuthenticated. simpl. by rewrite Hq.
  - done.
  - intros Hget Hput Hdel. unfold handle, listener, isAuthenticated. simpl.
    apply String.eqb_neq in Hget, Hput, Hdel. by rewrite Hget, Hput, Hdel.
Qed.

(** X3.  A GET, whatever its path, header and parameter, is answered with
    exactly one response and never throws; it leaves the collection and the
    file as they are and writes nothing; and its answer depends on the
    collection alone, not on the file. *)
Theorem get_is_read_only (req : request) (w : world) :
  method req = "GET" →
  users (after req w) = users w
  ∧ disk (after req w) = disk w
  ∧ (∃ s p, out (after req w) = [WriteHead s; End_ p])
  ∧ (∀ e, (handle req w).1 ≠ Throw e)
  ∧ (∀ w', users w' = users w → out (after req w') = out (after req w)).
Proof.
  intros Hm.
  assert (Hcases : ∀ v, ∃ o s p,
             handle req v = (o, answered v s p) ∧ (∀ e, o ≠ Throw e)
             ∧ ∀ v', users v' = users v →
                     ∃ o', handle req v' = (o', answered v' s p)).
  { intros v.
    assert (Hopt : method req ≠ "OPTIONS") by by rewrite Hm.
    destruct (isAuthenticated req) eqn:Hauth; last first.
    { eexists _, _, _. rewrite ServerFacts.handle_unauthorized by done.
      split_and!; [done.. |]. intros v' _.
      rewrite ServerFacts.handle_unauthorized by done. eauto. }
    destruct (String.eqb_spec (pathname req) "/users") as [Hpath|Hpath];
      last first.
    { eexists _, _, _. rewrite ServerFacts.handle_route by done.
      split_and!; [done.. |]. intros v' _.
      rewrite ServerFacts.handle_route by done. eauto. }
    setoid_rewrite (ServerFacts.handle_users req _ Hopt Hauth Hpath).
    rewrite Hm. cbn [String.eqb Ascii.eqb Bool.eqb].
    destruct (given (query_id req)) as [q|].
    - destruct (find q (users v)) as [u|] eqn:Hfind;
        eexists _, _, _; (split_and!; [done.. |]);
        intros v' ->; rewrite Hfind; eauto.
    - eexists _, _, _. split_and!; [done.. |]. intros v' ->. eauto. }
  destruct (Hcases w) as (o & s & p & Hw & Ho & Hw').
  unfold after. rewrite Hw. split_and!; [done | done | by eexists _, _ | | ].
  - intros e. apply Ho.
  - intros w' Hus. destruct (Hw' w' Hus) as [o' ->]. done.
Qed.

(** X4.  The listener throws exactly when the parsed body is [null] and is
    read: for an authenticated POST /users, and for an authenticated PUT
    /users with the id of a record.  What is thrown is a TypeError, before any
    response, any change to the collection and any write. *)
Theorem throws_on_null_body_only (req : request) (w : world) :
  ((∃ e, (handle req w).1 = Throw e)
   ↔ method req ≠ "OPTIONS" ∧ isAuthenticated req = true
     ∧ pathname req = "/users" ∧ is_null (body req) = true
     ∧ (method req = "POST"
        ∨ method req = "PUT"
          ∧ ∃ q, given (query_id req) = Some q
                 ∧ is_Some (find q (users w))))
  ∧ (∀ e, (handle req w).1 = Throw e →
          e = "TypeError" ∧ after req w = World (users w) (disk w) []).
Proof.
  unfold after.
  branches req w;
    [ split; [split; [by intros [? [=]] | by intros (? & _)] | by intros ? [=]]
    | | split; [split; [by intros [? [=]] | by intros (_ & _ & ? & _)]
              | by intros ? [=]]
    | split; [split; [by intros [? [=]] | by intros (_ & [=] & _)]
             | by intros ? [=]] ].
  methods req.
  - rewrite Hget. split; [split |].
    + destruct (given (query_id req)) as [q|];
        [destruct (find q (users w)) |]; by intros [? [=]].
    + by intros (_ & _ & _ & _ & [[=] | [[=] _]]).
    + destruct (given (query_id req)) as [q|];
        [destruct (find q (users w)) |]; by intros ? [=].
  - destruct (is_null (body req)).
    + split; [split; [intros _ | by eexists] | by intros e [= <-]].
      split_and!; auto.
    + split; [split |].
      * destruct (created _ _); by intros [? [=]].
      * by intros (_ & _ & _ & [=] & _).
      * destruct (created _ _); by intros ? [=].
  - unfold find. destruct (given (query_id req)) as [q|];
      [destruct (list_find (id_is q) (users w)) as [[i u]|] eqn:Hfind;
       [destruct (is_null (body req)) |] |].
    + split; [split; [intros _ | by eexists] | by intros e [= <-]].
      split_and!; auto. right. split; [done |]. exists q. split; [done |].
      rewrite Hfind. by eexists.
    + split; [split; [by intros [? [=]] | by intros (_ & _ & _ & [=] & _)]
             | by intros ? [=]].
    + split; [split; [by intros [? [=]] |] | by intros ? [=]].
      intros (_ & _ & _ & _ & [? | (_ & q' & [= <-] & [? Hsome])]);
        [congruence |]. by rewrite Hfind in Hsome.
    + split; [split; [by intros [? [=]] |] | by intros ? [=]].
      intros (_ & _ & _ & _ & [? | (_ & q' & [=] & _)]). congruence.
  - split; [split |].
    + destruct (given (query_id req)) as [q|];
        [destruct (list_find (id_is q) (users w)) as [[i u]|] |]; by intros [? [=]].
    + intros (_ & _ & _ & _ & [? | [? _]]); congruence.
    + destruct (given (query_id req)) as [q|];
        [destruct (list_find (id_is q) (users w)) as [[i u]|] |]; by intros ? [=].
  - split; [split; [by intros [? [=]] |] | by intros ? [=]].
    intros (_ & _ & _ & _ & [? | [? _]]); congruence.
Qed.

(** *** Errors *)

(** X5.  An authenticated PUT or DELETE /users is checked for its id before
    its body is read: without an id, or with an empty one, it is answered 400
    "User ID is required", and with an id that no record has it is answered
    404 "User not found", whatever the body, a [null] body included. *)
Theorem id_checked_before_body (req : request) (w : world) :
  method req = "PUT" ∨ method req = "DELETE" →
  pathname req = "/users" →
  isAuthenticated req = true →
  (query_id req = None ∨ query_id req = Some "" →
   handle req w = (Return, answered w 400 (Error "User ID is required")))
  ∧ (∀ q, given (query_id req) = Some q →
          Forall (λ u, ¬ id_is q u) (users w) →
          handle req w = (Return, answered w 404 (Error "User not found"))).
Proof.
  intros Hm Hp Ha.
  assert (Hopt : method req ≠ "OPTIONS") by (by destruct Hm as [-> | ->]).
  rewrite (ServerFacts.handle_users req w Hopt Ha Hp). split.
  - intros Hq.
    assert (given (query_id req) = None) as -> by (by destruct Hq as [-> | ->]).
    by destruct Hm as [-> | ->].
  - intros q -> Hnone.
    apply (proj2 (list_find_None (id_is q) (users w))) in Hnone.
    rewrite Hnone. by destruct Hm as [-> | ->].
Qed.

(** X6.  Only POST and PUT read the body, and PUT only once the id is that of
    a record: any other request is handled the same whatever its body. *)
Theorem body_read_by_post_and_put (req : request) (w : world) (b : json) :
  (method req ≠ "POST" → method req ≠ "PUT" →
   handle (with_body b req) w = handle req w)
  ∧ (method req = "PUT" →
     (∀ q, given (query_id req) = Some q → find q (users w) = None) →
     handle (with_body b req) w = handle req w).
Proof.
  assert (Hsame : isAuthenticated (with_body b req) = isAuthenticated req)
    by done.
  split.
  - intros Hpost Hput. unfold handle, listener. rewrite Hsame. simpl.
    apply String.eqb_neq in Hpost, Hput. by rewrite Hpost, Hput.
  - intros Hput Hq. unfold handle, listener. rewrite Hsame. simpl.
    rewrite Hput. cbn [String.eqb Ascii.eqb Bool.eqb].
    destruct (isAuthenticated req); [| done]. cbn [negb].
    destruct (String.eqb (pathname req) "/users"); [| done].
    destruct (given (query_id req)) as [q|]; [| done].
    specialize (Hq q eq_refl). apply find_None_list_find in Hq.
    unfold mbind, M_bind, get_users, findIndex. cbn [users]. by rewrite Hq.
Qed.

(** X7.  Among the requests that pass the OPTIONS and the authentication
    checks, 404 "Route not found" answers exactly those whose path is not
    /users, whatever their method, and 405 answers exactly those to /users
    whose method is none of GET, POST, PUT, DELETE (compared as written, so a
    lower-case method is among them). *)
Theorem route_then_method (req : request) (w : world) :
  method req ≠ "OPTIONS" →
  isAuthenticated req = true →
  (response (out (after req w)) = Some (404, Error "Route not found")
   ↔ pathname req ≠ "/users")
  ∧ ((∃ p, response (out (after req w)) = Some (405, p))
     ↔ pathname req = "/users"
       ∧ method req ∉ ["GET"; "POST"; "PUT"; "DELETE"])
  ∧ (∀ p, response (out (after req w)) = Some (405, p) →
          p = Error "Method not allowed").
Proof.
  intros Hopt Ha. unfold after.
  destruct (String.eqb_spec (pathname req) "/users") as [Hpath|Hpath];
    last first.
  { rewrite (ServerFacts.handle_route req w Hopt Ha Hpath).
    split_and!; [done | | by intros p [=]].
    split; [by intros [p [=]] | by intros [? _]]. }
  rewrite (ServerFacts.handle_users req w Hopt Ha Hpath).
  assert (Hin : ∀ m : string,
             m ∈ ["GET"; "POST"; "PUT"; "DELETE"]
             ↔ m = "GET" ∨ m = "POST" ∨ m = "PUT" ∨ m = "DELETE").
  { intros m. rewrite !elem_of_cons, elem_of_nil. tauto. }
  rewrite Hin.
  methods req.
  1-4: split_and!;
    [ split; [| done];
      repeat match goal with
             | |- context [if ?b then _ else _] => destruct b
             | |- context [match ?o with Some _ => _ | None => _ end] =>
                 destruct o as [[]|]
             end; by intros [=]
    | split; [| intros [_ Hno]; exfalso; apply Hno; auto];
      repeat match goal with
             | |- context [if ?b then _ else _] => destruct b
             | |- context [match ?o with Some _ => _ | None => _ end] =>
                 destruct o as [[]|]
             end; by intros [p [=]]
    | repeat match goal with
             | |- context [if ?b then _ else _] => destruct b
             | |- context [match ?o with Some _ => _ | None => _ end] =>
                 destruct o as [[]|]
             end; by intros p [=] ].
  split_and!; [done | | by intros p [= <-]].
  split; [intros _ | by eexists]. split; [done |].
  by intros [? | [? | [? | ?]]].
Qed.

(** *** Responses *)

Ltac crush :=
  repeat match goal with
         | |- context [if ?b then _ else _] => destruct b
         | |- context [match ?o with Some _ => _ | None => _ end] =>
             destruct o as [[]|]
         end.

(** X8.  A request is answered at most once: either the listener throws and
    has done nothing, or it has sent one head, with one of six statuses, and
    after it one payload, and before them it has written the file at most
    once, and then the file [users.json]. *)
Theorem one_response_per_request (req : request) (w : world) :
  (out (after req w) = [] ∧ ∃ e, (handle req w).1 = Throw e)
  ∨ ∃ s p, s ∈ statuses ∧ (∀ e, (handle req w).1 ≠ Throw e)
      ∧ (out (after req w) = [WriteHead s; End_ p]
         ∨ ∃ data, out (after req w)
                   = [WriteFile filePath data; WriteHead s; End_ p]).
Proof.
  unfold after, statuses.
  branches req w; [| methods req |..]; crush; cbn [fst snd out answered saved];
    first [ left; split; [done | by eexists]
          | right; eexists _, _;
            split; [| split; [done | first [by left | right; by eexists]]];
            repeat first [apply list_elem_of_here
                         | apply list_elem_of_further] ].
Qed.

(** X9.  The status of a response tells the form of its payload: an error
    message comes with 400, 401, 404 or 405 and is one of six; the empty
    payload answers OPTIONS; one record comes with 200 for GET and PUT and
    with 201 for POST; the whole collection, as it is, with 200 for GET; and
    the deletion message with the removed record with 200 for DELETE. *)
Theorem status_tells_payload (req : request) (w : world) (s : Z)
  (p : payload) :
  response (out (after req w)) = Some (s, p) →
  match p with
  | Empty => s = 200 ∧ method req = "OPTIONS"
  | Error msg =>
      (s, msg) ∈ [(400, "Name and email are required");
                  (400, "User ID is required");
                  (401, "Unauthorized. Use Bearer token.");
                  (404, "User not found");
                  (404, "Route not found");
                  (405, "Method not allowed")]
  | One u =>
      s = 200 ∧ (method req = "GET" ∨ method req = "PUT")
      ∨ s = 201 ∧ method req = "POST"
  | All us => s = 200 ∧ method req = "GET" ∧ us = users w
  | Deleted msg u =>
      s = 200 ∧ method req = "DELETE" ∧ msg = "User deleted" ∧ is_Some u
  end.
Proof.
  unfold after.
  branches req w; [| methods req |..]; crush; cbn [fst snd out answered saved];
    intros [= <- <-];
    first [ solve [repeat first [apply list_elem_of_here
                                | apply list_elem_of_further]]
          | solve [split_and!; first [by eexists | by auto]]
          | solve [left; split_and!; by auto]
          | solve [right; split_and!; by auto] ].
Qed.

(** *** One request after another *)

Lemma list_find_insert_same (q : string) (us : list user) (i : nat)
  (u u' : user) :
  list_find (id_is q) us = Some (i, u) →
  id u' = id u →
  list_find (id_is q) (<[i := u']> us) = Some (i, u').
Proof.
  intros Hfind Hid. apply list_find_Some in Hfind as (Hi & Hq & Hlt).
  apply (proj2 (list_find_Some (id_is q) _ _ _)). split_and!.
  - apply list_lookup_insert_eq. by eapply lookup_lt_Some.
  - unfold id_is in *. by rewrite Hid.
  - intros j v Hj Hji. rewrite list_lookup_insert_ne in Hj by lia. eauto.
Qed.

Lemma list_find_app_last (q : string) (us : list user) (u : user) :
  Forall (λ v, ¬ id_is q v) us →
  id_is q u →
  list_find (id_is q) (us ++ [u]) = Some (length us, u).
Proof.
  intros Hnone Hq. apply (proj2 (list_find_Some (id_is q) _ _ _)). split_and!.
  - by apply list_lookup_middle.
  - done.
  - intros j v Hj Hlt. rewrite lookup_app_l in Hj by done.
    by eapply (proj1 (Forall_lookup _ _) Hnone).
Qed.

Lemma list_find_delete_None (q : string) (us : list user) (i : nat)
  (u : user) :
  NoDup (id <$> us) →
  list_find (id_is q) us = Some (i, u) →
  list_find (id_is q) (delete i us) = None.
Proof.
  intros Hnodup Hfind. apply list_find_Some in Hfind as (Hi & Hq & _).
  apply (proj2 (list_find_None (id_is q) _)). apply Forall_forall.
  intros v Hv Hqv.
  assert (Hid : id v = id u) by (unfold id_is in *; congruence).
  apply (ServerFacts.NoDup_delete_absent (id <$> us) i (id u) Hnodup).
  - by rewrite list_lookup_fmap, Hi.
  - rewrite <- list_fmap_delete, <- Hid. by apply list_elem_of_fmap_2.
Qed.

Lemma users_saved (us : list user) (s : Z) (p : payload) :
  users (saved us s p) = us.
Proof. done. Qed.

Lemma updated_idem (b : json) (u : user) :
  updated b (updated b u) = updated b u.
Proof.
  unfold updated. cbn [id name email role].
  by destruct (truthy_value (own_prop b "name")),
    (truthy_value (own_prop b "email")), (truthy_value (own_prop b "role")).
Qed.

(** X10.  A record that was just created is found by its id: after a POST
    answered 201 in a collection whose ids lie from -2^53 to 2^53 - 1, an
    authenticated GET /users with an id parameter that denotes the new id is
    answered 200 with the created record. *)
Theorem create_then_get (req g : request) (w : world) (u : user)
  (q : string) :
  response (out (after req w)) = Some (201, One u) →
  within 1 (users w) →
  method g = "GET" →
  pathname g = "/users" →
  isAuthenticated g = true →
  given (query_id g) = Some q →
  ToNumber q = Some (id u) →
  handle g (after req w) = (Next tt, answered (after req w) 200 (One u)).
Proof.
  intros Hresp Hwithin Hm Hp Ha Hq Hnum.
  apply ServerFacts.response_201 in Hresp as (_ & Hu & Hafter).
  apply ServerFacts.created_Some in Hu as (_ & _ & _ & _ & Hid & _).
  destruct (ServerFacts.next_id_fresh (users w) 1 ltac:(lia) Hwithin)
    as (Hfresh & _).
  assert (Hopt : method g ≠ "OPTIONS") by by rewrite Hm.
  rewrite (ServerFacts.handle_users g _ Hopt Ha Hp), Hm, Hq, Hafter.
  cbn [String.eqb Ascii.eqb Bool.eqb]. unfold saved, find. cbn [users].
  rewrite list_find_app_last; [done | | done].
  apply Forall_forall. intros v Hv Hqv.
  assert (id v = id u) as Hvu by (unfold id_is in Hqv; congruence).
  specialize (Hfresh (id v) (list_elem_of_fmap_2 id _ _ Hv)). lia.
Qed.

(** X11.  A record that was just updated is found by the same id, as
    updated: after a PUT answered 200 with a record, an authenticated GET
    /users with the same id parameter is answered 200 with that record. *)
Theorem update_then_get (req g : request) (w : world) (u' : user)
  (q : string) :
  method req = "PUT" →
  given (query_id req) = Some q →
  response (out (after req w)) = Some (200, One u') →
  method g = "GET" →
  pathname g = "/users" →
  isAuthenticated g = true →
  given (query_id g) = Some q →
  handle g (after req w) = (Next tt, answered (after req w) 200 (One u')).
Proof.
  intros Hput Hq Hresp Hm Hp Ha Hgq.
  assert (Hopt : method g ≠ "OPTIONS") by by rewrite Hm.
  rewrite (ServerFacts.handle_users g _ Hopt Ha Hp), Hm, Hgq.
  cbn [String.eqb Ascii.eqb Bool.eqb].
  destruct (ServerFacts.after_cases req w)
    as [(s & p & Hafter & _ & Hs)
       | [Hafter
         | [(u & Hpost & _)
           | [(q0 & i & u & _ & Hq0 & Hfind & Hafter)
             | (q0 & i & u & Hdel & _)]]]].
  - rewrite Hafter in Hresp. injection Hresp as -> _.
    destruct (Hs eq_refl); congruence.
  - by rewrite Hafter in Hresp.
  - congruence.
  - rewrite Hafter in Hresp |- *. injection Hresp as <-.
    assert (q0 = q) as -> by congruence.
    unfold saved, find. cbn [users].
    by rewrite (list_find_insert_same _ _ _ _ _ Hfind).
  - congruence.
Qed.

(** X12.  A record that was just deleted is gone for its id: after a DELETE
    answered 200 in a collection with pairwise distinct ids, an authenticated
    GET, PUT or DELETE /users with the same id parameter is answered 404
    "User not found" and leaves the collection as the deletion left it.  So
    the second of two equal deletions is answered 404. *)
Theorem delete_then_missing (req r : request) (w : world) (q : string)
  (p : payload) :
  method req = "DELETE" →
  given (query_id req) = Some q →
  response (out (after req w)) = Some (200, p) →
  NoDup (id <$> users w) →
  method r = "GET" ∨ method r = "PUT" ∨ method r = "DELETE" →
  pathname r = "/users" →
  isAuthenticated r = true →
  given (query_id r) = Some q →
  response (out (after r (after req w)))
  = Some (404, Error "User not found")
  ∧ users (after r (after req w)) = users (after req w).
Proof.
  intros Hdel Hq Hresp Hnodup Hm Hp Ha Hrq.
  assert (Hopt : method r ≠ "OPTIONS") by (by destruct Hm as [-> | [-> | ->]]).
  enough (Hr : after r (after req w)
               = answered (after req w) 404 (Error "User not found"))
    by (by rewrite Hr).
  unfold after at 1.
  rewrite (ServerFacts.handle_users r _ Hopt Ha Hp), Hrq.
  destruct (ServerFacts.after_cases req w)
    as [(s & p' & Hafter & _ & Hs)
       | [Hafter
         | [(u & Hpost & _)
           | [(q0 & i & u & Hput & _)
             | (q0 & i & u & _ & Hq0 & Hfind & Hafter)]]]].
  - rewrite Hafter in Hresp. injection Hresp as -> _.
    destruct (Hs eq_refl); congruence.
  - by rewrite Hafter in Hresp.
  - congruence.
  - congruence.
  - assert (q0 = q) as -> by congruence.
    rewrite Hafter. unfold saved, find. cbn [users].
    rewrite (list_find_delete_None _ _ _ _ Hnodup Hfind).
    by destruct Hm as [-> | [-> | ->]];
      cbn [String.eqb Ascii.eqb Bool.eqb fmap option_fmap option_map].
Qed.

(** X13.  Every request but POST and DELETE is idempotent: handled a second
    time right after the first, it leaves the collection and the file as the
    first left them and is answered the same. *)
Theorem repeat_changes_nothing (req : request) (w : world) :
  method req ≠ "POST" →
  method req ≠ "DELETE" →
  after req (after req w) = after req w.
Proof.
  intros Hpost Hdel.
  assert (Hsame : ∀ v, after req w = v → users v = users w → disk v = disk w →
                       after req (after req w) = after req w).
  { intros v Hv Hus Hdisk. rewrite Hv at 1. unfold after.
    by rewrite (handle_store req w v). }
  destruct (ServerFacts.after_cases req w)
    as [(s & p' & Hafter & _)
       | [Hafter
         | [(u & ? & _)
           | [(q & i & u & Hput & Hq & Hfind & Hafter)
             | (q & i & u & ? & _)]]]];
    [by apply (Hsame _ Hafter) | by apply (Hsame _ Hafter) | done | | done].
  assert (Hopt : method req ≠ "OPTIONS") by by rewrite Hput.
  assert (Ha : isAuthenticated req = true).
  { destruct (isAuthenticated req) eqn:Ha; [done |].
    revert Hafter. unfold after.
    rewrite ServerFacts.handle_unauthorized by done. by intros [=]. }
  assert (Hp : pathname req = "/users").
  { destruct (String.eqb_spec (pathname req) "/users") as [Hp|Hp]; [done |].
    revert Hafter. unfold after.
    rewrite ServerFacts.handle_route by done. by intros [=]. }
  assert (Hb : is_null (body req) = false).
  { destruct (is_null (body req)) eqn:Hb; [| done].
    revert Hafter. unfold after.
    rewrite (ServerFacts.handle_users req w Hopt Ha Hp), Hput, Hq, Hfind, Hb.
    by intros [=]. }
  rewrite Hafter. unfold after.
  rewrite (ServerFacts.handle_users req _ Hopt Ha Hp), Hput, Hq.
  cbn [String.eqb Ascii.eqb Bool.eqb snd]. rewrite !users_saved.
  rewrite (list_find_insert_same q _ i u (updated (body req) u) Hfind eq_refl).
  by rewrite Hb, updated_idem, list_insert_insert_eq.
Qed.

(** X14.  The id parameter is compared as a number: a parameter that denotes
    no number finds no record, so GET, PUT and DELETE /users with it are
    answered 404 "User not found"; and two parameters that denote the same
    number are handled the same. *)
Theorem id_compared_as_number (req : request) (w : world) (q q' : string) :
  q ≠ "" → q' ≠ "" →
  (method req = "GET" ∨ method req = "PUT" ∨ method req = "DELETE" →
   pathname req = "/users" →
   isAuthenticated req = true →
   ToNumber q = None →
   after (with_query (Some q) req) w
   = answered w 404 (Error "User not found"))
  ∧ (ToNumber q = ToNumber q' →
     handle (with_query (Some q) req) w = handle (with_query (Some q') req) w).
Proof.
  intros Hq Hq'. apply String.eqb_neq in Hq, Hq'. split.
  - intros Hm Hp Ha Hnum. unfold after.
    assert (Hopt : method req ≠ "OPTIONS")
      by (by destruct Hm as [-> | [-> | ->]]).
    rewrite (ServerFacts.handle_users (with_query (Some q) req) w Hopt Ha Hp).
    cbn [method with_query query_id given]. rewrite Hq. unfold find.
    assert (list_find (id_is q) (users w) = None) as ->.
    { apply (proj2 (list_find_None (id_is q) _)), Forall_forall.
      intros v _. unfold id_is. by rewrite Hnum. }
    by destruct Hm as [-> | [-> | ->]].
  - intros Hnum.
    assert (Hfind : ∀ us, list_find (id_is q) us = list_find (id_is q') us).
    { intros us. apply list_find_ext. intros v. unfold id_is.
      by rewrite Hnum. }
    set (r := with_query (Some q) req). set (r' := with_query (Some q') req).
    destruct (String.eqb_spec (method req) "OPTIONS") as [Hopt|Hopt].
    { by rewrite (ServerFacts.handle_options r w Hopt),
        (ServerFacts.handle_options r' w Hopt). }
    destruct (isAuthenticated req) eqn:Ha; last first.
    { by rewrite (ServerFacts.handle_unauthorized r w Hopt Ha),
        (ServerFacts.handle_unauthorized r' w Hopt Ha). }
    destruct (String.eqb_spec (pathname req) "/users") as [Hp|Hp]; last first.
    { by rewrite (ServerFacts.handle_route r w Hopt Ha Hp),
        (ServerFacts.handle_route r' w Hopt Ha Hp). }
    rewrite (ServerFacts.handle_users r w Hopt Ha Hp),
      (ServerFacts.handle_users r' w Hopt Ha Hp).
    subst r r'. cbn [method with_query query_id given body].
    rewrite Hq, Hq'. unfold find. by rewrite !Hfind.
Qed.

(** X15.  Creating a record and then deleting it by its id gives back the
    collection as it was: in a collection whose ids lie from -2^53 to
    2^53 - 1, the DELETE finds the new record, removes it and returns it. *)
Theorem create_then_delete (req d : request) (w : world) (u : user)
  (q : string) :
  response (out (after req w)) = Some (201, One u) →
  within 1 (users w) →
  method d = "DELETE" →
  pathname d = "/users" →
  isAuthenticated d = true →
  given (query_id d) = Some q →
  ToNumber q = Some (id u) →
  users (after d (after req w)) = users w
  ∧ response (out (after d (after req w)))
    = Some (200, Deleted "User deleted" (Some u)).
Proof.
  intros Hresp Hwithin Hm Hp Ha Hq Hnum.
  apply ServerFacts.response_201 in Hresp as (_ & Hu & Hafter).
  apply ServerFacts.created_Some in Hu as (_ & _ & _ & _ & Hid & _).
  destruct (ServerFacts.next_id_fresh (users w) 1 ltac:(lia) Hwithin)
    as (Hfresh & _).
  assert (Hopt : method d ≠ "OPTIONS") by by rewrite Hm.
  unfold after at 1 3.
  rewrite (ServerFacts.handle_users d _ Hopt Ha Hp), Hm, Hq, Hafter.
  cbn [String.eqb Ascii.eqb Bool.eqb]. rewrite users_saved.
  rewrite list_find_app_last; [| | done].
  - cbn [snd users saved out response].
    by rewrite (delete_middle (users w) [] u), app_nil_r.
  - apply Forall_forall. intros v Hv Hqv.
    assert (id v = id u) as Hvu by (unfold id_is in Hqv; congruence).
    specialize (Hfresh (id v) (list_elem_of_fmap_2 id _ _ Hv)). lia.
Qed.

(** *** The next id *)

Lemma is_maximum_Math_max (x : Z) (xs : list Z) :
  is_maximum (Math_max x xs) (x :: xs).
Proof.
  split; [apply ServerFacts.Math_max_in | apply ServerFacts.Math_max_ge].
Qed.

(** X16.  The id a POST assigns depends on the ids that are in the
    collection, not on their order. *)
Theorem next_id_ignores_order (us us' : list user) :
  us ≡ₚ us' → next_id us = next_id us'.
Proof.
  intros Hperm. destruct us as [|u us].
  { by apply Permutation_nil in Hperm as ->. }
  pose proof (is_maximum_Math_max (id u) (id <$> us)) as [Hin Hmax].
  transitivity (js_add (Math_max (id u) (id <$> us)) 1); [done |].
  symmetry. apply ServerFacts.next_id_max.
  change (id u :: (id <$> us)) with (id <$> u :: us) in Hin, Hmax.
  split.
  - by rewrite <- Hperm.
  - intros x Hx. apply Hmax. by rewrite Hperm.
Qed.

(** *** The file *)

Lemma synced_saved (us : list user) (s : Z) (p : payload) :
  synced (saved us s p).
Proof. done. Qed.

Lemma step_synced (req : request) (w : world) :
  synced w → synced (after req w).
Proof.
  intros Hw.
  destruct (ServerFacts.after_cases req w)
    as [(s & p & -> & _)
       | [->
         | [(u & _ & _ & ->)
           | [(q & i & u & _ & _ & _ & ->)
             | (q & i & u & _ & _ & _ & ->)]]]];
    done || apply synced_saved.
Qed.

(** X17.  Once the file holds the serialization of the collection, it does so
    after every request, whatever the requests are and however they are
    answered. *)
Theorem file_follows_collection (reqs : list request) (w : world) :
  synced w → synced (run reqs w).
Proof.
  revert w. induction reqs as [|req reqs IH]; intros w Hw; [done |].
  apply IH, step_synced, Hw.
Qed.

(** X18.  No change of the collection goes unsaved or unanswered: a request
    that leaves the collection different has written the whole of the new
    collection to the file, once, and was answered 200 or 201. *)
Theorem every_change_is_saved (req : request) (w : world) :
  users (after req w) ≠ users w →
  synced (after req w)
  ∧ writes (out (after req w)) = [disk (after req w)]
  ∧ ∃ s p, response (out (after req w)) = Some (s, p) ∧ (s = 200 ∨ s = 201).
Proof.
  destruct (ServerFacts.after_cases req w)
    as [(s & p & -> & _)
       | [->
         | [(u & _ & _ & ->)
           | [(q & i & u & _ & _ & _ & ->)
             | (q & i & u & _ & _ & _ & ->)]]]];
    [done | done | ..]; intros _; (split_and!; [done | done |]);
    eexists _, _; (split; [done |]); auto.
Qed.

(** *** Ids in order *)

(** The ids of a collection grow from each record to the next. *)
Lemma increasing_app (l : list Z) (n : Z) :
  increasing l → (∀ x, x ∈ l → x < n) → increasing (l ++ [n]).
Proof.
  intros Hl Hn i j x y Hi Hj Hij.
  apply lookup_app_Some in Hj as [Hj | [Hlen Hj]].
  - rewrite lookup_app_l in Hi by (apply lookup_lt_Some in Hj; lia). eauto.
  - apply list_lookup_singleton_Some in Hj as [Hj0 <-].
    rewrite lookup_app_l in Hi by lia.
    by eapply Hn, list_elem_of_lookup_2.
Qed.

Lemma increasing_delete (l : list Z) (k : nat) :
  increasing l → increasing (delete k l).
Proof.
  intros Hl i j x y Hi Hj Hij.
  destruct (decide (j < k)%nat) as [Hjk|Hjk].
  - rewrite list_lookup_delete_lt in Hi, Hj by lia. by eapply (Hl i j).
  - rewrite list_lookup_delete_ge in Hj by lia.
    destruct (decide (i < k)%nat) as [Hik|Hik].
    + rewrite list_lookup_delete_lt in Hi by lia. eapply (Hl i (S j)); [done.. |].
      lia.
    + rewrite list_lookup_delete_ge in Hi by lia.
      eapply (Hl (S i) (S j)); [done.. |]. lia.
Qed.

Lemma within_le (k k' : Z) (us : list user) :
  k' ≤ k → within k us → within k' us.
Proof.
  intros Hk [Hle Hus]. split; [lia |].
  eapply Forall_impl; [exact Hus |]. simpl. intros u. lia.
Qed.

Lemma step_within (req : request) (w : world) (k : Z) :
  0 < k → within k (users w) → within (k - 1) (users (after req w)).
Proof.
  intros Hk Hw.
  pose proof (within_le k (k - 1) _ ltac:(lia) Hw) as Hw'.
  destruct (ServerFacts.after_cases req w)
    as [(s & p & -> & _)
       | [->
         | [(u & _ & Hu & ->)
           | [(q & i & u & _ & _ & Hfind & ->)
             | (q & i & u & _ & _ & _ & ->)]]]]; [done | done | ..].
  - apply ServerFacts.created_Some in Hu as (_ & _ & _ & _ & Hid & _).
    destruct (ServerFacts.next_id_fresh (users w) k Hk Hw) as (_ & Hlo & Hhi).
    destruct Hw' as [Hle Hus]. split; [done |]. cbn [users saved].
    apply Forall_app. split; [done |]. apply Forall_singleton.
    rewrite Hid. lia.
  - apply list_find_Some in Hfind as (Hi & _ & _).
    destruct Hw' as [Hle Hus]. split; [done |]. cbn [users saved].
    apply Forall_insert; [done |].
    exact (proj1 (Forall_lookup _ _) Hus i u Hi).
  - destruct Hw' as [Hle Hus]. split; [done |]. cbn [users saved].
    by apply Forall_delete.
Qed.

Lemma step_increasing (req : request) (w : world) (k : Z) :
  0 < k → within k (users w) →
  increasing (id <$> users w) → increasing (id <$> users (after req w)).
Proof.
  intros Hk Hw Hinc.
  destruct (ServerFacts.after_cases req w)
    as [(s & p & -> & _)
       | [->
         | [(u & _ & Hu & ->)
           | [(q & i & u & _ & _ & Hfind & ->)
             | (q & i & u & _ & _ & _ & ->)]]]]; [done | done | ..];
    cbn [users saved].
  - apply ServerFacts.created_Some in Hu as (_ & _ & _ & _ & Hid & _).
    destruct (ServerFacts.next_id_fresh (users w) k Hk Hw) as (Hfresh & _).
    rewrite fmap_app. apply increasing_app; [done |].
    cbn [fmap list_fmap]. by rewrite Hid.
  - apply list_find_Some in Hfind as (Hi & _ & _).
    rewrite list_fmap_insert.
    change (id (updated (body req) u)) with (id u).
    rewrite list_insert_id; [done |]. by rewrite list_lookup_fmap, Hi.
  - rewrite list_fmap_delete. by apply increasing_delete.
Qed.

(** X19.  A collection whose ids grow from each record to the next keeps this
    order through any requests, as long as no id can pass 2^53: creation
    appends an id above all others, an update keeps the ids, a deletion takes
    one out. *)
Theorem ids_stay_in_order (reqs : list request) (w : world) :
  increasing (id <$> users w) →
  within (Z.of_nat (length reqs)) (users w) →
  increasing (id <$> users (run reqs w)).
Proof.
  revert w. induction reqs as [|req reqs IH]; intros w Hinc Hw; [done |].
  cbn [length] in Hw. cbn [run fold_left]. apply IH.
  - eapply step_increasing; [| exact Hw | done]. lia.
  - replace (Z.of_nat (length reqs)) with (Z.of_nat (S (length reqs)) - 1)
      by lia.
    apply step_within; [lia | done].
Qed.

(** *** Restarting *)

Lemma wf_assoc (props : list (string * json)) (k : string) (v : json) :
  forallb (λ kv, wf_json kv.2) props = true →
  assoc k props = Some v →
  wf_json v = true.
Proof.
  induction props as [|[k' x] props IH]; [done |]. cbn [forallb assoc snd].
  intros [Hx Hprops]%andb_prop.
  destruct (String.eqb k k'); [by intros [= <-] | by apply IH].
Qed.

Lemma wf_own_prop (b : json) (k : string) (v : json) :
  wf_json b = true → own_prop b k = Some v → wf_json v = true.
Proof.
  destruct b as [| | | | | | | |props]; try done. cbn [wf_json own_prop].
  intros [_ Hprops]%andb_prop. by apply wf_assoc.
Qed.

Lemma wf_default (b : json) (k : string) (d : json) :
  wf_json b = true →
  wf_json d = true →
  wf_json (default d (truthy_value (own_prop b k))) = true.
Proof.
  intros Hb Hd.
  destruct (truthy_value (own_prop b k)) as [v|] eqn:Hv; [| done].
  apply ServerFacts.truthy_value_Some in Hv as [Hv _].
  exact (wf_own_prop b k v Hb Hv).
Qed.

Lemma wf_user_fields (u : user) :
  wf_user u = true
  ↔ is_number (id u) = true ∧ wf_json (name u) = true
    ∧ wf_json (email u) = true ∧ wf_json (role u) = true.
Proof.
  unfold wf_user, encode_user.
  change (wf_json (JObj ?o)) with (canonical o && forallb (λ kv, wf_json kv.2) o).
  change (canonical _) with true. cbn [forallb snd wf_json andb].
  rewrite !andb_true_iff. tauto.
Qed.

Lemma is_number_safe (n : Z) : - 2 ^ 53 ≤ n ≤ 2 ^ 53 → is_number n = true.
Proof.
  intros Hn. unfold is_number.
  rewrite JsonFacts.round53_exact by lia.
  apply andb_true_iff. split; [apply Z.eqb_refl | apply Z.ltb_lt; lia].
Qed.

Lemma step_wf (req : request) (w : world) (k : Z) :
  0 < k → within k (users w) →
  wf_json (body req) = true →
  Forall (λ u, wf_user u = true) (users w) →
  Forall (λ u, wf_user u = true) (users (after req w)).
Proof.
  intros Hk Hw Hb Hus.
  destruct (ServerFacts.after_cases req w)
    as [(s & p & -> & _)
       | [->
         | [(u & _ & Hu & ->)
           | [(q & i & u & _ & _ & Hfind & ->)
             | (q & i & u & _ & _ & _ & ->)]]]]; [done | done | ..];
    cbn [users saved].
  - apply ServerFacts.created_Some in Hu as (Hn & _ & He & _ & Hid & Hr).
    destruct (ServerFacts.next_id_fresh (users w) k Hk Hw) as (_ & Hlo & Hhi).
    apply Forall_app. split; [done |]. apply Forall_singleton.
    apply wf_user_fields. split_and!.
    + apply is_number_safe. lia.
    + exact (wf_own_prop _ _ _ Hb Hn).
    + exact (wf_own_prop _ _ _ Hb He).
    + rewrite Hr. by apply wf_default.
  - apply list_find_Some in Hfind as (Hi & _ & _).
    apply Forall_insert; [done |].
    pose proof (proj1 (Forall_lookup _ _) Hus i u Hi) as Hu.
    apply wf_user_fields in Hu as (? & ? & ? & ?).
    apply wf_user_fields. cbn [id name email role updated].
    split_and!; [done | by apply wf_default..].
  - by apply Forall_delete.
Qed.

Lemma synced_reloads (w : world) :
  synced w → Forall (λ u, wf_user u = true) (users w) → reloads w.
Proof.
  intros Hw Hus. exists (World (users w) (disk w) []). split; [| done].
  unfold synced in Hw. rewrite Hw. unfold startup.
  rewrite JsonFacts.JSON_parse_stringify by by apply ServerFacts.wf_encode_users.
  cbn [mbind option_bind]. by rewrite ServerFacts.decode_encode_users.
Qed.

(** X20.  A restart loses nothing: when the file is in step with the
    collection, the fields of the records and of the request bodies are
    values that JSON writes back as they are, and no id can pass 2^53, then
    after any requests a start from the file gives the collection as it is in
    memory. *)
Theorem restart_after_any_run (reqs : list request) (w : world) :
  synced w →
  Forall (λ u, wf_user u = true) (users w) →
  within (Z.of_nat (length reqs)) (users w) →
  Forall (λ req, wf_json (body req) = true) reqs →
  reloads (run reqs w).
Proof.
  revert w. induction reqs as [|req reqs IH]; intros w Hsync Hus Hw Hreqs.
  { by apply synced_reloads. }
  apply Forall_cons in Hreqs as [Hreq Hreqs].
  cbn [length] in Hw. cbn [run fold_left]. apply IH; [| | | done].
  - by apply step_synced.
  - eapply step_wf; [| exact Hw | done..]. lia.
  - replace (Z.of_nat (length reqs)) with (Z.of_nat (S (length reqs)) - 1)
      by lia.
    apply step_within; [lia | done].
Qed.

End listener.

(** ** Start-up and the request body *)

Lemma JSON_parse_begins (text : string) :
  begins_value text = false → JSON_parse text = None.
Proof.
  unfold begins_value, JSON_parse. intros Hbegin.
  destruct (String.length text); cbn [parse_value]; [done |].
  destruct (skip_ws text) as [|c r]; [done |].
  repeat (apply orb_false_elim in Hbegin as [Hbegin ?]).
  repeat match goal with H : Ascii.eqb _ _ = false |- _ => rewrite H; clear H end.
  unfold number_start in *.
  match goal with H : _ || _ = false |- _ =>
    apply orb_false_elim in H as [Hminus Hdigit] end.
  unfold read_number. destruct c as [[] [] [] [] [] [] [] []]; try done.
Qed.

Lemma JSON_parse_blank (text : string) :
  skip_ws text = "" → JSON_parse text = None.
Proof.
  intros Hblank. unfold JSON_parse.
  destruct (String.length text); cbn [parse_value]; [done |].
  by rewrite Hblank.
Qed.

(** X22.  Text that is empty or all white space is not JSON: as the file at
    start-up it makes [JSON.parse] throw, and nothing catches that, so the
    server does not start; as the body of a request it resolves to the empty
    object. *)
Theorem blank_text_is_not_json (text : string) :
  skip_ws text = "" →
  JSON_parse text = None
  ∧ startup (Some text) = None
  ∧ ∀ chunks, accumulate chunks = text → resolve chunks = JObj [].
Proof.
  intros Hblank. pose proof (JSON_parse_blank text Hblank) as Hparse.
  split_and!; [done | |].
  - unfold startup. by rewrite Hparse.
  - intros chunks Htext. unfold resolve. by rewrite Htext, Hparse.
Qed.

Section body.
Context `{engine : Engine}.

Lemma throw_null_body (req : request) (w : world) (e : string) :
  (handle req w).1 = Throw e → is_null (body req) = true.
Proof.
  destruct (String.eqb_spec (method req) "OPTIONS") as [Hopt|Hopt].
  { by rewrite (ServerFacts.handle_options req w Hopt). }
  destruct (isAuthenticated req) eqn:Hauth; last first.
  { by rewrite (ServerFacts.handle_unauthorized req w Hopt Hauth). }
  destruct (String.eqb_spec (pathname req) "/users") as [Hpath|Hpath];
    last first.
  { by rewrite (ServerFacts.handle_route req w Hopt Hauth Hpath). }
  rewrite (ServerFacts.handle_users req w Hopt Hauth Hpath).
  destruct (is_null (body req)); [done |].
  repeat match goal with
         | |- context [if ?b then _ else _] => destruct b
         | |- context [match ?o with Some _ => _ | None => _ end] =>
             destruct o as [[]|]
         end; done.
Qed.

Lemma updated_empty (u : user) : updated (JObj []) u = u.
Proof. by destruct u. Qed.

(** X24.  A body whose text does not begin, after its white space, with a
    character that a JSON value can begin with (a quote, a bracket, a brace,
    [t], [f], [n], a minus sign or a digit) is not JSON and counts as the
    empty object: an authenticated POST /users with such a body is answered
    400 "Name and email are required", an authenticated PUT /users with the
    id of a record rewrites the file, changes no field and is answered 200
    with the record as it was, and no request with such a body makes the
    listener throw. *)
Theorem unparsable_body_is_empty (req : request) (w : world)
  (chunks : list string) :
  begins_value (accumulate chunks) = false →
  pathname req = "/users" →
  isAuthenticated req = true →
  (method req = "POST" →
   handle (arriving chunks req) w
   = (Return, answered w 400 (Error "Name and email are required")))
  ∧ (method req = "PUT" →
     ∀ q i u, given (query_id req) = Some q →
              list_find (id_is q) (users w) = Some (i, u) →
              handle (arriving chunks req) w
              = (Next tt, saved (users w) 200 (One u)))
  ∧ (∀ e, (handle (arriving chunks req) w).1 ≠ Throw e).
Proof.
  intros Hparse%JSON_parse_begins Hp Ha.
  assert (Hbody : resolve chunks = JObj [])
    by (unfold resolve; by rewrite Hparse).
  unfold arriving. rewrite Hbody. split_and!.
  - intros Hm.
    assert (Hopt : method (with_body (JObj []) req) ≠ "OPTIONS")
      by (cbn [method with_body]; by rewrite Hm).
    rewrite (ServerFacts.handle_users _ w Hopt Ha Hp).
    cbn [method with_body body]. by rewrite Hm.
  - intros Hm q i u Hq Hfind.
    assert (Hopt : method (with_body (JObj []) req) ≠ "OPTIONS")
      by (cbn [method with_body]; by rewrite Hm).
    rewrite (ServerFacts.handle_users _ w Hopt Ha Hp).
    cbn [method with_body body query_id]. rewrite Hm, Hq, Hfind.
    cbn [String.eqb Ascii.eqb Bool.eqb is_null]. rewrite updated_empty.
    apply list_find_Some in Hfind as (Hi & _ & _).
    by rewrite (list_insert_id _ _ _ Hi).
  - intros e He. by apply throw_null_body in He.
Qed.

(** X25.  The listener sees the value the body text was written from: when
    the strings of the chunks make up exactly the text that
    [JSON.stringify (b, null, 2)] writes for a value [b] in which no number
    is an infinity or the negative zero, the body resolves to [b] and the
    request is handled as the request with the body [b].  (The text in this
    layout only: the same JSON spaced otherwise is not covered here.) *)
Theorem body_text_is_read_back (req : request) (w : world)
  (chunks : list string) (b : json) :
  wf_json b = true →
  accumulate chunks = JSON_stringify b →
  resolve chunks = b
  ∧ handle (arriving chunks req) w = handle (with_body b req) w.
Proof.
  intros Hb Htext.
  assert (Hbody : resolve chunks = b).
  { unfold resolve. by rewrite Htext, JsonFacts.JSON_parse_stringify. }
  unfold arriving. by rewrite Hbody.
Qed.

(** X26.  From the text of a request to the record in the file: an
    authenticated POST /users whose chunks make up exactly the text that
    [JSON.stringify (_, null, 2)] writes for an object with a truthy name and
    a truthy email and nothing else, no number in the two being an infinity
    or the negative zero, appends the record with the next id, these two
    values and the role "viewer", writes the file, and is answered 201 with
    the record.  (The text in this layout only.) *)
Theorem post_text_creates (req : request) (w : world) (chunks : list string)
  (n e : json) :
  method req = "POST" →
  pathname req = "/users" →
  isAuthenticated req = true →
  wf_json n = true → truthy n = true →
  wf_json e = true → truthy e = true →
  accumulate chunks = JSON_stringify (JObj [("name", n); ("email", e)]) →
  handle (arriving chunks req) w
  = (Next tt,
     saved (users w ++ [User (next_id (users w)) n e (JStr "viewer")]) 201
       (One (User (next_id (users w)) n e (JStr "viewer")))).
Proof.
  intros Hm Hp Ha Hn Htn He Hte Htext.
  assert (Hbody : resolve chunks = JObj [("name", n); ("email", e)]).
  { unfold resolve. rewrite Htext, JsonFacts.JSON_parse_stringify; [done |].
    change (wf_json (JObj ?o))
      with (canonical o && forallb (λ kv, wf_json kv.2) o).
    change (canonical _) with true. cbn [forallb snd andb].
    by rewrite Hn, He. }
  unfold arriving. rewrite Hbody.
  rewrite ServerFacts.handle_post by done.
  unfold created. cbn [body with_body own_prop assoc String.eqb Ascii.eqb
                       Bool.eqb truthy_value].
  by rewrite Htn, Hte.
Qed.

(** X27.  The body text [null], with or without white space before it, is
    JSON and resolves to [null]: an authenticated POST /users with it makes
    the listener throw a TypeError, without a response and without a change
    to the collection or the file. *)
Theorem null_text_throws (req : request) (w : world) (chunks : list string) :
  skip_ws (accumulate chunks) = "null" →
  method req = "POST" →
  pathname req = "/users" →
  isAuthenticated req = true →
  resolve chunks = JNull
  ∧ handle (arriving chunks req) w
    = (Throw "TypeError", World (users w) (disk w) []).
Proof.
  intros Htext Hm Hp Ha.
  assert (Hbody : resolve chunks = JNull).
  { unfold resolve, JSON_parse.
    destruct (accumulate chunks) as [|c text]; [done |].
    cbn [String.length parse_value]. by rewrite Htext. }
  split; [done |]. unfold arriving. rewrite Hbody.
  assert (Hopt : method (with_body JNull req) ≠ "OPTIONS")
    by (cbn [method with_body]; by rewrite Hm).
  rewrite (ServerFacts.handle_users _ w Hopt Ha Hp).
  cbn [method with_body body]. by rewrite Hm.
Qed.

End body.

(** ** What a reload gives *)

Lemma ser_elements_written (d : nat) (l : list json) :
  Forall (λ v, ∀ d, stringify_at d (written v) = stringify_at d v) l →
  ser_elements (stringify_at (S d)) d (map written l)
  = ser_elements (stringify_at (S d)) d l.
Proof.
  induction 1 as [|x l Hx _ IH]; [done |].
  cbn [map ser_elements]. by rewrite Hx, IH.
Qed.

Lemma ser_members_written (d : nat) (o : list (string * json)) :
  Forall (λ kv, ∀ d, stringify_at d (written kv.2) = stringify_at d kv.2) o →
  ser_members (stringify_at (S d)) d (map (λ kv, (kv.1, written kv.2)) o)
  = ser_members (stringify_at (S d)) d o.
Proof.
  induction 1 as [|[k x] o Hx _ IH]; [done |].
  cbn [map ser_members fst snd]. unfold ser_member.
  cbn [snd] in Hx. by rewrite Hx, IH.
Qed.

(** The text of a value is the text of the value it denotes. *)
Lemma stringify_written (v : json) (d : nat) :
  stringify_at d (written v) = stringify_at d v.
Proof.
  revert d.
  induction v as [|b|n|m e| |neg|s|items IH|props IH] using json_ind;
    intros d; try done.
  - destruct IH as [|x l Hx Hl]; [done |].
    cbn [written map stringify_at].
    by rewrite Hx, (ser_elements_written d l Hl).
  - destruct IH as [|[k x] o Hx Ho]; [done |].
    cbn [written map stringify_at fst snd]. unfold ser_member.
    cbn [snd] in Hx. by rewrite Hx, (ser_members_written d o Ho).
Qed.

Lemma canonical_written (o : list (string * json)) :
  canonical (map (λ kv, (kv.1, written kv.2)) o) = canonical o.
Proof.
  induction o as [|[k x] o IH]; [done |].
  cbn [map canonical fst snd]. rewrite IH. f_equal.
  clear IH. induction o as [|[k' x'] o IH]; [done |].
  cbn [map forallb fst snd]. by rewrite IH.
Qed.

(** The value that a text denotes is one that is written back as it is. *)
Lemma wf_written (v : json) : is_value v = true → wf_json (written v) = true.
Proof.
  induction v as [|b|n|m e| |neg|s|items IH|props IH] using json_ind;
    try done.
  - cbn [is_value written wf_json]. intros Hl.
    induction IH as [|x l Hx _ IHl]; [done |].
    cbn [forallb map] in *. apply andb_true_iff in Hl as [Hx' Hl].
    by rewrite (Hx Hx'), (IHl Hl).
  - cbn [is_value written wf_json]. rewrite canonical_written.
    intros [Hc Ho]%andb_true_iff. rewrite Hc. cbn [andb]. clear Hc.
    induction IH as [|[k x] o Hx _ IHo]; [done |].
    cbn [forallb map fst snd] in *. apply andb_true_iff in Ho as [Hx' Ho].
    by rewrite (Hx Hx'), (IHo Ho).
Qed.

(** A value that is written back as it is denotes itself. *)
Lemma written_wf (v : json) : wf_json v = true → written v = v.
Proof.
  induction v as [|b|n|m e| |neg|s|items IH|props IH] using json_ind;
    try done.
  - cbn [wf_json written]. intros Hl. f_equal.
    induction IH as [|x l Hx _ IHl]; [done |].
    cbn [forallb map] in *. apply andb_true_iff in Hl as [Hx' Hl].
    by rewrite (Hx Hx'), (IHl Hl).
  - cbn [wf_json written]. intros [_ Ho]%andb_true_iff. f_equal.
    induction IH as [|[k x] o Hx _ IHo]; [done |].
    cbn [forallb map fst snd] in *. apply andb_true_iff in Ho as [Hx' Ho].
    by rewrite (Hx Hx'), (IHo Ho).
Qed.

(** [JSON.parse (JSON.stringify (v, null, 2))] is the value that the text of
    [v] denotes. *)
Lemma JSON_parse_stringify_written (v : json) :
  is_value v = true → JSON_parse (JSON_stringify v) = Some (written v).
Proof.
  intros Hv. unfold JSON_stringify. rewrite <- stringify_written.
  by apply JsonFacts.JSON_parse_stringify, wf_written.
Qed.

Lemma encode_written_user (u : user) :
  written (encode_user u) = encode_user (written_user u).
Proof. by destruct u. Qed.

Lemma is_value_user (u : user) :
  is_value (encode_user u) = true
  ↔ is_number (id u) = true ∧ is_value (name u) = true
    ∧ is_value (email u) = true ∧ is_value (role u) = true.
Proof.
  unfold encode_user. cbn [is_value forallb snd].
  change (canonical _) with true. cbn [andb].
  rewrite !andb_true_iff. tauto.
Qed.

Lemma written_user_fixed (u : user) :
  is_value (encode_user u) = true →
  written_user u = u ↔ wf_user u = true.
Proof.
  intros Hu. split.
  - intros Hfix. unfold wf_user. rewrite <- Hfix, <- encode_written_user.
    by apply wf_written.
  - intros Hwf. apply written_wf in Hwf.
    rewrite encode_written_user in Hwf.
    destruct u as [i n e r]. unfold written_user, encode_user in *.
    cbn [id name email role] in *. by injection Hwf as -> -> ->.
Qed.

(** X28.  What a reload gives, for every collection of records that are
    values in memory (their numbers are Numbers and their objects have their
    properties in enumeration order): the records in their order, each with
    its id, and in its fields [null] for every infinity and [0] for every
    negative zero, everything else as it was.  So the reloaded collection is
    the persisted one exactly when the records hold neither an infinity nor
    the negative zero. *)
Theorem reload_gives_what_was_written (w : world) :
  Forall (λ u, is_value (encode_user u) = true) (users w) →
  ∃ w', startup (Some (disk (saveUsers w).2)) = Some w'
        ∧ users w' = written_user <$> users w
        ∧ (users w' = users w ↔ Forall (λ u, wf_user u = true) (users w)).
Proof.
  intros Hvalues.
  exists (World (written_user <$> users w)
            (JSON_stringify (encode_users (users w))) []).
  split_and!; [| done |].
  - change (disk (saveUsers w).2)
      with (JSON_stringify (encode_users (users w))).
    unfold startup.
    rewrite JSON_parse_stringify_written.
    + cbn -[decode_users encode_users JSON_stringify written].
      assert (Hw : written (encode_users (users w))
                   = encode_users (written_user <$> users w)).
      { unfold encode_users. cbn [written]. f_equal.
        rewrite <- list_fmap_compose.
        change (map written (encode_user <$> users w))
          with (written <$> (encode_user <$> users w)).
        rewrite <- list_fmap_compose. apply list_fmap_ext.
        intros i u _. apply encode_written_user. }
      by rewrite Hw, ServerFacts.decode_encode_users.
    + cbn [encode_users is_value]. apply forallb_forall.
      intros v Hv%list_elem_of_In%list_elem_of_fmap.
      destruct Hv as (u & -> & Hu).
      rewrite Forall_forall in Hvalues. by apply Hvalues.
  - cbn [users]. induction Hvalues as [|u us Hu _ IH]; [done |].
    rewrite fmap_cons, Forall_cons. split.
    + intros [= Hfix Hrest]. split; [| by apply IH].
      by apply written_user_fixed.
    + intros [Hwf Hrest]. f_equal; [| by apply IH].
      by apply written_user_fixed.
Qed.

(** ** The properties on sample requests *)

Import Sample.

Lemma get_by_id_witness :
  ∃ i, users (store [ana; bo]) !! i = Some bo ∧ id_is "2" bo.
Proof.
  destruct (get_by_id (with_query (Some "2") get_all) (store [ana; bo]) "2"
              eq_refl eq_refl eq_refl eq_refl) as [Hfound _].
  assert (Hget : handle (with_query (Some "2") get_all) (store [ana; bo])
                 = (Next tt, answered (store [ana; bo]) 200 (One bo)))
    by reflexivity.
  destruct (proj1 (Hfound bo) Hget) as (i & Hi & Hq & _). by exists i.
Defined.

Lemma get_is_read_only_witness :
  users (after (with_query (Some "2") get_all) (store [ana; bo])) = [ana; bo]
  ∧ disk (after (with_query (Some "2") get_all) (store [ana; bo]))
    = disk (store [ana; bo]).
Proof.
  destruct (get_is_read_only (with_query (Some "2") get_all)
              (store [ana; bo]) eq_refl) as (Hus & Hdisk & _).
  by split.
Defined.

Lemma id_checked_before_body_witness :
  handle (put "7" JNull) (store [ana])
  = (Return, answered (store [ana]) 404 (Error "User not found"))
  ∧ handle (put "" JNull) (store [ana])
    = (Return, answered (store [ana]) 400 (Error "User ID is required")).
Proof.
  split.
  - destruct (id_checked_before_body (put "7" JNull) (store [ana]))
      as [_ Hunknown]; [by left | reflexivity | reflexivity |].
    apply (Hunknown "7"); [reflexivity |].
    apply Forall_cons_2; [| apply Forall_nil_2].
    intros Hq. vm_compute in Hq. discriminate.
  - destruct (id_checked_before_body (put "" JNull) (store [ana]))
      as [Hmissing _]; [by left | reflexivity | reflexivity |].
    apply Hmissing. by right.
Defined.

Lemma route_then_method_witness :
  response (out (after (Request "PATCH" "/users" None bearer JNull)
                   (store [ana])))
  = Some (405, Error "Method not allowed")
  ∧ response (out (after (Request "GET" "/user" None bearer JNull)
                     (store [ana])))
    = Some (404, Error "Route not found").
Proof.
  split.
  - reflexivity.
  - destruct (route_then_method (Request "GET" "/user" None bearer JNull)
                (store [ana])) as (Hroute & _); [done | reflexivity |].
    by apply Hroute.
Defined.

Lemma status_tells_payload_witness :
  method (post ana_body) = "POST"
  ∧ ((404, "User not found")
     ∈ [(400, "Name and email are required"); (400, "User ID is required");
        (401, "Unauthorized. Use Bearer token."); (404, "User not found");
        (404, "Route not found"); (405, "Method not allowed")]).
Proof.
  assert (Hpost : response (out (after (post ana_body) (store [ana])))
                  = Some (201, One (User 2 (JStr "Ana") (JStr "a@x.com")
                                      (JStr "viewer"))))
    by reflexivity.
  assert (Hdel : response (out (after (delete_ "7") (store [ana])))
                 = Some (404, Error "User not found"))
    by reflexivity.
  split.
  - destruct (status_tells_payload _ _ _ _ Hpost) as [[[=] _] | [_ Hm]].
    exact Hm.
  - exact (status_tells_payload _ _ _ _ Hdel).
Defined.

Lemma create_then_get_witness :
  handle (with_query (Some "2") get_all) (after (post ana_body) (store [ana]))
  = (Next tt,
     answered (after (post ana_body) (store [ana])) 200
       (One (User 2 (JStr "Ana") (JStr "a@x.com") (JStr "viewer")))).
Proof.
  apply (create_then_get (post ana_body) (with_query (Some "2") get_all)
           (store [ana]) _ "2"); try reflexivity.
  split; [lia |]. apply Forall_cons_2; [simpl; lia | apply Forall_nil_2].
Defined.

Lemma update_then_get_witness :
  handle (with_query (Some "1") get_all)
    (after (put "1" (JObj [("name", JStr "Ann")])) (store [ana; bo]))
  = (Next tt,
     answered (after (put "1" (JObj [("name", JStr "Ann")])) (store [ana; bo]))
       200 (One (User 1 (JStr "Ann") (JStr "a@x.com") (JStr "viewer")))).
Proof.
  apply (update_then_get (put "1" (JObj [("name", JStr "Ann")]))
           (with_query (Some "1") get_all) (store [ana; bo]) _ "1");
    reflexivity.
Defined.

Lemma delete_then_missing_witness :
  response (out (after (delete_ "1") (after (delete_ "1") (store [ana; bo]))))
  = Some (404, Error "User not found")
  ∧ users (after (delete_ "1") (after (delete_ "1") (store [ana; bo])))
    = users (after (delete_ "1") (store [ana; bo])).
Proof.
  assert (Hnodup : NoDup (id <$> users (store [ana; bo]))).
  { apply NoDup_cons. split; [| apply NoDup_singleton].
    intros [=]%list_elem_of_singleton. }
  apply (delete_then_missing (delete_ "1") (delete_ "1") (store [ana; bo]) "1"
           (Deleted "User deleted" (Some ana)));
    [reflexivity | reflexivity | reflexivity | exact Hnodup
    | by right; right | reflexivity | reflexivity | reflexivity].
Defined.

Lemma repeat_changes_nothing_witness :
  after (put "1" (JObj [("name", JStr "Ann")]))
    (after (put "1" (JObj [("name", JStr "Ann")])) (store [ana; bo]))
  = after (put "1" (JObj [("name", JStr "Ann")])) (store [ana; bo]).
Proof.
  apply (repeat_changes_nothing (put "1" (JObj [("name", JStr "Ann")]))
           (store [ana; bo])); discriminate.
Defined.

Lemma id_compared_as_number_witness :
  after (with_query (Some "abc") get_all) (store [ana])
  = answered (store [ana]) 404 (Error "User not found").
Proof.
  destruct (id_compared_as_number get_all (store [ana]) "abc" "abc")
    as [Hnone _]; [discriminate | discriminate |].
  apply Hnone; [by left | reflexivity..].
Defined.

Lemma create_then_delete_witness :
  users (after (delete_ "2") (after (post ana_body) (store [ana]))) = [ana]
  ∧ response (out (after (delete_ "2") (after (post ana_body) (store [ana]))))
    = Some (200,
            Deleted "User deleted"
              (Some (User 2 (JStr "Ana") (JStr "a@x.com") (JStr "viewer")))).
Proof.
  apply (create_then_delete (post ana_body) (delete_ "2") (store [ana]) _ "2");
    try reflexivity.
  split; [lia |]. apply Forall_cons_2; [simpl; lia | apply Forall_nil_2].
Defined.

Lemma next_id_ignores_order_witness : next_id [ana; bo] = next_id [bo; ana].
Proof. apply (next_id_ignores_order [ana; bo] [bo; ana]), perm_swap. Defined.

Lemma file_follows_collection_witness :
  synced (run [post ana_body; delete_ "1"] (store [ana])).
Proof.
  apply (file_follows_collection [post ana_body; delete_ "1"] (store [ana])).
  reflexivity.
Defined.

Lemma every_change_is_saved_witness :
  synced (after (post ana_body) (store []))
  ∧ writes (out (after (post ana_body) (store [])))
    = [disk (after (post ana_body) (store []))].
Proof.
  destruct (every_change_is_saved (post ana_body) (store []))
    as (Hsynced & Hwrites & _); [discriminate |].
  by split.
Defined.

Lemma ids_stay_in_order_witness :
  increasing (id <$> users (run [post ana_body; delete_ "1"]
                              (store [ana; bo]))).
Proof.
  apply (ids_stay_in_order [post ana_body; delete_ "1"] (store [ana; bo])).
  - intros [|[|i]] [|[|j]] x y Hx Hy Hlt; try (exfalso; lia); try done.
    injection Hx as <-. injection Hy as <-. done.
  - split; [simpl; lia |].
    repeat apply Forall_cons_2; [simpl; lia.. | apply Forall_nil_2].
Defined.

Lemma restart_after_any_run_witness :
  reloads (run [post ana_body; put "1" (JObj [("role", JStr "admin")]);
                delete_ "2"]
             (store [ana; bo])).
Proof.
  apply (restart_after_any_run
           [post ana_body; put "1" (JObj [("role", JStr "admin")]);
            delete_ "2"]
           (store [ana; bo])).
  - reflexivity.
  - repeat apply Forall_cons_2; [reflexivity.. | apply Forall_nil_2].
  - split; [simpl; lia |].
    repeat apply Forall_cons_2; [simpl; lia.. | apply Forall_nil_2].
  - repeat apply Forall_cons_2; [reflexivity.. | apply Forall_nil_2].
Defined.

Lemma blank_text_is_not_json_witness :
  startup (Some (String LF " ")) = None ∧ resolve [] = JObj [].
Proof.
  split.
  - apply (blank_text_is_not_json (String LF " ")). reflexivity.
  - destruct (blank_text_is_not_json "" eq_refl) as (_ & _ & Hbody).
    by apply Hbody.
Defined.

Lemma unparsable_body_is_empty_witness :
  handle (arriving ["user=A"; "na"] (post JNull)) (store [ana])
  = (Return, answered (store [ana]) 400 (Error "Name and email are required")).
Proof.
  destruct (unparsable_body_is_empty (post JNull) (store [ana])
              ["user=A"; "na"])
    as (Hpost & _); [reflexivity.. |].
  by apply Hpost.
Defined.

Lemma body_text_is_read_back_witness :
  resolve [String.substring 0 9 (JSON_stringify ana_body);
           String.substring 9 99 (JSON_stringify ana_body)]
  = ana_body.
Proof.
  destruct (body_text_is_read_back (post JNull) (store [ana])
              [String.substring 0 9 (JSON_stringify ana_body);
               String.substring 9 99 (JSON_stringify ana_body)]
              ana_body) as [Hbody _]; [reflexivity.. |].
  exact Hbody.
Defined.

Lemma post_text_creates_witness :
  handle
    (arriving [String.substring 0 9 (JSON_stringify ana_body);
               String.substring 9 99 (JSON_stringify ana_body)]
       (post JNull))
    (store [ana])
  = (Next tt,
     saved [ana; User 2 (JStr "Ana") (JStr "a@x.com") (JStr "viewer")] 201
       (One (User 2 (JStr "Ana") (JStr "a@x.com") (JStr "viewer")))).
Proof.
  apply (post_text_creates (post JNull) (store [ana])
           [String.substring 0 9 (JSON_stringify ana_body);
            String.substring 9 99 (JSON_stringify ana_body)]
           (JStr "Ana") (JStr "a@x.com")); reflexivity.
Defined.

Lemma reload_gives_what_was_written_witness :
  ∃ w', startup
          (Some (disk (saveUsers (after (post overflow_body) (store [ana]))).2))
        = Some w'
        ∧ users w' = [ana; User 2 JNull (JStr "o@x.com") (JStr "viewer")].
Proof.
  destruct (reload_gives_what_was_written
              (after (post overflow_body) (store [ana])))
    as (w' & Hstart & Husers & _).
  - repeat apply Forall_cons_2; [reflexivity.. | apply Forall_nil_2].
  - exists w'. split; [exact Hstart | exact Husers].
Defined.

Lemma null_text_throws_witness :
  handle (arriving [" nu"; "ll"] (post (JObj []))) (store [ana])
  = (Throw "TypeError", World [ana] (disk (store [ana])) []).
Proof.
  apply (null_text_throws (post (JObj [])) (store [ana]) [" nu"; "ll"]);
    reflexivity.
Defined.

End ListenerFacts.
